(** * calcumet: sheet-metal calculator

    A shallow embedding of [tools.py] and [calcumet.py], the properties
    their specification states about them, and further properties of the
    code.

    Conventions of the embedding.
    - Numbers.  Python's [int] is [Z].  A value that may be an [int] or a
      [float] (a dimension, a fractional sheet count) is an exact rational
      [Qc]: an [int] is the rational of denominator 1, and a [float] is
      read as the rational it denotes, all operations being exact.
      Rounding errors of binary64 arithmetic are outside the model.
    - Dictionaries.  A Python [dict] keeps its insertion order and the code
      iterates over it, so a dictionary is an association list with one
      entry per key, [d[k] = v] overwriting in place or appending.
    - Strings are [string]; [str.lower] and [str.islower] are modelled on
      the ASCII letters, every other character being uncased.
    - Exceptions.  A function that can raise returns [result].
    - Worksheets.  A worksheet is the list of its rows, a row a record of
      its cells; a loop that sets the date cells of the rows returns the
      date column it leaves.  Reading and writing the dumps and the
      workbook, and printing, are outside the model. *)

From stdpp Require Import base option list strings numbers sorting pretty.
From Stdlib Require Import Ascii QArith Qcanon Qround Lia Lqa Permutation.

Open Scope Qc_scope.

(** ** Numbers *)

(** [math.ceil]. *)
Definition ceil (x : Qc) : Z := Qceiling x.

(** [int(x)]: truncation toward zero. *)
Definition trunc (x : Qc) : Z := (Qnum x ÷ Zpos (Qden x))%Z.

(** The integer nearest to [x], ties going to the even one. *)
Definition round_half_even (x : Qc) : Z :=
  let f := Qfloor x in
  let r := x - Qc_of_Z f in
  if decide (r < Q2Qc (1 # 2)) then f
  else if decide (Q2Qc (1 # 2) < r) then (f + 1)%Z
  else if Z.even f then f else (f + 1)%Z.

(** [round(x, 1)]. *)
Definition round1 (x : Qc) : Qc :=
  Qc_of_Z (round_half_even (Q2Qc 10 * x)) / Q2Qc 10.

(** [x // y] for a divisor that is not zero. *)
Definition floordiv (x y : Qc) : Qc := Qc_of_Z (Qfloor (x / y)).

(** Python's [max(x, y)]: the first of the two unless the second is larger. *)
Definition pymax (x y : Qc) : Qc := if decide (x < y) then y else x.

Definition is_integer (x : Qc) : Prop := ∃ n : Z, x = Qc_of_Z n.

(** ** Exceptions *)

Inductive exn := KeyError | TypeError | ValueError | ZeroDivisionError.

Inductive result (A : Type) :=
  | Ok (a : A)
  | Raise (e : exn).
Arguments Ok {A} a.
Arguments Raise {A} e.

#[global] Instance exn_eq_dec : EqDecision exn.
Proof. solve_decision. Defined.

#[global] Instance result_eq_dec `{EqDecision A} : EqDecision (result A).
Proof. solve_decision. Defined.

#[global] Instance result_ret : MRet result := λ A a, Ok a.
#[global] Instance result_fmap : FMap result := λ A B f m,
  match m with
  | Ok a => Ok (f a)
  | Raise e => Raise e
  end.
#[global] Instance result_bind : MBind result := λ A B f m,
  match m with
  | Ok a => f a
  | Raise e => Raise e
  end.

(** A lookup [d[k]] that raises [KeyError] on a missing key. *)
Definition or_key_error {A} (o : option A) : result A :=
  match o with
  | Some a => Ok a
  | None => Raise KeyError
  end.

(** ** Dictionaries *)

Definition dict (V : Type) := list (string * V).

Section dict.
Context {V : Type}.

(** [d.get(k)]. *)
Fixpoint dget (k : string) (d : dict V) : option V :=
  match d with
  | [] => None
  | (k', v) :: d' => if decide (k' = k) then Some v else dget k d'
  end.

(** [d[k] = v]: the entry of [k] is overwritten where it stands, a new key
    goes to the end. *)
Fixpoint dset (k : string) (v : V) (d : dict V) : dict V :=
  match d with
  | [] => [(k, v)]
  | (k', v') :: d' =>
      if decide (k' = k) then (k, v) :: d' else (k', v') :: dset k v d'
  end.

(** [del d[k]] on a key that is present: its entry goes, the others keep
    their order. *)
Fixpoint ddel (k : string) (d : dict V) : dict V :=
  match d with
  | [] => []
  | (k', v') :: d' =>
      if decide (k' = k) then ddel k d' else (k', v') :: ddel k d'
  end.

Definition keys (d : dict V) : list string := d.*1.
Definition values (d : dict V) : list V := d.*2.

End dict.

Arguments keys {V} d : simpl never.
Arguments values {V} d : simpl never.

(** ** Sorting: Python's [sorted] is stable *)

Section sorted.
Context {A : Type} (le : A → A → bool).

(** [x] goes before the first element it does not exceed. *)
Fixpoint insert_sorted (x : A) (l : list A) : list A :=
  match l with
  | [] => [x]
  | y :: l' => if le x y then x :: l else y :: insert_sorted x l'
  end.

Fixpoint sorted (l : list A) : list A :=
  match l with
  | [] => []
  | x :: l' => insert_sorted x (sorted l')
  end.

End sorted.

(** [sorted(d.items())]: the keys of a dictionary differ, so the pairs are
    ordered by key. *)
Definition sorted_items {V} (d : dict V) : dict V :=
  sorted (λ x y, String.leb x.1 y.1) d.

(** ** Strings *)

Definition is_upper (c : ascii) : bool :=
  let n := Ascii.N_of_ascii c in (65 <=? n)%N && (n <=? 90)%N.
Definition is_lower (c : ascii) : bool :=
  let n := Ascii.N_of_ascii c in (97 <=? n)%N && (n <=? 122)%N.
Definition lower_char (c : ascii) : ascii :=
  if is_upper c then Ascii.ascii_of_N (Ascii.N_of_ascii c + 32) else c.

(** [s.lower()]. *)
Fixpoint lower (s : string) : string :=
  match s with
  | EmptyString => EmptyString
  | String c s' => String (lower_char c) (lower s')
  end.

Fixpoint has_upper (s : string) : bool :=
  match s with
  | EmptyString => false
  | String c s' => is_upper c || has_upper s'
  end.
Fixpoint has_lower (s : string) : bool :=
  match s with
  | EmptyString => false
  | String c s' => is_lower c || has_lower s'
  end.

(** [s.islower()]: no cased character is uppercase and there is at least
    one cased character. *)
Definition islower (s : string) : bool := negb (has_upper s) && has_lower s.

(** [w in s] for strings. *)
Fixpoint contains (w s : string) : bool :=
  String.prefix w s ||
  match s with
  | EmptyString => false
  | String _ s' => contains w s'
  end.

(** [w] occurs in [s] as a run of consecutive characters. *)
Definition is_substring (w s : string) : Prop :=
  ∃ before after : string, s = before +:+ w +:+ after.

(** [' '.join(l)]. *)
Definition join (sep : string) (l : list string) : string :=
  String.concat sep l.

(** ** tools.py *)

(** [sort_nested_dict]: every inner dictionary is rebuilt in key order, then
    the outer one.  Two levels are sorted; what the inner dictionaries hold
    is left as it is. *)
Definition sort_nested_dict {V} (d : dict (dict V)) : dict (dict V) :=
  sorted_items (prod_map id sorted_items <$> d).

(** A row of the feedstock table. *)
Record sheet_spec := { fd : Qc; fW : Qc; fL : Qc; frho : Qc }.

(** A row of the preforms table: the values of [{'a', 'b', 'sheet'}]. *)
Record preform := { pa : Qc; pb : Qc; psheet : string }.

#[global] Instance sheet_spec_eq_dec : EqDecision sheet_spec.
Proof. solve_decision. Defined.

#[global] Instance preform_eq_dec : EqDecision preform.
Proof. solve_decision. Defined.

(** [x // y], raising on a zero divisor. *)
Definition floordiv_r (x y : Qc) : result Qc :=
  if decide (y = 0) then Raise ZeroDivisionError else Ok (floordiv x y).

(** [get_pps]. *)
Definition get_pps (a b : Qc) (sheet : string) (feedstock : dict sheet_spec)
  : result Qc :=
  s ← or_key_error (dget sheet feedstock);
  let length := fL s in
  let width := fW s in
  la ← floordiv_r length a;
  wb ← floordiv_r width b;
  lb ← floordiv_r length b;
  wa ← floordiv_r width a;
  mret (pymax (la * wb) (lb * wa)).

(** [get_ceil_delta]. *)
Definition get_ceil_delta (value : Qc) : Qc := Qc_of_Z (ceil value) - value.

(** [sum(l)]. *)
Definition pysum (l : list Qc) : Qc := fold_left Qcplus l 0.
Arguments pysum : simpl never.

(** The running spread once the loop of [spread_delta] has gone through all
    of [d] with no [break]; [None] when it left the loop inside [d]. *)
Fixpoint spread_through (spread : Qc) (d : dict Qc) : option Qc :=
  match d with
  | [] => Some spread
  | (key, val) :: rest =>
      let delta := get_ceil_delta val in
      if decide (spread < delta) then None
      else
        let spread' := spread - delta in
        if decide (spread' = 0) then None else spread_through spread' rest
  end.

(** The loop of [spread_delta] over the items still to visit; the keys do
    not change, so the dictionary is rebuilt entry by entry.  A [break]
    leaves the entries after the current one as they are. *)
Fixpoint spread_walk (spread : Qc) (d : dict Qc) : dict Qc :=
  match d with
  | [] => []
  | (key, val) :: rest =>
      let delta := get_ceil_delta val in
      if decide (spread < delta) then (key, val + spread) :: rest
      else
        let spread' := spread - delta in
        if decide (spread' = 0) then (key, Qc_of_Z (ceil val)) :: rest
        else (key, Qc_of_Z (ceil val)) :: spread_walk spread' rest
  end.

(** How many entries the loop of [spread_delta] visits. *)
Fixpoint spread_visits (spread : Qc) (d : dict Qc) : nat :=
  match d with
  | [] => 0
  | (key, val) :: rest =>
      let delta := get_ceil_delta val in
      if decide (spread < delta) then 1
      else
        let spread' := spread - delta in
        if decide (spread' = 0) then 1
        else S (spread_visits spread' rest)
  end.

(** [sorted(d.items(), key=f)] with [f] the ceiling delta of the value. *)
Definition sorted_by_delta (d : dict Qc) : dict Qc :=
  sorted (λ x y, bool_decide (get_ceil_delta x.2 ≤ get_ceil_delta y.2)) d.

(** [spread_delta]. *)
Definition spread_delta (d : dict Qc) : dict Qc :=
  let d := sorted_by_delta d in
  let spread := get_ceil_delta (pysum (values d)) in
  spread_walk spread d.

(** How many entries of the dictionary a call of [spread_delta] visits. *)
Definition spread_delta_visits (d : dict Qc) : nat :=
  let d := sorted_by_delta d in
  spread_visits (get_ceil_delta (pysum (values d))) d.

(** [ceil_dict_values]. *)
Definition ceil_dict_values (d : dict Qc) : dict Qc :=
  prod_map id (λ val, Qc_of_Z (ceil val)) <$> d.

Definition transformer : dict (dict Qc → dict Qc) :=
  [("grouped"%string, spread_delta); ("single"%string, ceil_dict_values)].

(** [has_marker]. *)
Definition has_marker (item : string) (tester : list string) : bool :=
  existsb (λ word, contains word (if islower word then lower item else item))
    tester.

(** ** Worksheets *)

(** What a cell of the loader workbook can hold. *)
Inductive value :=
  | VNone
  | VBool (b : bool)
  | VInt (n : Z)
  | VFloat (x : Qc)
  | VStr (s : string).

#[global] Instance value_eq_dec : EqDecision value.
Proof. solve_decision. Defined.

(** Python's truth value of a cell: [if not date.value]. *)
Definition truthy (v : value) : bool :=
  match v with
  | VNone => false
  | VBool b => b
  | VInt n => negb (n =? 0)%Z
  | VFloat x => negb (bool_decide (x = 0))
  | VStr s => negb (bool_decide (s = EmptyString))
  end.

(** A loop body that can raise, run over a list from the left. *)
Fixpoint foldM {A S} (f : S → A → result S) (s : S) (l : list A) : result S :=
  match l with
  | [] => Ok s
  | x :: l' => s' ← f s x; foldM f s' l'
  end.

(** The rows a loop body emits, in order; the first exception ends it. *)
Fixpoint flat_mapM {A B} (f : A → result (list B)) (l : list A)
  : result (list B) :=
  match l with
  | [] => Ok []
  | x :: l' => ys ← f x; zs ← flat_mapM f l'; Ok (ys ++ zs)
  end.

(** ** calcumet.py: update_contents *)

(** A row of the [contents] tab: the date cell, then item, element and
    piece count.  The two name columns hold text or are empty. *)
Record contents_row := {
  cr_date : value;
  cr_item : option string;
  cr_elem : option string;
  cr_pcs : value
}.

(** The body of the loop of [update_contents] on one row: the
    bill of materials afterwards and the value its date cell ends with. *)
Definition update_contents_row (now : value) (temp : dict (dict Qc))
    (r : contents_row) : dict (dict Qc) * value :=
  if truthy (cr_date r) then (temp, cr_date r)
  else
    match cr_item r, cr_elem r, cr_pcs r with
    | None, _, _ | _, None, _ | _, _, VNone => (temp, VStr "ValueError")
    | Some item, Some elem, VInt pcs =>
        if decide (0 < pcs)%Z then
          let elems := default [] (dget item temp) in
          (dset item (dset elem (Qc_of_Z pcs) elems) temp, now)
        else if decide (pcs = 0)%Z then
          match dget item temp with
          | None => (temp, VStr "KeyError")
          | Some elems =>
              match dget elem elems with
              | None => (temp, VStr "KeyError")
              | Some _ =>
                  match ddel elem elems with
                  | [] => (ddel item temp, now)
                  | elems' => (dset item elems' temp, now)
                  end
              end
          end
        else (temp, VStr "ValueError")
    | Some _, Some _, _ => (temp, VStr "TypeError")
    end.

(** The first loop of [update_contents] over the worksheet: the bill of
    materials it returns and the date column it leaves. *)
Fixpoint update_contents (ws : list contents_row) (temp : dict (dict Qc))
    (now : value) : dict (dict Qc) * list value :=
  match ws with
  | [] => (temp, [])
  | r :: ws' =>
      let '(temp', date) := update_contents_row now temp r in
      let '(temp'', dates) := update_contents ws' temp' now in
      (temp'', date :: dates)
  end.

(** The second loop of [update_contents]: what it dumps to subitems.json. *)
Definition subitems_of (temp : dict (dict Qc)) : dict (list string) :=
  fold_left (λ subitems '(item, elems),
    fold_left (λ subitems elem,
      if decide (elem ≠ item)
      then dset elem (default [] (dget elem subitems) ++ [item]) subitems
      else subitems) (keys elems) subitems) temp [].

(** ** calcumet.py: update_preforms and update_feedstock *)

(** A loop over the rows of a worksheet whose body updates the table and
    sets the date cell of the row: the table it returns and the date
    column it leaves. *)
Fixpoint over_rows {R T} (body : T → R → T * value) (ws : list R) (temp : T)
  : T * list value :=
  match ws with
  | [] => (temp, [])
  | r :: ws' =>
      let '(temp', date) := body temp r in
      let '(temp'', dates) := over_rows body ws' temp' in
      (temp'', date :: dates)
  end.

(** [val is None]. *)
Definition is_none (v : value) : bool :=
  match v with
  | VNone => true
  | _ => false
  end.

(** The number in a cell whose type is [int] or [float]; the type of a
    truth value is [bool], which is neither. *)
Definition number_of (v : value) : option Qc :=
  match v with
  | VInt n => Some (Qc_of_Z n)
  | VFloat x => Some x
  | _ => None
  end.

(** The loop over the numbers of a row, which [update_preforms] and
    [update_feedstock] both have: the flag it leaves the row with at its
    [break], [None] when it comes to its [else]. *)
Fixpoint check_numbers (cells : list value) : option string :=
  match cells with
  | [] => None
  | x :: cells' =>
      match number_of x with
      | None => Some "TypeError"%string
      | Some q =>
          if decide (q ≤ 0) then Some "ValueError"%string
          else check_numbers cells'
      end
  end.

(** A row of the [preforms] tab: the date cell, the element, the cells of
    the shape and the sheet.  The name column holds text or is empty. *)
Record preforms_row := {
  pr_date : value;
  pr_elem : option string;
  pr_shape : list value;
  pr_sheet : value
}.

Definition PREFORMS_HEADERS : list string := ["a"; "b"; "sheet"]%string.

(** The body of the loop of [update_preforms]. *)
Definition update_preforms_row (now : value) (temp : dict (dict value))
    (r : preforms_row) : dict (dict value) * value :=
  if truthy (pr_date r) then (temp, pr_date r)
  else
    match pr_elem r with
    | None => (temp, VStr "ValueError")
    | Some elem =>
        if existsb is_none (pr_shape r ++ [pr_sheet r])
        then (temp, VStr "ValueError")
        else
          match check_numbers (pr_shape r) with
          | Some flag => (temp, VStr flag)
          | None =>
              (dset elem (zip PREFORMS_HEADERS (pr_shape r ++ [pr_sheet r]))
                 temp, now)
          end
    end.

(** [update_preforms]. *)
Definition update_preforms (ws : list preforms_row) (temp : dict (dict value))
    (now : value) : dict (dict value) * list value :=
  over_rows (update_preforms_row now) ws temp.

(** A row of the [feedstock] tab: the date cell, the sheet and the cells
    of its parameters.  The name column holds text or is empty. *)
Record feedstock_row := {
  fr_date : value;
  fr_sheet : option string;
  fr_params : list value
}.

Definition FEEDSTOCK_HEADERS : list string := ["d"; "W"; "L"; "rho"]%string.

(** The body of the loop of [update_feedstock]. *)
Definition update_feedstock_row (now : value) (temp : dict (dict value))
    (r : feedstock_row) : dict (dict value) * value :=
  if truthy (fr_date r) then (temp, fr_date r)
  else
    match fr_sheet r with
    | None => (temp, VStr "ValueError")
    | Some sheet =>
        if existsb is_none (fr_params r) then (temp, VStr "ValueError")
        else
          match check_numbers (fr_params r) with
          | Some flag => (temp, VStr flag)
          | None => (dset sheet (zip FEEDSTOCK_HEADERS (fr_params r)) temp, now)
          end
    end.

(** [update_feedstock]. *)
Definition update_feedstock (ws : list feedstock_row)
    (temp : dict (dict value)) (now : value) : dict (dict value) * list value :=
  over_rows (update_feedstock_row now) ws temp.

(** ** calcumet.py: calculate_sheets_number *)

(** A row of the [demand] tab: the date cell, the item and the quantity. *)
Record demand_row := {
  dr_date : value;
  dr_item : option string;
  dr_qty : value
}.

(** [memo[elem]]: the three entries are written by one pass of the inner
    loop, so an entry that exists holds all of them. *)
Record memo_entry := {
  m_pps : Qc;
  m_demand : Qc;
  m_items : list string
}.

(** A record of the report. *)
Record report_row := {
  r_date : string;
  r_sheet : string;
  r_mode : string;
  r_elem : string;
  r_items : string;
  r_demand : Qc;
  r_recomm : Z;
  r_sheets_n : Qc
}.

#[global] Instance memo_entry_eq_dec : EqDecision memo_entry.
Proof. solve_decision. Defined.

#[global] Instance report_row_eq_dec : EqDecision report_row.
Proof. solve_decision. Defined.

(** [x / y], raising on a zero divisor. *)
Definition truediv (x y : Qc) : result Qc :=
  if decide (y = 0) then Raise ZeroDivisionError else Ok (x / y).

(** [Counter.update(d)] of the collections module: an empty counter takes
    the entries as they are, any other one adds each count to what it
    holds, a missing key counting for 0. *)
Definition counter_update (c d : dict Qc) : dict Qc :=
  match c with
  | [] => fold_left (λ c '(elem, count), dset elem count c) d c
  | _ =>
      fold_left (λ c '(elem, count),
        dset elem (count + default 0 (dget elem c)) c) d c
  end.

(** What the first loop accumulates: [temp] and [memo]. *)
Definition buckets := dict (dict (dict Qc)).
Definition state : Type := buckets * dict memo_entry.

(** The tables [tools] loads from the dumps: [t.contents], [t.preforms]
    and [t.feedstock]. *)
Record tables := {
  contents : dict (dict Qc);
  preforms : dict preform;
  feedstock : dict sheet_spec
}.

(** The item of a row with its elements, [t.contents[item]], when
    [item in t.contents]. *)
Definition known_item (t : tables) (r : demand_row)
  : option (string * dict Qc) :=
  item ← dr_item r; elems ← dget item (contents t); Some (item, elems).

Section calculate.

(** The tables of [tools], the markers of the command line and the time
    stamp of the run. *)
Variable t : tables.
Variable grouped : list string.
Variable now : string.

(** One pass of the inner loop: an element of the item demanded. *)
Definition add_elem (item : string) (qty : Z) (st : state)
    (entry : string * Qc) : result state :=
  let '(temp, memo) := st in
  let '(elem, pcs) := entry in
  p ← or_key_error (dget elem (preforms t));
  let '(a, b, sheet) := (pa p, pb p, psheet p) in
  computed ← get_pps a b sheet (feedstock t);
  let pps := from_option m_pps computed (dget elem memo) in
  let dem := Qc_of_Z qty * pcs in
  sheets ← truediv dem pps;
  let mode := if has_marker item grouped then "grouped" else "single" in
  let sheetdict := default [] (dget sheet temp) in
  let modedict := default [] (dget mode sheetdict) in
  let temp' :=
    dset sheet (dset mode (counter_update modedict [(elem, sheets)]) sheetdict)
      temp in
  let demand := from_option m_demand 0 (dget elem memo) + dem in
  let items := from_option m_items [] (dget elem memo) ++ [item] in
  Ok (temp', dset elem {| m_pps := pps; m_demand := demand; m_items := items |}
               memo).

(** The body of the first loop on one row of the demand: the state
    afterwards and the value its date cell ends with. *)
Definition demand_step (st : state) (r : demand_row) : result (state * value) :=
  if truthy (dr_date r) then Ok (st, dr_date r)
  else
    match known_item t r with
    | None => Ok (st, VStr "KeyError")
    | Some (item, elems) =>
        match dr_qty r with
        | VInt qty =>
            if decide (qty ≤ 0)%Z then Ok (st, VStr "ValueError")
            else st' ← foldM (add_elem item qty) st elems; Ok (st', VStr now)
        | _ => Ok (st, VStr "TypeError")
        end
    end.

(** The first loop: the state it ends in and the date column it leaves. *)
Fixpoint aggregate_from (st : state) (rows : list demand_row)
  : result (state * list value) :=
  match rows with
  | [] => Ok (st, [])
  | r :: rows' =>
      '(st', date) ← demand_step st r;
      '(st'', dates) ← aggregate_from st' rows';
      Ok (st'', date :: dates)
  end.

Definition aggregate (rows : list demand_row) : result (state * list value) :=
  aggregate_from ([], []) rows.

(** The records of one bucket: the bucket is transformed by the function
    of its mode, and the records are read off the transformed bucket. *)
Definition report_bucket (memo : dict memo_entry) (sheet mode : string)
    (modedict : dict Qc) : result (list report_row) :=
  f ← or_key_error (dget mode transformer);
  flat_mapM (λ '(elem, sheets_n),
    m ← or_key_error (dget elem memo);
    Ok [ {| r_date := now; r_sheet := sheet; r_mode := mode; r_elem := elem;
            r_items := join " " (m_items m);
            r_demand := m_demand m;
            r_recomm := trunc (sheets_n * m_pps m);
            r_sheets_n := round1 sheets_n |} ]) (f modedict).

(** The second loop, over the sorted buckets. *)
Definition report_of (temp : buckets) (memo : dict memo_entry)
  : result (list report_row) :=
  flat_mapM (λ '(sheet, sheetdict),
    flat_mapM (λ '(mode, modedict), report_bucket memo sheet mode modedict)
      sheetdict) (sort_nested_dict temp).

(** [calculate_sheets_number]: the report and the date column of the
    demand tab. *)
Definition calculate_sheets_number (rows : list demand_row)
  : result (list report_row * list value) :=
  '(st, dates) ← aggregate rows;
  report ← report_of st.1 st.2;
  Ok (report, dates).

End calculate.

(** ** calcumet.py: call_item *)

(** A record of the table of parameters: the number of the item in the
    call, the item, one of its elements with its count, the preform of
    the element and its pps. *)
Record params_row := {
  cp_N : nat;
  cp_item : string;
  cp_elem : string;
  cp_pcs : Qc;
  cp_a : Qc;
  cp_b : Qc;
  cp_sheet : string;
  cp_pps : Qc
}.

(** A record of the table of the items an item is a part of: the label
    [N.n], the item, one of its elements and the count. *)
Record subitems_row := {
  cs_label : string;
  cs_item : string;
  cs_elem : string;
  cs_pcs : Qc
}.

#[global] Instance params_row_eq_dec : EqDecision params_row.
Proof. solve_decision. Defined.

#[global] Instance subitems_row_eq_dec : EqDecision subitems_row.
Proof. solve_decision. Defined.

Section call.

(** The tables of [tools], with [t.subitems]. *)
Variable t : tables.
Variable subitems : dict (list string).

(** The body of the loop over the elements of an item: the pps is taken
    from the memo, where [setdefault] puts the one it is given for an
    element that is not there; the one it is given is computed first. *)
Definition call_params (N : nat) (item : string)
    (st : list params_row * dict Qc) (entry : string * Qc)
  : result (list params_row * dict Qc) :=
  let '(params_report, memo) := st in
  let '(elem, pcs) := entry in
  p ← or_key_error (dget elem (preforms t));
  computed ← get_pps (pa p) (pb p) (psheet p) (feedstock t);
  let '(pps, memo') :=
    match dget elem memo with
    | Some pps => (pps, memo)
    | None => (computed, dset elem computed memo)
    end in
  Ok (params_report
        ++ [ {| cp_N := N; cp_item := item; cp_elem := elem; cp_pcs := pcs;
                cp_a := pa p; cp_b := pb p; cp_sheet := psheet p;
                cp_pps := pps |} ],
      memo').

(** The loop over the items that [item] is a part of, from the subcounter
    [n] on: the element that is [item] itself is pointed at. *)
Fixpoint call_subitems (N n : nat) (item : string) (items_ : list string)
  : result (list subitems_row) :=
  match items_ with
  | [] => Ok []
  | item_ :: rest =>
      elems ← or_key_error (dget item_ (contents t));
      let rows :=
        (λ '(elem_, pcs_),
           {| cs_label := (if decide (elem_ = item) then ">" else " ")
                          +:+ pretty N +:+ "." +:+ pretty n;
              cs_item := item_; cs_elem := elem_; cs_pcs := pcs_ |})
          <$> (elems : dict Qc) in
      more ← call_subitems N (S n) item rest;
      Ok (rows ++ more)
  end.

(** The loop over the items of the call, from the counter [N] on. *)
Fixpoint call_items (N : nat) (memo : dict Qc) (items : list string)
  : result (list params_row * list subitems_row) :=
  match items with
  | [] => Ok ([], [])
  | item :: rest =>
      elems ← or_key_error (dget item (contents t));
      '(params, memo') ← foldM (call_params N item) ([], memo) elems;
      subs ← match dget item subitems with
             | Some items_ => call_subitems N 1 item items_
             | None => Ok []
             end;
      '(params', subs') ← call_items (S N) memo' rest;
      Ok (params ++ params', subs ++ subs')
  end.

(** [call_item]: the two tables it prints and saves, [None] when it
    prints that the call did not match any items. *)
Definition call_item (tester : list string)
  : result (option (list params_row * list subitems_row)) :=
  let items := filter (λ item, has_marker item tester = true)
                 (keys (contents t)) in
  match items with
  | [] => Ok None
  | _ => Some <$> call_items 1 [] items
  end.

End call.

(** ** Notions the properties are stated with *)

(** A bill of materials with no empty item and positive integer piece
    counts only. *)
Definition bom_ok (temp : dict (dict Qc)) : Prop :=
  Forall (λ item, item.2 ≠ []
                  ∧ Forall (λ elem, is_integer elem.2 ∧ 0 < elem.2) item.2) temp.

(** [temp[sheet][mode][elem]], when all three keys are there. *)
Definition bucket (temp : buckets) (sheet mode elem : string) : option Qc :=
  sheetdict ← dget sheet temp;
  modedict ← dget mode (sheetdict : dict (dict Qc));
  dget elem (modedict : dict Qc).

(** [memo[elem]['items']], empty for an element the run did not meet. *)
Definition memo_items (memo : dict memo_entry) (elem : string) : list string :=
  from_option m_items [] (dget elem memo).

(** What a bucket entry holds after a counter took these counts in turn. *)
Definition add_all (held : option Qc) (counts : list Qc) : option Qc :=
  fold_left (λ held count, Some (count + default 0 held)) counts held.

(** A pass of the inner loop of [calculate_sheets_number]. *)
Record pass := {
  ps_item : string;
  ps_qty : Z;
  ps_elem : string;
  ps_pcs : Qc
}.

Section demand.

Variable t : tables.
Variable grouped : list string.

(** The demand a row hands to the inner loop: nothing for a row that is
    dated already or fails one of the three checks. *)
Definition demand_entry (r : demand_row) : option (string * Z * dict Qc) :=
  if truthy (dr_date r) then None
  else
    match known_item t r with
    | None => None
    | Some (item, elems) =>
        match dr_qty r with
        | VInt qty => if decide (qty ≤ 0)%Z then None else Some (item, qty, elems)
        | _ => None
        end
    end.

(** The passes of the inner loop a demand gives rise to, in the order the
    loops make them. *)
Definition passes (rows : list demand_row) : list pass :=
  rows ≫= λ r,
    match demand_entry r with
    | Some (item, qty, elems) =>
        (λ entry, {| ps_item := item; ps_qty := qty;
                     ps_elem := entry.1; ps_pcs := entry.2 |}) <$> elems
    | None => []
    end.

(** The bucket a pass adds to, as sheet and mode, and the sheets it adds
    there; it raises what the pass raises. *)
Definition pass_sheets (p : pass) : result (string * string * Qc) :=
  pf ← or_key_error (dget (ps_elem p) (preforms t));
  pps ← get_pps (pa pf) (pb pf) (psheet pf) (feedstock t);
  sheets ← truediv (Qc_of_Z (ps_qty p) * ps_pcs p) pps;
  Ok (psheet pf,
      if has_marker (ps_item p) grouped then "grouped"%string
      else "single"%string,
      sheets).

(** The sheets a pass adds to the bucket of [sheet], [mode] and [elem], if
    that is its bucket. *)
Definition pass_adds (sheet mode elem : string) (p : pass) : option Qc :=
  match pass_sheets p with
  | Ok (sheet', mode', sheets) =>
      if decide (sheet' = sheet ∧ mode' = mode ∧ ps_elem p = elem)
      then Some sheets else None
  | Raise _ => None
  end.

(** A pass as the inner loop of [calculate_sheets_number] makes it. *)
Definition add_pass (st : state) (p : pass) : result state :=
  add_elem t grouped (ps_item p) (ps_qty p) st
    (ps_elem p, ps_pcs p).

(** The memo holds for an element the pps that [get_pps] computes for it. *)
Definition memo_ok (memo : dict memo_entry) : Prop :=
  ∀ elem m, dget elem memo = Some m →
    ∃ pf, dget elem (preforms t) = Some pf
          ∧ get_pps (pa pf) (pb pf) (psheet pf) (feedstock t) = Ok (m_pps m).

(** The three ways the specification calls a demand entry invalid. *)
Definition unknown_item (r : demand_row) : Prop :=
  ∀ item, dr_item r = Some item → dget item (contents t) = None.
Definition non_integer_quantity (r : demand_row) : Prop :=
  ∀ n, dr_qty r ≠ VInt n.
Definition non_positive_quantity (r : demand_row) : Prop :=
  ∃ n, dr_qty r = VInt n ∧ (n ≤ 0)%Z.

End demand.

(** A row of the demand tab that has not been processed. *)
Definition entry (item : string) (qty : Z) : demand_row :=
  {| dr_date := VNone; dr_item := Some item; dr_qty := VInt qty |}.

(** Sheet, mode and element of a record of the report. *)
Definition row_key (r : report_row) : string * string * string :=
  (r_sheet r, r_mode r, r_elem r).

(** Ascending by sheet, then by mode. *)
Definition key_le (k1 k2 : string * string * string) : Prop :=
  String.le k1.1.1 k2.1.1 ∧ (k1.1.1 = k2.1.1 → String.le k1.1.2 k2.1.2).

(** Ascending by sheet, then by mode, then by element. *)
Definition key_le_elem (k1 k2 : string * string * string) : Prop :=
  String.le k1.1.1 k2.1.1
  ∧ (k1.1.1 = k2.1.1 →
     String.le k1.1.2 k2.1.2 ∧ (k1.1.2 = k2.1.2 → String.le k1.2 k2.2)).

Definition row_le (r1 r2 : report_row) : Prop :=
  key_le (row_key r1) (row_key r2).

Definition row_le_elem (r1 r2 : report_row) : Prop :=
  key_le_elem (row_key r1) (row_key r2).

#[global] Instance key_le_elem_dec : RelDecision key_le_elem.
Proof. intros k1 k2. unfold key_le_elem. apply _. Defined.

#[global] Instance row_le_elem_dec : RelDecision row_le_elem.
Proof. intros r1 r2. unfold row_le_elem. apply _. Defined.

(** The buckets in the order the second loop of [calculate_sheets_number]
    takes them. *)
Definition sorted_buckets (temp : buckets) : list (string * string * dict Qc) :=
  (sort_nested_dict temp : list _) ≫= λ sheet,
    (λ mode, (sheet.1, mode.1, mode.2)) <$> sheet.2.

(** The elements of a bucket in the order its records are written: the
    order of the bucket for the mode "single", the order of the ceiling
    deltas for "grouped". *)
Definition bucket_elems (mode : string) (modedict : dict Qc) : list string :=
  match dget mode transformer with
  | Some f => keys (f modedict)
  | None => []
  end.

(** Sheet, mode and element of the records of the report, in the order the
    second loop of [calculate_sheets_number] writes them. *)
Definition report_keys (temp : buckets) : list (string * string * string) :=
  sorted_buckets temp ≫= λ b,
    (λ elem, (b.1.1, b.1.2, elem)) <$> bucket_elems b.1.2 b.2.

(** A preform of [a] by [b] goes on the sheet in one of the two
    orientations at least. *)
Definition fits (a b : Qc) (s : sheet_spec) : Prop :=
  (a ≤ fL s ∧ b ≤ fW s) ∨ (b ≤ fL s ∧ a ≤ fW s).

(** The [contents] tab after a run of [update_contents]: every row with
    the date cell the run left. *)
Definition contents_dated (ws : list contents_row) (dates : list value)
  : list contents_row :=
  zip_with (λ r date, {| cr_date := date; cr_item := cr_item r;
                         cr_elem := cr_elem r; cr_pcs := cr_pcs r |}) ws dates.

(** A row of the [contents] tab that has not been processed. *)
Definition contents_entry (item elem : string) (pcs : Z) : contents_row :=
  {| cr_date := VNone; cr_item := Some item; cr_elem := Some elem;
     cr_pcs := VInt pcs |}.

(** A cell that holds a number above 0. *)
Definition positive_number (v : value) : Prop :=
  ∃ q, number_of v = Some q ∧ 0 < q.

(** The row is one that [update_preforms] stores: not dated, no cell
    empty, every cell of the shape a number above 0. *)
Definition preforms_row_valid (r : preforms_row) : Prop :=
  truthy (pr_date r) = false ∧ is_Some (pr_elem r) ∧ pr_sheet r ≠ VNone
  ∧ Forall positive_number (pr_shape r).

(** The row is one that [update_feedstock] stores. *)
Definition feedstock_row_valid (r : feedstock_row) : Prop :=
  truthy (fr_date r) = false ∧ is_Some (fr_sheet r)
  ∧ Forall positive_number (fr_params r).

(** A table of preforms whose records give two positive numbers as [a]
    and [b], and a sheet. *)
Definition preforms_ok (temp : dict (dict value)) : Prop :=
  Forall (λ record, ∃ a b sheet,
    record.2 = [("a"%string, a); ("b"%string, b); ("sheet"%string, sheet)]
    ∧ positive_number a ∧ positive_number b ∧ sheet ≠ VNone) temp.

(** A table of feedstock that holds positive numbers only. *)
Definition feedstock_ok (temp : dict (dict value)) : Prop :=
  Forall (λ record, Forall (λ param, positive_number param.2) record.2) temp.

(** The [demand] tab after a run of [calculate_sheets_number]: every row
    with the date cell the run left. *)
Definition demand_dated (rows : list demand_row) (dates : list value)
  : list demand_row :=
  zip_with (λ r date, {| dr_date := date; dr_item := dr_item r;
                         dr_qty := dr_qty r |}) rows dates.

(** The pieces of its element a pass asks for: [dem]. *)
Definition pass_demand (p : pass) : Qc := Qc_of_Z (ps_qty p) * ps_pcs p.


(** [memo[elem]['demand']], 0 for an element the run did not meet. *)
Definition memo_demand (memo : dict memo_entry) (elem : string) : Qc :=
  from_option m_demand 0 (dget elem memo).

(** The element has a preform with positive sides, whose sheet is in the
    feedstock and takes the preform in one orientation at least. *)
Definition elem_ok (t : tables) (elem : string) : Prop :=
  ∃ pf s,
    dget elem (preforms t) = Some pf
    ∧ dget (psheet pf) (feedstock t) = Some s
    ∧ 0 < pa pf ∧ 0 < pb pf ∧ 0 ≤ fL s ∧ 0 ≤ fW s
    ∧ fits (pa pf) (pb pf) s.

(** Tables that fit together: every element of every item of the bill of
    materials is one [elem_ok] holds for. *)
Definition tables_ok (t : tables) : Prop :=
  Forall (λ item, Forall (λ elem, elem_ok t elem.1) item.2) (contents t).

(** What the first loop of [calculate_sheets_number] keeps true of its
    buckets and its memo: no key twice at any of the three levels, no
    mode but the two of [transformer], and a memo entry for every element
    of a bucket. *)
Definition buckets_ok (temp : buckets) (memo : dict memo_entry) : Prop :=
  NoDup (keys temp)
  ∧ Forall (λ sheet : string * dict (dict Qc),
      NoDup (keys sheet.2)
      ∧ Forall (λ mode : string * dict Qc,
          (mode.1 = "grouped"%string ∨ mode.1 = "single"%string)
          ∧ NoDup (keys mode.2)
          ∧ Forall (λ elem, is_Some (dget elem memo)) (keys mode.2))
          sheet.2) temp.

(** The items of a call: the items of the bill of materials that have a
    marker of the tester, in the order of the bill of materials. *)
Definition called (t : tables) (tester : list string) : list string :=
  filter (λ item, has_marker item tester = true) (keys (contents t)).

(** Number, item, element and count of a record of the table of
    parameters. *)
Definition params_key (r : params_row) : nat * string * string * Qc :=
  (cp_N r, cp_item r, cp_elem r, cp_pcs r).

(** The record of the table of parameters gives the preform of its
    element and the pps that [get_pps] computes for it. *)
Definition params_row_ok (t : tables) (r : params_row) : Prop :=
  ∃ pf, dget (cp_elem r) (preforms t) = Some pf
        ∧ cp_a r = pa pf ∧ cp_b r = pb pf ∧ cp_sheet r = psheet pf
        ∧ get_pps (pa pf) (pb pf) (psheet pf) (feedstock t) = Ok (cp_pps r).

(** The memo of [call_item] holds for an element the pps that [get_pps]
    computes for it. *)
Definition call_memo_ok (t : tables) (memo : dict Qc) : Prop :=
  ∀ elem pps, dget elem memo = Some pps →
    ∃ pf, dget elem (preforms t) = Some pf
          ∧ get_pps (pa pf) (pb pf) (psheet pf) (feedstock t) = Ok pps.


(** ** Sample data *)

(** The rational [n / d]. *)
Definition frac (n : Z) (d : positive) : Qc := Q2Qc (n # d).


(** A bucket whose loop stops at its first element: 0.5 takes the 0.2 of
    spread there is. *)
Definition bucket_short_spread : dict Qc :=
  [("x"%string, frac 1 2); ("y"%string, frac 3 10)].

(** A bucket whose spread is used up by its first element. *)
Definition bucket_zero_exit : dict Qc :=
  [("x"%string, frac 1 2); ("y"%string, frac 1 2); ("z"%string, frac 1 2)].


(** The feedstock and preforms of the specification's scenario: a sheet of
    1000 by 2000 and preforms of 100 by 50, four hundred to the sheet. *)
Definition sample_feedstock : dict sheet_spec :=
  [("S"%string, {| fd := 1; fW := frac 1000 1; fL := frac 2000 1; frho := 1 |})].

Definition sample_preforms : dict preform :=
  [("x"%string, {| pa := frac 100 1; pb := frac 50 1; psheet := "S" |});
   ("y"%string, {| pa := frac 100 1; pb := frac 50 1; psheet := "S" |})].

(** A bill of materials over these preforms. *)
Definition sample_contents : dict (dict Qc) :=
  [("Gadget"%string, [("x"%string, frac 1 1); ("y"%string, frac 3 1)]);
   ("Widget"%string, [("x"%string, frac 2 1)])].

Definition sample_tables : tables :=
  {| contents := sample_contents; preforms := sample_preforms;
     feedstock := sample_feedstock |}.

(** A demand whose second entry asks for an item that is not known. *)
Definition sample_demand : list demand_row :=
  [entry "Widget" 5; entry "Unknown" 3].

(** A demand of half a sheet of one element. *)
Definition half_sheet_demand : list demand_row := [entry "Widget" 100].

(** Two items whose elements meet in a bucket against the order of their
    names. *)
Definition unordered_contents : dict (dict Qc) :=
  [("A"%string, [("y"%string, frac 1 1)]);
   ("B"%string, [("x"%string, frac 1 1)])].

Definition unordered_tables : tables :=
  {| contents := unordered_contents; preforms := sample_preforms;
     feedstock := sample_feedstock |}.

Definition unordered_demand : list demand_row :=
  [entry "A" 400; entry "B" 400].

(** A worksheet of the contents tab that deletes the one element of
    "Widget" and an element "Gadget" does not have. *)
Definition sample_deletions : list contents_row :=
  [ {| cr_date := VNone; cr_item := Some "Widget"%string;
       cr_elem := Some "x"%string; cr_pcs := VInt 0 |};
    {| cr_date := VNone; cr_item := Some "Gadget"%string;
       cr_elem := Some "z"%string; cr_pcs := VInt 0 |} ].

(** The record the demand of half a sheet is reported with. *)
Definition half_sheet_row : report_row :=
  {| r_date := "now"; r_sheet := "S"; r_mode := "single"; r_elem := "x";
     r_items := "Widget"; r_demand := frac 200 1; r_recomm := 400;
     r_sheets_n := frac 1 1 |}.

(** The report of [unordered_demand]: "y" entered the bucket first. *)
Definition unordered_report : list report_row :=
  [ {| r_date := "now"; r_sheet := "S"; r_mode := "single"; r_elem := "y";
       r_items := "A"; r_demand := frac 400 1; r_recomm := 400;
       r_sheets_n := frac 1 1 |};
    {| r_date := "now"; r_sheet := "S"; r_mode := "single"; r_elem := "x";
       r_items := "B"; r_demand := frac 400 1; r_recomm := 400;
       r_sheets_n := frac 1 1 |} ].

(** A demand of two known items, and what it is aggregated to. *)
Definition two_item_demand : list demand_row :=
  [entry "Widget" 5; entry "Gadget" 100].


(** The scenario of the specification: item "A" of two "x", a thousand of
    it demanded. *)
Definition scenario_contents : dict (dict Qc) :=
  [("A"%string, [("x"%string, frac 2 1)])].

Definition scenario_tables : tables :=
  {| contents := scenario_contents; preforms := sample_preforms;
     feedstock := sample_feedstock |}.

Definition scenario_row : report_row :=
  {| r_date := "now"; r_sheet := "S"; r_mode := "single"; r_elem := "x";
     r_items := "A"; r_demand := frac 2000 1; r_recomm := 2000;
     r_sheets_n := frac 5 1 |}.

(** Two rows of the preforms tab: a preform of 100 by 50.5 and one with a
    side of 0. *)
Definition sample_preforms_rows : list preforms_row :=
  [ {| pr_date := VNone; pr_elem := Some "x"%string;
       pr_shape := [VInt 100; VFloat (frac 101 2)]; pr_sheet := VStr "S" |};
    {| pr_date := VNone; pr_elem := Some "y"%string;
       pr_shape := [VInt 100; VInt 0]; pr_sheet := VStr "S" |} ].

(** Two rows of the feedstock tab: a sheet of 1000 by 2000 and one whose
    width is a truth value. *)
Definition sample_feedstock_rows : list feedstock_row :=
  [ {| fr_date := VNone; fr_sheet := Some "S"%string;
       fr_params := [VInt 1; VInt 1000; VInt 2000; VFloat (frac 785 100)] |};
    {| fr_date := VNone; fr_sheet := Some "T"%string;
       fr_params := [VInt 1; VBool true; VInt 2000; VFloat (frac 785 100)] |} ].

(** The report of [sample_demand]. *)
Definition sample_report : list report_row :=
  [ {| r_date := "now"; r_sheet := "S"; r_mode := "single"; r_elem := "x";
       r_items := "Widget"; r_demand := frac 10 1; r_recomm := 400;
       r_sheets_n := frac 1 1 |} ].

(** The markers of a run that groups the item "Gadget". *)
Definition gadget_markers : list string := ["gadget"%string].

(** The record of the element "x" in the grouped bucket of that run:
    "Gadget" asks for 100 pieces there, "Widget" for 10 more in the
    bucket of the mode "single". *)
Definition grouped_x_row : report_row :=
  {| r_date := "now"; r_sheet := "S"; r_mode := "grouped"; r_elem := "x";
     r_items := "Widget Gadget"; r_demand := frac 110 1; r_recomm := 100;
     r_sheets_n := frac 1 5 |}.

(** The report of [two_item_demand] in that run. *)
Definition grouped_report : list report_row :=
  [ {| r_date := "now"; r_sheet := "S"; r_mode := "grouped"; r_elem := "y";
       r_items := "Gadget"; r_demand := frac 300 1; r_recomm := 300;
       r_sheets_n := frac 4 5 |};
    grouped_x_row;
    {| r_date := "now"; r_sheet := "S"; r_mode := "single"; r_elem := "x";
       r_items := "Widget Gadget"; r_demand := frac 110 1; r_recomm := 400;
       r_sheets_n := frac 1 1 |} ].

(** Tables for a call: the item "Widget" is a preform of its own, and a
    part of the item "Kit". *)
Definition call_contents : dict (dict Qc) :=
  [("Kit"%string, [("Widget"%string, frac 2 1); ("x"%string, frac 1 1)]);
   ("Widget"%string, [("Widget"%string, frac 1 1)])].

Definition call_tables : tables :=
  {| contents := call_contents;
     preforms := ("Widget"%string,
                  {| pa := frac 200 1; pb := frac 100 1; psheet := "S" |})
                 :: sample_preforms;
     feedstock := sample_feedstock |}.

(** The two tables of the call of the marker "i", which is found in both
    items. *)
Definition call_params_table : list params_row :=
  [ {| cp_N := 1; cp_item := "Kit"; cp_elem := "Widget"; cp_pcs := frac 2 1;
       cp_a := frac 200 1; cp_b := frac 100 1; cp_sheet := "S";
       cp_pps := frac 100 1 |};
    {| cp_N := 1; cp_item := "Kit"; cp_elem := "x"; cp_pcs := frac 1 1;
       cp_a := frac 100 1; cp_b := frac 50 1; cp_sheet := "S";
       cp_pps := frac 400 1 |};
    {| cp_N := 2; cp_item := "Widget"; cp_elem := "Widget"; cp_pcs := frac 1 1;
       cp_a := frac 200 1; cp_b := frac 100 1; cp_sheet := "S";
       cp_pps := frac 100 1 |} ].

Definition call_pointed_row : subitems_row :=
  {| cs_label := ">2.1"; cs_item := "Kit"; cs_elem := "Widget";
     cs_pcs := frac 2 1 |}.

Definition call_subitems_table : list subitems_row :=
  [ call_pointed_row;
    {| cs_label := " 2.1"; cs_item := "Kit"; cs_elem := "x";
       cs_pcs := frac 1 1 |} ].

(** * Properties *)

(** ** Arithmetic on [Qc] *)

Lemma Qc_eq_iff (x y : Qc) : x = y ↔ (x == y)%Q.
Proof. split; [by intros -> | apply Qc_is_canon]. Qed.

(** Goals of linear arithmetic on [Qc] are sent to [Q]. *)
Ltac qc_lra :=
  rewrite ?Qc_eq_iff in *;
  unfold Qcle, Qclt, Qcminus, Qcplus, Qcopp, Qcmult, Q2Qc in *; simpl in *;
  rewrite ?Qred_correct in *;
  change (inject_Z 1) with 1%Q in *; change (inject_Z 0) with 0%Q in *;
  lra.

(** A closed decidable statement is settled by evaluation. *)
Ltac by_compute := apply (bool_decide_unpack _); vm_compute; exact I.

Lemma ceil_ge (x : Qc) : x ≤ Qc_of_Z (ceil x).
Proof. unfold Qcle, ceil. simpl. apply Qle_ceiling. Qed.

Lemma ceil_lt (x : Qc) : Qc_of_Z (ceil x) - 1 < x.
Proof.
  pose proof (Qceiling_lt x) as H. unfold ceil.
  unfold Z.sub in H. rewrite inject_Z_plus, inject_Z_opp in H.
  qc_lra.
Qed.

Lemma ceil_of_Z (n : Z) : ceil (Qc_of_Z n) = n.
Proof. unfold ceil. simpl. apply Qceiling_Z. Qed.


Lemma get_ceil_delta_nonneg (x : Qc) : 0 ≤ get_ceil_delta x.
Proof. unfold get_ceil_delta. pose proof (ceil_ge x). qc_lra. Qed.

Lemma get_ceil_delta_lt_1 (x : Qc) : get_ceil_delta x < 1.
Proof. unfold get_ceil_delta. pose proof (ceil_lt x). qc_lra. Qed.

Lemma is_integer_den (x : Qc) : is_integer x ↔ Qden x = 1%positive.
Proof.
  split.
  - by intros [n ->].
  - intros H. exists (Qnum x). apply Qc_is_canon. simpl.
    destruct x as [[n d] Hc]. simpl in *. by subst.
Qed.

#[global] Instance is_integer_dec (x : Qc) : Decision (is_integer x).
Proof.
  refine (cast_if (decide (Qden x = 1%positive))); by rewrite is_integer_den.
Defined.

Lemma is_integer_of_Z (n : Z) : is_integer (Qc_of_Z n).
Proof. by exists n. Qed.

(** ** Sums *)

Lemma pysum_from (l : list Qc) (a : Qc) : fold_left Qcplus l a = a + pysum l.
Proof.
  unfold pysum. revert a. induction l as [|x l IH]; intros a; simpl.
  - ring.
  - rewrite IH, (IH (0 + x)). ring.
Qed.

Lemma pysum_nil : pysum [] = 0.
Proof. done. Qed.

Lemma pysum_cons (x : Qc) (l : list Qc) : pysum (x :: l) = x + pysum l.
Proof. unfold pysum at 1. simpl. rewrite pysum_from. ring. Qed.

Lemma pysum_app (l1 l2 : list Qc) : pysum (l1 ++ l2) = pysum l1 + pysum l2.
Proof.
  induction l1 as [|x l1 IH]; simpl.
  - rewrite pysum_nil. ring.
  - rewrite !pysum_cons, IH. ring.
Qed.


(** ** Sorting *)

Section sorted_facts.
Context {A : Type} (le : A → A → bool).

Lemma insert_sorted_perm (x : A) (l : list A) : insert_sorted le x l ≡ₚ x :: l.
Proof.
  induction l as [|y l IH]; simpl; [done|].
  destruct (le x y); [done|]. by rewrite IH, Permutation_swap.
Qed.

Lemma sorted_perm (l : list A) : sorted le l ≡ₚ l.
Proof.
  induction l as [|x l IH]; simpl; [done|].
  by rewrite insert_sorted_perm, IH.
Qed.

Lemma sorted_length (l : list A) : length (sorted le l) = length l.
Proof. apply Permutation_length, sorted_perm. Qed.

Hypothesis le_total : ∀ x y, le x y = true ∨ le y x = true.
Hypothesis le_trans : ∀ x y z, le x y = true → le y z = true → le x z = true.

Lemma insert_sorted_ordered (x : A) (l : list A) :
  StronglySorted (λ a b, le a b = true) l →
  StronglySorted (λ a b, le a b = true) (insert_sorted le x l).
Proof.
  induction 1 as [|y l Hl IH Hy]; simpl.
  - by repeat constructor.
  - destruct (le x y) eqn:Hxy.
    + constructor; [by constructor|].
      constructor; [done|]. eapply Forall_impl; [exact Hy|].
      intros z Hz. by eapply le_trans.
    + constructor; [done|].
      rewrite insert_sorted_perm. constructor; [|done].
      destruct (le_total x y); congruence.
Qed.

Lemma sorted_ordered (l : list A) :
  StronglySorted (λ a b, le a b = true) (sorted le l).
Proof.
  induction l as [|x l IH]; simpl; [constructor|].
  by apply insert_sorted_ordered.
Qed.

End sorted_facts.

Lemma StronglySorted_mono {A} (R R' : relation A) (l : list A) :
  (∀ a b, R a b → R' a b) → StronglySorted R l → StronglySorted R' l.
Proof.
  intros HR. induction 1 as [|x l _ IH Hx]; constructor; [done|].
  eapply Forall_impl; [exact Hx|]. intros b. apply HR.
Qed.

Lemma sorted_items_perm {V} (d : dict V) : sorted_items d ≡ₚ d.
Proof. apply sorted_perm. Qed.

Lemma string_leb_trans (x y z : string) :
  String.leb x y = true → String.leb y z = true → String.leb x z = true.
Proof.
  intros H1 H2. apply Is_true_true.
  apply Is_true_true in H1, H2.
  change (String.le x z). by trans y.
Qed.

(** [sorted(d.items())] is in ascending order of the keys. *)
Lemma sorted_items_ordered {V} (d : dict V) :
  StronglySorted (λ a b, String.le a.1 b.1) (sorted_items d).
Proof.
  unfold sorted_items.
  eapply (StronglySorted_mono (λ a b, String.leb a.1 b.1 = true)).
  { intros a b H. by apply Is_true_true. }
  apply sorted_ordered.
  - intros x y. apply String.leb_total.
  - intros x y z. apply string_leb_trans.
Qed.

Lemma sorted_by_delta_perm (d : dict Qc) : sorted_by_delta d ≡ₚ d.
Proof. apply sorted_perm. Qed.

(** The dictionary [spread_delta] walks is in ascending order of the
    ceiling deltas. *)
Lemma sorted_by_delta_ordered (d : dict Qc) :
  StronglySorted (λ a b, get_ceil_delta a.2 ≤ get_ceil_delta b.2)
    (sorted_by_delta d).
Proof.
  unfold sorted_by_delta.
  eapply (StronglySorted_mono
    (λ a b, bool_decide (get_ceil_delta a.2 ≤ get_ceil_delta b.2) = true)).
  { intros a b H. by apply bool_decide_eq_true in H. }
  apply sorted_ordered.
  - intros x y. rewrite !bool_decide_eq_true.
    destruct (total Qcle (get_ceil_delta x.2) (get_ceil_delta y.2)); auto.
  - intros x y z. rewrite !bool_decide_eq_true. apply Qcle_trans.
Qed.

(** ** The rounding policies *)

Lemma values_cons {V} (k : string) (v : V) (d : dict V) :
  values ((k, v) :: d) = v :: values d.
Proof. done. Qed.

Lemma keys_cons {V} (k : string) (v : V) (d : dict V) :
  keys ((k, v) :: d) = k :: keys d.
Proof. done. Qed.

Lemma ceil_dict_values_cons (k : string) (v : Qc) (d : dict Qc) :
  ceil_dict_values ((k, v) :: d) = (k, Qc_of_Z (ceil v)) :: ceil_dict_values d.
Proof. done. Qed.

Lemma ceil_dict_values_keys (d : dict Qc) : keys (ceil_dict_values d) = keys d.
Proof.
  induction d as [|[k v] d IH]; [done|].
  by rewrite ceil_dict_values_cons, !keys_cons, IH.
Qed.

Lemma ceil_dict_values_get (k : string) (d : dict Qc) :
  dget k (ceil_dict_values d) = (λ v, Qc_of_Z (ceil v)) <$> dget k d.
Proof.
  induction d as [|[k' v] d IH]; [done|].
  rewrite ceil_dict_values_cons. simpl. by case_decide.
Qed.

Lemma ceil_dict_values_integer (d : dict Qc) :
  Forall is_integer (values (ceil_dict_values d)).
Proof.
  induction d as [|[k v] d IH]; [constructor|].
  rewrite ceil_dict_values_cons, values_cons.
  constructor; [apply is_integer_of_Z | done].
Qed.






Lemma spread_walk_keys (spread : Qc) (d : dict Qc) :
  keys (spread_walk spread d) = keys d.
Proof.
  revert spread. induction d as [|[k v] d IH]; intros spread; [done|].
  simpl. repeat case_decide; rewrite ?keys_cons; try done. by rewrite IH.
Qed.

(** Every entry leaves the loop between its value and the ceiling of it. *)
Lemma spread_walk_bounds (spread : Qc) (d : dict Qc) :
  0 ≤ spread →
  Forall2 (λ i o, i.1 = o.1 ∧ i.2 ≤ o.2 ∧ o.2 ≤ Qc_of_Z (ceil i.2))
    d (spread_walk spread d).
Proof.
  assert (Hid : ∀ l : dict Qc,
    Forall2 (λ i o, i.1 = o.1 ∧ i.2 ≤ o.2 ∧ o.2 ≤ Qc_of_Z (ceil i.2)) l l).
  { intros l. apply Forall_Forall2_diag, Forall_forall.
    intros [k v] _. simpl. pose proof (ceil_ge v). repeat split; [qc_lra|done]. }
  revert spread. induction d as [|[k v] d IH]; intros spread Hs; [constructor|].
  simpl. pose proof (ceil_ge v). unfold get_ceil_delta.
  repeat case_decide.
  - constructor; [|apply Hid]. simpl. repeat split; qc_lra.
  - constructor; [|apply Hid]. simpl. repeat split; [done|qc_lra].
  - constructor; [simpl; repeat split; [done|qc_lra]|].
    apply IH. qc_lra.
Qed.




Lemma spread_walk_zero_exit (s0 s : Qc) (pre post : dict Qc)
    (key : string) (val : Qc) :
  spread_through s0 pre = Some s →
  ¬ s < get_ceil_delta val →
  s - get_ceil_delta val = 0 →
  spread_walk s0 (pre ++ (key, val) :: post)
    = ceil_dict_values pre ++ (key, Qc_of_Z (ceil val)) :: post
  ∧ spread_visits s0 (pre ++ (key, val) :: post) = S (length pre).
Proof.
  intros Hpre Hge Hzero. revert s0 Hpre.
  induction pre as [|[k v] pre IH]; intros s0 Hpre.
  - simpl in Hpre. injection Hpre as ->. simpl.
    by repeat case_decide.
  - simpl in Hpre. repeat case_decide; try done.
    destruct (IH _ Hpre) as [IH1 IH2].
    rewrite <-app_comm_cons, ceil_dict_values_cons. simpl.
    repeat case_decide; try done. by rewrite IH1, IH2.
Qed.

Lemma dget_Some_elem_of {V} (k : string) (v : V) (d : dict V) :
  dget k d = Some v → (k, v) ∈ d.
Proof.
  induction d as [|[k' v'] d IH]; [done|]. simpl.
  case_decide; [intros [= ->]; subst; left | right; auto].
Qed.

Lemma dget_None_keys {V} (k : string) (d : dict V) :
  dget k d = None ↔ k ∉ keys d.
Proof.
  induction d as [|[k' v'] d IH]; simpl.
  - split; [intros _; apply not_elem_of_nil | done].
  - rewrite keys_cons, not_elem_of_cons. case_decide; subst.
    + split; [done | intros []; done].
    + rewrite IH. split; [intros ?; split; [congruence|done] | by intros [_ ?]].
Qed.

(** In a dictionary, whose keys differ, an entry is what a lookup finds. *)
Lemma dget_elem_of {V} (k : string) (v : V) (d : dict V) :
  NoDup (keys d) → (k, v) ∈ d → dget k d = Some v.
Proof.
  induction d as [|[k' v'] d IH]; [by intros _ ?%elem_of_nil|].
  rewrite keys_cons, NoDup_cons. intros [Hk Hd] [[= -> ->]|Hin]%elem_of_cons.
  - simpl. by rewrite decide_True.
  - simpl. case_decide; [|by apply IH]. subst.
    destruct Hk. unfold keys. apply list_elem_of_fmap. by exists (k, v).
Qed.

Lemma spread_delta_keys (d : dict Qc) :
  keys (spread_delta d) = keys (sorted_by_delta d).
Proof. apply spread_walk_keys. Qed.

(** ** Strings *)

Lemma prefix_spec (w s : string) :
  String.prefix w s = true ↔ ∃ after, s = w +:+ after.
Proof.
  revert s. induction w as [|c w IH]; intros s.
  - split; [intros _; by exists s | by destruct s].
  - destruct s as [|c' s]; simpl.
    + split; [done | by intros [? ?]].
    + destruct (Ascii.ascii_dec c c') as [->|Hne].
      * rewrite IH. split; intros [after H]; exists after.
        -- by rewrite H.
        -- change (String c' s = String c' (w +:+ after)) in H. congruence.
      * split; [done | intros [after H]].
        change (String c' s = String c (w +:+ after)) in H. congruence.
Qed.

(** [w in s] holds exactly when [w] occurs in [s]. *)
Lemma contains_spec (w s : string) :
  contains w s = true ↔ is_substring w s.
Proof.
  unfold is_substring. induction s as [|c s IH].
  - cbn [contains]. rewrite orb_false_r, prefix_spec. split.
    + intros [after H]. by exists EmptyString, after.
    + intros [before [after H]]. destruct before; [by exists after | done].
  - cbn [contains]. rewrite orb_true_iff, IH, prefix_spec. split.
    + intros [[after H]|[before [after H]]].
      * by exists EmptyString, after.
      * exists (String c before), after. simpl. by rewrite H.
    + intros [[|c' before] [after H]].
      * left. by exists after.
      * right. injection H as -> H. by exists before, after.
Qed.

(** ** Claims on tools.py *)



(** C3, as the specification states it, fails: [spread_delta] maps positive
    fractional values to values that are not all integers.  On 0.5 and 0.3
    it returns 0.7 and 0.3. *)
Lemma spread_delta_not_integer :
  Forall (λ v, 0 < v) (values bucket_short_spread)
  ∧ spread_delta bucket_short_spread
    = [("x"%string, frac 7 10); ("y"%string, frac 3 10)]
  ∧ ¬ Forall is_integer (values (spread_delta bucket_short_spread)).
Proof. repeat split; by_compute. Qed.

(** C3, amended.  Both policies are total and keep the elements.  Every
    value of [ceil_dict_values] is an integer, the ceiling of the input.
    A value of [spread_delta] lies between the input value of its element
    and the ceiling of that value. *)
Theorem rounding_policies_values (m : dict Qc) :
  (keys (ceil_dict_values m) = keys m
   ∧ Forall is_integer (values (ceil_dict_values m))
   ∧ ∀ k, dget k (ceil_dict_values m) = (λ v, Qc_of_Z (ceil v)) <$> dget k m)
  ∧ (keys (spread_delta m) ≡ₚ keys m
     ∧ Forall2 (λ i o, i.1 = o.1 ∧ i.2 ≤ o.2 ∧ o.2 ≤ Qc_of_Z (ceil i.2))
         (sorted_by_delta m) (spread_delta m)).
Proof.
  split; [split; [|split]|split].
  - apply ceil_dict_values_keys.
  - apply ceil_dict_values_integer.
  - intros k. apply ceil_dict_values_get.
  - rewrite spread_delta_keys. unfold keys.
    apply fmap_Permutation, sorted_by_delta_perm.
  - apply spread_walk_bounds, get_ceil_delta_nonneg.
Qed.

(** C4.  When the running spread reaches exactly 0 after an element is
    rounded up, the loop stops there: the elements before it are rounded
    up, and every element after it keeps the value it came with. *)
Theorem spread_delta_zero_exit (d pre post : dict Qc) (key : string)
    (val s : Qc) :
  sorted_by_delta d = pre ++ (key, val) :: post →
  spread_through (get_ceil_delta (pysum (values (sorted_by_delta d)))) pre
    = Some s →
  ¬ s < get_ceil_delta val →
  s - get_ceil_delta val = 0 →
  spread_delta d = ceil_dict_values pre ++ (key, Qc_of_Z (ceil val)) :: post
  ∧ spread_delta_visits d = S (length pre)
  ∧ (NoDup (keys d) → ∀ k v, (k, v) ∈ post →
       dget k d = Some v ∧ dget k (spread_delta d) = Some v).
Proof.
  intros Hd Hpre Hge Hzero.
  destruct (spread_walk_zero_exit _ _ _ post key val Hpre Hge Hzero)
    as [Hwalk Hvisits].
  unfold spread_delta, spread_delta_visits. rewrite Hd in *.
  split; [done|]. split; [done|].
  intros Hnodup k v Hin. split.
  - apply dget_elem_of; [done|].
    rewrite <-(sorted_by_delta_perm d), Hd.
    apply elem_of_app. right. by right.
  - apply dget_elem_of.
    + rewrite Hwalk.
      assert (keys (ceil_dict_values pre ++ (key, Qc_of_Z (ceil val)) :: post)
              = keys (pre ++ (key, val) :: post)) as ->.
      { unfold keys. rewrite !fmap_app, !fmap_cons.
        fold (keys (ceil_dict_values pre)). by rewrite ceil_dict_values_keys. }
      rewrite <-Hd. unfold keys.
      by rewrite (fmap_Permutation _ _ _ (sorted_by_delta_perm d)).
    + rewrite Hwalk. apply elem_of_app. right. by right.
Qed.

Lemma spread_delta_zero_exit_witness :
  spread_delta bucket_zero_exit
  = [("x"%string, Qc_of_Z 1); ("y"%string, frac 1 2); ("z"%string, frac 1 2)]
  ∧ spread_delta_visits bucket_zero_exit = 1%nat.
Proof.
  destruct (spread_delta_zero_exit bucket_zero_exit []
              [("y"%string, frac 1 2); ("z"%string, frac 1 2)]
              "x" (frac 1 2) (frac 1 2)) as (Hout & Hvisits & _).
  - by_compute.
  - by_compute.
  - by_compute.
  - by_compute.
  - rewrite Hout, Hvisits. split; [by_compute|done].
Defined.

Lemma pymax_of_Z (n m : Z) :
  pymax (Qc_of_Z n) (Qc_of_Z m) = Qc_of_Z (Z.max n m).
Proof.
  unfold pymax. case_decide as H.
  - apply Z2Qc_inj_lt in H. by rewrite Z.max_r by lia.
  - rewrite <-Z2Qc_inj_lt in H. by rewrite Z.max_l by lia.
Qed.

Lemma floordiv_r_nonzero (x y : Qc) :
  y ≠ 0 → floordiv_r x y = Ok (Qc_of_Z (Qfloor (x / y))).
Proof. intros H. unfold floordiv_r, floordiv. by rewrite decide_False. Qed.

(** C5.  For positive dimensions [get_pps] is the better of the two grid
    packings, [max(floor(L/a)*floor(W/b), floor(L/b)*floor(W/a))]; a
    preform of 100 by 50 goes 400 times into a sheet of 1000 by 2000. *)
Theorem get_pps_best_packing (a b : Qc) (sheet : string)
    (feedstock : dict sheet_spec) (s : sheet_spec) :
  0 < a → 0 < b →
  dget sheet feedstock = Some s → 0 < fW s → 0 < fL s →
  get_pps a b sheet feedstock
  = Ok (Qc_of_Z (Z.max (Qfloor (fL s / a) * Qfloor (fW s / b))
                       (Qfloor (fL s / b) * Qfloor (fW s / a))))
  ∧ get_pps (frac 100 1) (frac 50 1) "S" sample_feedstock = Ok (Qc_of_Z 400).
Proof.
  intros Ha Hb Hs _ _. split; [|by_compute].
  assert (a ≠ 0) by (intros ->; by apply (Qclt_not_eq 0 0)).
  assert (b ≠ 0) by (intros ->; by apply (Qclt_not_eq 0 0)).
  unfold get_pps. rewrite Hs. simpl.
  rewrite !floordiv_r_nonzero by done. simpl.
  by rewrite <-!Z2Qc_inj_mul, pymax_of_Z.
Qed.

Lemma get_pps_best_packing_witness :
  get_pps (frac 100 1) (frac 50 1) "S" sample_feedstock
  = Ok (Qc_of_Z (Z.max (20 * 20) (40 * 10))).
Proof.
  destruct (get_pps_best_packing (frac 100 1) (frac 50 1) "S" sample_feedstock
    {| fd := 1; fW := frac 1000 1; fL := frac 2000 1; frho := 1 |})
    as [H _]; [by_compute..|].
  rewrite H. by_compute.
Defined.

(** C7, as the specification states it, fails on its second example: the
    marker "Pro" is not all-lowercase, it is looked for in the name as it
    is written, and "WidgetPro" contains it. *)
Lemma has_marker_Pro_matches :
  ¬ (has_marker "WidgetPro" ["pro"%string] = true
     ∧ has_marker "WidgetPro" ["Pro"%string] = false).
Proof. by_compute. Qed.

(** C7, amended.  A marker for which [islower] holds is looked for in the
    lowercased name, any other marker in the name as it is written; the
    name matches when one of the markers occurs so.  "WidgetPro" matches
    both "pro" and "Pro", and does not match "PRO". *)
Theorem has_marker_rule (name : string) (markers : list string) :
  (has_marker name markers = true ↔
     ∃ marker, marker ∈ markers ∧
       if islower marker then is_substring marker (lower name)
       else is_substring marker name)
  ∧ has_marker "WidgetPro" ["pro"%string] = true
  ∧ has_marker "WidgetPro" ["Pro"%string] = true
  ∧ has_marker "WidgetPro" ["PRO"%string] = false.
Proof.
  split; [|by repeat split].
  unfold has_marker. rewrite existsb_exists.
  split; intros (marker & Hin & H); exists marker.
  - split; [by apply list_elem_of_In|].
    apply contains_spec in H. by destruct (islower marker).
  - split; [by apply list_elem_of_In|].
    apply contains_spec. by destruct (islower marker).
Qed.

(** ** Dictionaries *)

Section dict_facts.
Context {V : Type}.
Implicit Types (d : dict V) (k : string) (v : V).

Lemma dget_dset_eq k v d : dget k (dset k v d) = Some v.
Proof.
  induction d as [|[k' v'] d IH]; simpl.
  - by rewrite decide_True.
  - case_decide; simpl; [by rewrite decide_True | by rewrite decide_False].
Qed.

Lemma dget_dset_ne k k' v d : k ≠ k' → dget k' (dset k v d) = dget k' d.
Proof.
  intros Hne. induction d as [|[k'' v''] d IH]; simpl.
  - by rewrite decide_False.
  - case_decide; simpl; [subst; by rewrite !decide_False|].
    by case_decide.
Qed.

Lemma dget_dset k k' v d :
  dget k' (dset k v d) = if decide (k = k') then Some v else dget k' d.
Proof.
  case_decide; [subst; apply dget_dset_eq | by apply dget_dset_ne].
Qed.

Lemma dget_ddel_eq k d : dget k (ddel k d) = None.
Proof.
  induction d as [|[k' v'] d IH]; [done|]. simpl.
  case_decide; [done|]. simpl. by rewrite decide_False.
Qed.

Lemma dget_ddel_ne k k' d : k ≠ k' → dget k' (ddel k d) = dget k' d.
Proof.
  intros Hne. induction d as [|[k'' v''] d IH]; [done|]. simpl.
  case_decide; simpl.
  - subst. by rewrite decide_False.
  - by case_decide.
Qed.

Lemma dset_not_nil k v d : dset k v d ≠ [].
Proof. destruct d as [|[k' v'] d]; simpl; [done|]. by case_decide. Qed.

Lemma Forall_dset (P : string * V → Prop) k v d :
  Forall P d → P (k, v) → Forall P (dset k v d).
Proof.
  intros Hd Hkv. induction Hd as [|[k' v'] d Hx Hd IH]; simpl.
  - by repeat constructor.
  - case_decide; by constructor.
Qed.

Lemma Forall_ddel (P : string * V → Prop) k d : Forall P d → Forall P (ddel k d).
Proof.
  induction 1 as [|[k' v'] d Hx Hd IH]; simpl; [done|].
  case_decide; [done | by constructor].
Qed.

Lemma Forall_dget (P : string * V → Prop) k v d :
  Forall P d → dget k d = Some v → P (k, v).
Proof.
  intros Hd Hk. apply dget_Some_elem_of in Hk.
  by eapply Forall_forall in Hd.
Qed.

Lemma keys_dset k v d :
  keys (dset k v d) = if decide (k ∈ keys d) then keys d else keys d ++ [k].
Proof.
  induction d as [|[k' v'] d IH]; simpl; [done|].
  destruct (decide (k' = k)) as [->|Hne].
  - rewrite !keys_cons, decide_True; [done | apply elem_of_cons; by left].
  - rewrite !keys_cons, IH. destruct (decide (k ∈ keys d)).
    + rewrite decide_True; [done | apply elem_of_cons; by right].
    + rewrite decide_False; [done|]. rewrite not_elem_of_cons. by split.
Qed.

Lemma NoDup_keys_dset k v d : NoDup (keys d) → NoDup (keys (dset k v d)).
Proof.
  intros Hd. rewrite keys_dset. case_decide; [done|].
  apply NoDup_app. split; [done|]. split; [|apply NoDup_singleton].
  intros x Hx ->%list_elem_of_singleton. done.
Qed.

End dict_facts.

(** ** update_contents *)

Lemma bom_ok_dget (temp : dict (dict Qc)) (item : string) (elems : dict Qc) :
  bom_ok temp → dget item temp = Some elems →
  elems ≠ [] ∧ Forall (λ elem, is_integer elem.2 ∧ 0 < elem.2) elems.
Proof. intros Hok Hget. apply (Forall_dget _ _ _ _ Hok Hget). Qed.

Lemma update_contents_row_ok (now : value) (temp : dict (dict Qc))
    (r : contents_row) :
  bom_ok temp → bom_ok (update_contents_row now temp r).1.
Proof.
  intros Hok. unfold update_contents_row.
  pose proof (bom_ok_dget temp) as Hget_ok. unfold bom_ok in *.
  destruct (truthy (cr_date r)); [done|].
  destruct (cr_item r) as [item|], (cr_elem r) as [elem|], (cr_pcs r) as [| |pcs| |];
    try done.
  destruct (decide (0 < pcs)%Z) as [Hpos|_]; [|destruct (decide (pcs = 0)%Z)].
  - simpl. apply Forall_dset; [done|]. simpl. split; [apply dset_not_nil|].
    apply Forall_dset.
    + destruct (dget item temp) as [elems|] eqn:Hget; [|constructor].
      by apply (Hget_ok item).
    + simpl. split; [apply is_integer_of_Z|].
      by rewrite <-Z2Qc_inj_0, <-Z2Qc_inj_lt.
  - destruct (dget item temp) as [elems|] eqn:Hget; [|done].
    destruct (dget elem elems); [|done].
    destruct (Hget_ok item elems Hok Hget) as [_ Helems].
    destruct (ddel elem elems) as [|kept elems'] eqn:Hdel; simpl.
    + by apply Forall_ddel.
    + apply Forall_dset; [done|]. simpl. split; [done|].
      rewrite <-Hdel. by apply Forall_ddel.
  - done.
Qed.

Lemma update_contents_ok (ws : list contents_row) (temp : dict (dict Qc))
    (now : value) :
  bom_ok temp → bom_ok (update_contents ws temp now).1.
Proof.
  revert temp. induction ws as [|r ws IH]; intros temp Hok; [done|].
  simpl. pose proof (update_contents_row_ok now temp r Hok) as Hrow.
  destruct (update_contents_row now temp r) as [temp' date].
  specialize (IH temp' Hrow).
  by destruct (update_contents ws temp' now).
Qed.

(** C10.  A row of quantity 0 deletes the element from the mapping of the
    item, and the item with it when nothing is left; it is flagged
    KeyError, and changes nothing, when the item or the element is not
    there.  Hence [update_contents] keeps a bill of materials free of
    empty items and of piece counts that are not positive integers. *)
Theorem update_contents_deletion :
  (∀ (now date : value) (temp : dict (dict Qc)) (item elem : string),
     truthy date = false →
     let r := {| cr_date := date; cr_item := Some item;
                 cr_elem := Some elem; cr_pcs := VInt 0 |} in
     match dget item temp ≫= dget elem with
     | None => update_contents_row now temp r = (temp, VStr "KeyError")
     | Some _ =>
         ∃ temp' elems,
           update_contents_row now temp r = (temp', now)
           ∧ dget item temp = Some elems
           ∧ dget elem (ddel elem elems) = None
           ∧ (∀ elem', elem ≠ elem' →
                dget elem' (ddel elem elems) = dget elem' elems)
           ∧ dget item temp'
             = (if decide (ddel elem elems = []) then None
                else Some (ddel elem elems))
           ∧ (∀ item', item ≠ item' → dget item' temp' = dget item' temp)
     end)
  ∧ (∀ (ws : list contents_row) (temp : dict (dict Qc)) (now : value),
       bom_ok temp → bom_ok (update_contents ws temp now).1).
Proof.
  split; [|apply update_contents_ok].
  intros now date temp item elem Hdate r.
  unfold update_contents_row. subst r. simpl. rewrite Hdate.
  destruct (dget item temp) as [elems|] eqn:Hitem; simpl; [|done].
  destruct (dget elem elems) eqn:Helem; [|done].
  destruct (ddel elem elems) as [|kept elems'] eqn:Hdel.
  - exists (ddel item temp), elems.
    repeat split; try done.
    + apply dget_ddel_eq.
    + intros elem' Hne. by apply dget_ddel_ne.
    + by rewrite Hdel, dget_ddel_eq, decide_True.
    + intros item' Hne. by apply dget_ddel_ne.
  - exists (dset item (kept :: elems') temp), elems.
    repeat split; try done.
    + apply dget_ddel_eq.
    + intros elem' Hne. by apply dget_ddel_ne.
    + by rewrite Hdel, dget_dset_eq, decide_False.
    + intros item' Hne. by apply dget_dset_ne.
Qed.

(** ** Loops that can raise *)

Lemma foldM_app {A S} (f : S → A → result S) (s : S) (l1 l2 : list A) :
  foldM f s (l1 ++ l2) = s' ← foldM f s l1; foldM f s' l2.
Proof.
  revert s. induction l1 as [|x l1 IH]; intros s; [done|].
  simpl. destruct (f s x) as [s'|e]; simpl; [apply IH | done].
Qed.

Lemma foldM_fmap {A B S} (f : S → B → result S) (g : A → B) (s : S)
    (l : list A) :
  foldM f s (g <$> l) = foldM (λ s x, f s (g x)) s l.
Proof.
  revert s. induction l as [|x l IH]; intros s; [done|].
  csimpl. destruct (f s (g x)) as [s'|e]; simpl; [apply IH | done].
Qed.

(** ** Counts added one after the other *)

Lemma add_all_sum (held : option Qc) (counts : list Qc) :
  add_all held counts
  = match counts with
    | [] => held
    | _ => Some (default 0 held + pysum counts)
    end.
Proof.
  unfold add_all. revert held.
  induction counts as [|v counts IH]; intros held; [done|].
  cbn [fold_left]. rewrite IH. destruct counts as [|v' counts].
  - f_equal. rewrite pysum_cons, pysum_nil. simpl. ring.
  - f_equal. rewrite !pysum_cons. simpl. ring.
Qed.


Lemma add_all_app (held : option Qc) (counts1 counts2 : list Qc) :
  add_all held (counts1 ++ counts2) = add_all (add_all held counts1) counts2.
Proof. apply fold_left_app. Qed.

(** ** The first loop of calculate_sheets_number *)

Section aggregate_facts.

Variable t : tables.
Variable grouped : list string.
Variable now : string.

Lemma passes_cons (r : demand_row) (rows : list demand_row) :
  passes t (r :: rows) = passes t [r] ++ passes t rows.
Proof. unfold passes. csimpl. by rewrite app_nil_r. Qed.

Lemma passes_app (rows1 rows2 : list demand_row) :
  passes t (rows1 ++ rows2) = passes t rows1 ++ passes t rows2.
Proof. apply bind_app. Qed.

(** A row that hands nothing to the inner loop leaves the state alone. *)
Lemma demand_step_skip (st : state) (r : demand_row) :
  demand_entry t r = None →
  ∃ date, demand_step t grouped now st r = Ok (st, date).
Proof.
  unfold demand_entry, demand_step.
  destruct (truthy (dr_date r)); [by eexists|].
  destruct (known_item t r) as [[item elems]|]; [|by eexists].
  destruct (dr_qty r); try by eexists.
  case_decide; [by eexists | done].
Qed.

Lemma demand_step_passes (st : state) (r : demand_row) :
  fst <$> demand_step t grouped now st r
  = foldM (add_pass t grouped) st (passes t [r]).
Proof.
  unfold passes. csimpl. rewrite app_nil_r.
  destruct (demand_entry t r) as [[[item qty] elems]|] eqn:Hentry.
  - rewrite foldM_fmap.
    unfold demand_entry in Hentry. unfold demand_step.
    destruct (truthy (dr_date r)); [done|].
    destruct (known_item t r) as [[item' elems']|]; [|done].
    destruct (dr_qty r); try done.
    case_decide; [done|]. injection Hentry as -> -> ->.
    unfold add_pass. simpl.
    assert (Heq : ∀ st, foldM (add_elem t grouped item qty) st elems
            = foldM (λ s x, add_elem t grouped item qty s (x.1, x.2)) st elems).
    { clear. induction elems as [|[e p] elems IH]; intros st; [done|].
      simpl. destruct (add_elem _ _ _ _ _ _); simpl; [apply IH|done]. }
    rewrite <-Heq. by destruct (foldM _ _ _).
  - destruct (demand_step_skip st r Hentry) as [date ->]. done.
Qed.

(** The state the first loop ends in is the state the passes of the
    inner loop build one after the other. *)
Lemma aggregate_from_passes (st : state) (rows : list demand_row) :
  fst <$> aggregate_from t grouped now st rows
  = foldM (add_pass t grouped) st (passes t rows).
Proof.
  revert st. induction rows as [|r rows IH]; intros st; [done|].
  rewrite passes_cons, foldM_app, <-demand_step_passes. simpl.
  destruct (demand_step t grouped now st r) as [[st' date]|e]; simpl; [|done].
  rewrite <-IH.
  by destruct (aggregate_from t grouped now st' rows) as [[st'' dates]|e].
Qed.

Lemma counter_update_get (c : dict Qc) (elem e : string) (v : Qc) :
  dget e (counter_update c [(elem, v)])
  = if decide (elem = e) then Some (v + default 0 (dget elem c)) else dget e c.
Proof.
  unfold counter_update. destruct c as [|entry c].
  - simpl. case_decide; [|done]. f_equal. ring.
  - cbn [fold_left]. apply dget_dset.
Qed.

Lemma bucket_default (temp : buckets) (s m e : string) :
  bucket temp s m e
  = dget e (default [] (dget m (default [] (dget s temp)))).
Proof.
  unfold bucket. destruct (dget s temp) as [sheetdict|]; [|done]. simpl.
  by destruct (dget m sheetdict).
Qed.

(** A pass adds its sheets to its own bucket, leaves every other bucket as
    it is, and appends its item to the items of its element. *)
Lemma add_pass_ok (temp temp' : buckets) (memo memo' : dict memo_entry)
    (p : pass) :
  memo_ok t memo →
  add_pass t grouped (temp, memo) p = Ok (temp', memo') →
  memo_ok t memo'
  ∧ (∃ x, pass_sheets t grouped p = Ok x)
  ∧ (∀ s m e, bucket temp' s m e
              = match (pass_adds t grouped) s m e p with
                | Some v => Some (v + default 0 (bucket temp s m e))
                | None => bucket temp s m e
                end)
  ∧ (∀ e, memo_items memo' e
          = if decide (ps_elem p = e) then memo_items memo e ++ [ps_item p]
            else memo_items memo e).
Proof.
  intros Hmemo. unfold add_pass, add_elem, pass_adds, pass_sheets.
  destruct (dget (ps_elem p) (preforms t)) as [pf|] eqn:Hpf; [|done]. simpl.
  destruct (get_pps (pa pf) (pb pf) (psheet pf) (feedstock t)) as [pps|]
    eqn:Hpps; [|done]. simpl.
  assert (from_option m_pps pps (dget (ps_elem p) memo) = pps) as ->.
  { destruct (dget (ps_elem p) memo) as [m|] eqn:Hm; [|done]. simpl.
    destruct (Hmemo _ _ Hm) as (pf' & Hpf' & Hpps'). congruence. }
  destruct (truediv (Qc_of_Z (ps_qty p) * ps_pcs p) pps) as [v|]; [|done].
  simpl. intros [= <- <-]. split; [|split; [by eexists|split]].
  - intros elem m. rewrite dget_dset. case_decide; [|apply Hmemo].
    intros [= <-]. subst elem. by exists pf.
  - intros s m e. unfold bucket at 1.
    set (mode := if has_marker (ps_item p) grouped then _ else _).
    rewrite dget_dset. destruct (decide (psheet pf = s)) as [<-|Hs]; simpl.
    + rewrite dget_dset. destruct (decide (mode = m)) as [<-|Hm]; simpl.
      * rewrite counter_update_get.
        destruct (decide (ps_elem p = e)) as [<-|He].
        -- rewrite decide_True by done. by rewrite <-bucket_default.
        -- rewrite decide_False by (by intros (_ & _ & ?)).
           by rewrite <-bucket_default.
      * rewrite decide_False by (by intros (_ & ? & _)).
        unfold bucket. by destruct (dget (psheet pf) temp).
    + by rewrite decide_False by (by intros (? & _ & _)).
  - intros e. unfold memo_items. rewrite dget_dset.
    case_decide; [by subst|done].
Qed.

Lemma add_pass_runs (temp : buckets) (memo : dict memo_entry) (p : pass)
    (x : string * string * Qc) :
  memo_ok t memo → pass_sheets t grouped p = Ok x →
  ∃ st, add_pass t grouped (temp, memo) p = Ok st.
Proof.
  intros Hmemo. unfold add_pass, add_elem, pass_sheets.
  destruct (dget (ps_elem p) (preforms t)) as [pf|] eqn:Hpf; [|done]. simpl.
  destruct (get_pps (pa pf) (pb pf) (psheet pf) (feedstock t)) as [pps|]
    eqn:Hpps; [|done]. simpl.
  assert (from_option m_pps pps (dget (ps_elem p) memo) = pps) as ->.
  { destruct (dget (ps_elem p) memo) as [m|] eqn:Hm; [|done]. simpl.
    destruct (Hmemo _ _ Hm) as (pf' & Hpf' & Hpps'). congruence. }
  destruct (truediv (Qc_of_Z (ps_qty p) * ps_pcs p) pps) as [v|]; [|done].
  by eexists.
Qed.

(** The passes of a run, taken together. *)
Lemma foldM_add_pass (ps : list pass) (temp temp' : buckets)
    (memo memo' : dict memo_entry) :
  memo_ok t memo →
  foldM (add_pass t grouped) (temp, memo) ps = Ok (temp', memo') →
  memo_ok t memo'
  ∧ Forall (λ p, ∃ x, pass_sheets t grouped p = Ok x) ps
  ∧ (∀ s m e, bucket temp' s m e
              = add_all (bucket temp s m e) (omap (pass_adds t grouped s m e) ps))
  ∧ (∀ e, memo_items memo' e
          = memo_items memo e
            ++ (ps_item <$> filter (λ p, ps_elem p = e) ps)).
Proof.
  revert temp memo. induction ps as [|p ps IH]; intros temp memo Hmemo.
  - intros [= <- <-]. repeat split; try done.
    intros e. by rewrite app_nil_r.
  - cbn [foldM].
    destruct (add_pass t grouped (temp, memo) p) as [[temp1 memo1]|] eqn:Hp;
      [|done]. simpl. intros Hps.
    destruct (add_pass_ok _ _ _ _ _ Hmemo Hp)
      as (Hmemo1 & Hx & Hbucket & Hitems).
    destruct (IH _ _ Hmemo1 Hps) as (Hmemo' & Hall & Hbucket' & Hitems').
    split; [done|]. split; [by constructor|]. split.
    + intros s m e. rewrite Hbucket', Hbucket. csimpl.
      by destruct (pass_adds t grouped s m e p).
    + intros e. rewrite Hitems', Hitems, filter_cons.
      destruct (decide (ps_elem p = e)); [|done].
      by rewrite fmap_cons, <-app_assoc.
Qed.

Lemma foldM_add_pass_runs (ps : list pass) (st : state) :
  memo_ok t st.2 →
  Forall (λ p, ∃ x, pass_sheets t grouped p = Ok x) ps →
  ∃ st', foldM (add_pass t grouped) st ps = Ok st'.
Proof.
  revert st. induction ps as [|p ps IH]; intros [temp memo] Hmemo Hall.
  - by eexists.
  - apply Forall_cons in Hall as [[x Hx] Hall].
    destruct (add_pass_runs temp memo p x Hmemo Hx) as [[temp1 memo1] Hp].
    cbn [foldM]. rewrite Hp. simpl. apply IH; [|done].
    by destruct (add_pass_ok _ _ _ _ _ Hmemo Hp) as [? _].
Qed.

Lemma memo_ok_nil : memo_ok t [].
Proof. by intros elem m. Qed.


Lemma aggregate_passes (rows : list demand_row) (st : state)
    (dates : list value) :
  aggregate t grouped now rows = Ok (st, dates) →
  foldM (add_pass t grouped) ([], []) (passes t rows) = Ok st.
Proof.
  intros Hrun. rewrite <-aggregate_from_passes.
  unfold aggregate in Hrun. by rewrite Hrun.
Qed.


(** ** Rows that fail a check *)

Lemma unknown_item_lookup (r : demand_row) :
  unknown_item t r ↔ known_item t r = None.
Proof.
  unfold unknown_item, known_item. destruct (dr_item r) as [item|]; simpl.
  - split.
    + intros H. by rewrite (H item).
    + intros H item' [= <-]. by destruct (dget item (contents t)).
  - split; [done | by intros _ item].
Qed.

Lemma demand_step_unknown (st : state) (r : demand_row) :
  truthy (dr_date r) = false → unknown_item t r →
  demand_step t grouped now st r = Ok (st, VStr "KeyError").
Proof.
  intros Hdate Hunknown%unknown_item_lookup.
  unfold demand_step. by rewrite Hdate, Hunknown.
Qed.

Lemma demand_step_non_integer (st : state) (r : demand_row) :
  truthy (dr_date r) = false → ¬ unknown_item t r → non_integer_quantity r →
  demand_step t grouped now st r = Ok (st, VStr "TypeError").
Proof.
  intros Hdate Hknown Hqty. rewrite unknown_item_lookup in Hknown.
  unfold demand_step. rewrite Hdate.
  destruct (known_item t r) as [[item elems]|]; [|done].
  destruct (dr_qty r) as [| |n| |] eqn:Hn; try done. by destruct (Hqty n).
Qed.

Lemma demand_step_non_positive (st : state) (r : demand_row) :
  truthy (dr_date r) = false → ¬ unknown_item t r → non_positive_quantity r →
  demand_step t grouped now st r = Ok (st, VStr "ValueError").
Proof.
  intros Hdate Hknown (n & Hqty & Hn). rewrite unknown_item_lookup in Hknown.
  unfold demand_step. rewrite Hdate.
  destruct (known_item t r) as [[item elems]|]; [|done].
  rewrite Hqty. by rewrite decide_True.
Qed.

(** An entry the specification calls invalid changes neither the buckets
    nor the memo, and gets one of the three flags. *)
Lemma demand_step_invalid (st : state) (r : demand_row) :
  truthy (dr_date r) = false →
  unknown_item t r ∨ non_integer_quantity r ∨ non_positive_quantity r →
  ∃ flag, flag ∈ ["KeyError"; "TypeError"; "ValueError"]
          ∧ ∀ st, demand_step t grouped now st r = Ok (st, VStr flag).
Proof.
  intros Hdate Hbad.
  destruct (known_item t r) as [known|] eqn:Hitem.
  - assert (¬ unknown_item t r) as Hknown
      by (rewrite unknown_item_lookup; congruence).
    destruct Hbad as [?|[Hqty|Hqty]]; [done|..].
    + exists "TypeError". split; [apply list_elem_of_In; simpl; tauto|].
      intros st'. by apply demand_step_non_integer.
    + exists "ValueError". split; [apply list_elem_of_In; simpl; tauto|].
      intros st'. by apply demand_step_non_positive.
  - exists "KeyError". split; [apply list_elem_of_In; simpl; tauto|].
    intros st'. apply demand_step_unknown; [done|].
    by apply unknown_item_lookup.
Qed.

(** Taking a row that changes nothing out of the demand changes nothing
    but the date column, which loses the cell of the row. *)
Lemma aggregate_from_skip (st : state) (rows1 rows2 : list demand_row)
    (bad : demand_row) (flag : value) :
  (∀ st, demand_step t grouped now st bad = Ok (st, flag)) →
  aggregate_from t grouped now st (rows1 ++ bad :: rows2)
  = '(st', dates) ← aggregate_from t grouped now st (rows1 ++ rows2);
    Ok (st', take (length rows1) dates ++ flag :: drop (length rows1) dates).
Proof.
  intros Hbad. revert st. induction rows1 as [|r rows1 IH]; intros st.
  - simpl. rewrite Hbad. simpl.
    by destruct (aggregate_from t grouped now st rows2) as [[st' dates]|].
  - simpl. destruct (demand_step t grouped now st r) as [[st' date]|]; [|done].
    simpl. rewrite IH.
    by destruct (aggregate_from t grouped now st' (rows1 ++ rows2))
      as [[st'' dates]|].
Qed.

Lemma calculate_report (rows : list demand_row) :
  fst <$> calculate_sheets_number t grouped now rows
  = st ← fst <$> aggregate t grouped now rows; report_of now st.1 st.2.
Proof.
  unfold calculate_sheets_number.
  destruct (aggregate t grouped now rows) as [[st dates]|]; [|done]. simpl.
  by destruct (report_of now st.1 st.2).
Qed.

Lemma aggregate_from_skip_state (st : state) (rows1 rows2 : list demand_row)
    (bad : demand_row) (flag : value) :
  (∀ st, demand_step t grouped now st bad = Ok (st, flag)) →
  fst <$> aggregate_from t grouped now st (rows1 ++ bad :: rows2)
  = fst <$> aggregate_from t grouped now st (rows1 ++ rows2).
Proof.
  intros Hbad. rewrite (aggregate_from_skip _ _ _ _ _ Hbad).
  by destruct (aggregate_from t grouped now st (rows1 ++ rows2))
    as [[st' dates]|].
Qed.

(** C8.  A demand entry with an unknown item, with a quantity that is not
    an integer, or with a quantity that is not positive gets the flag of
    its kind (KeyError, TypeError, ValueError: three different flags),
    adds nothing to any bucket or memo, and leaves what the other entries
    add, their flags and the report as they are without it.  With
    "Unknown" not in the bill of materials, the entries ("Widget", 5) and
    ("Unknown", 3) give the buckets and the memo of ("Widget", 5) alone. *)
Theorem invalid_entries_isolated :
  (∀ (st : state) (rows1 rows2 : list demand_row) (bad : demand_row),
     truthy (dr_date bad) = false →
     unknown_item t bad ∨ non_integer_quantity bad ∨ non_positive_quantity bad →
     ∃ flag,
       demand_step t grouped now st bad = Ok (st, VStr flag)
       ∧ (unknown_item t bad → flag = "KeyError")
       ∧ (¬ unknown_item t bad → non_integer_quantity bad → flag = "TypeError")
       ∧ (¬ unknown_item t bad → non_positive_quantity bad → flag = "ValueError")
       ∧ aggregate_from t grouped now st (rows1 ++ bad :: rows2)
         = ('(st', dates) ← aggregate_from t grouped now st (rows1 ++ rows2);
            Ok (st', take (length rows1) dates
                     ++ VStr flag :: drop (length rows1) dates))
       ∧ fst <$> calculate_sheets_number t grouped now (rows1 ++ bad :: rows2)
         = fst <$> calculate_sheets_number t grouped now (rows1 ++ rows2))
  ∧ NoDup ["KeyError"; "TypeError"; "ValueError"]
  ∧ (dget "Unknown" (contents t) = None →
     fst <$> aggregate t grouped now [entry "Widget" 5; entry "Unknown" 3]
     = fst <$> aggregate t grouped now [entry "Widget" 5]).
Proof.
  split; [|split].
  - intros st rows1 rows2 bad Hdate Hbad.
    destruct (demand_step_invalid st bad Hdate Hbad) as (flag & _ & Hstep).
    exists flag. split; [apply Hstep|]. repeat split.
    + intros Hunknown.
      pose proof (demand_step_unknown st bad Hdate Hunknown) as H.
      rewrite Hstep in H. by injection H.
    + intros Hknown Hqty.
      pose proof (demand_step_non_integer st bad Hdate Hknown Hqty) as H.
      rewrite Hstep in H. by injection H.
    + intros Hknown Hqty.
      pose proof (demand_step_non_positive st bad Hdate Hknown Hqty) as H.
      rewrite Hstep in H. by injection H.
    + by apply aggregate_from_skip.
    + rewrite !calculate_report. unfold aggregate.
      by rewrite (aggregate_from_skip_state _ _ _ _ _ Hstep).
  - by_compute.
  - intros Hunknown. unfold aggregate.
    apply (aggregate_from_skip_state _ [entry "Widget" 5] [] _
             (VStr "KeyError")).
    intros st. apply demand_step_unknown; [done|].
    intros item [= <-]. done.
Qed.

End aggregate_facts.

(** ** Loops that emit rows *)

Lemma flat_mapM_elem {A B} (f : A → result (list B)) (l : list A)
    (ys : list B) (y : B) :
  flat_mapM f l = Ok ys → y ∈ ys → ∃ x zs, x ∈ l ∧ f x = Ok zs ∧ y ∈ zs.
Proof.
  revert ys. induction l as [|x l IH]; intros ys.
  - intros [= <-] Hy. by apply elem_of_nil in Hy.
  - simpl. destruct (f x) as [zs|] eqn:Hx; [|done]. simpl.
    destruct (flat_mapM f l) as [ws|]; [|done]. simpl.
    intros [= <-] [Hy|Hy]%elem_of_app.
    + exists x, zs. split; [apply elem_of_cons; by left | done].
    + destruct (IH ws eq_refl Hy) as (x' & zs' & Hin & Hx' & Hy').
      exists x', zs'. split; [apply elem_of_cons; by right | done].
Qed.

Lemma flat_mapM_fmap_bind {A B C} (f : A → result (list B)) (g : B → C)
    (h : A → list C) (l : list A) (ys : list B) :
  (∀ x zs, x ∈ l → f x = Ok zs → g <$> zs = h x) →
  flat_mapM f l = Ok ys → g <$> ys = l ≫= h.
Proof.
  revert ys. induction l as [|x l IH]; intros ys Hf.
  - by intros [= <-].
  - simpl. destruct (f x) as [zs|] eqn:Hx; [|done]. simpl.
    destruct (flat_mapM f l) as [ws|]; [|done]. simpl.
    intros [= <-]. rewrite fmap_app. csimpl. f_equal.
    + apply Hf; [apply elem_of_cons; by left | done].
    + apply IH; [|done]. intros x' zs' Hin. apply Hf.
      apply elem_of_cons. by right.
Qed.

(** Sorted lists stay sorted when every element is replaced by a sorted
    run and the runs are in order. *)
Lemma StronglySorted_bind {A B} (R : relation A) (S : relation B)
    (f : A → list B) (l : list A) :
  StronglySorted R l →
  (∀ x, x ∈ l → StronglySorted S (f x)) →
  (∀ x y b c, R x y → b ∈ f x → c ∈ f y → S b c) →
  StronglySorted S (l ≫= f).
Proof.
  intros Hl Hruns Hacross. induction Hl as [|x l Hl IH Hx]; [constructor|].
  csimpl. apply StronglySorted_app_2.
  - intros b c Hb Hc. apply list_elem_of_bind in Hc as (y & Hc & Hy).
    apply (Hacross x y); [|done..].
    by eapply Forall_forall in Hx.
  - apply Hruns, elem_of_cons. by left.
  - apply IH. intros y Hy. apply Hruns, elem_of_cons. by right.
Qed.

Lemma StronglySorted_all {A} (R : relation A) (l : list A) :
  (∀ x y, x ∈ l → y ∈ l → R x y) → StronglySorted R l.
Proof.
  induction l as [|x l IH]; intros H; constructor.
  - apply IH. intros y z Hy Hz. apply H; apply elem_of_cons; by right.
  - apply Forall_forall. intros y Hy.
    apply H; apply elem_of_cons; [by left | by right].
Qed.

(** ** The second loop of calculate_sheets_number *)

Lemma sort_nested_dict_elem {V} (temp : dict (dict V)) (sheet : string)
    (sheetdict : dict V) :
  (sheet, sheetdict) ∈ sort_nested_dict temp →
  ∃ sd, (sheet, sd) ∈ temp ∧ sheetdict = sorted_items sd.
Proof.
  unfold sort_nested_dict. rewrite sorted_items_perm.
  intros ([sheet' sd] & [= -> ->] & Hin)%list_elem_of_fmap. by exists sd.
Qed.

Lemma sort_nested_dict_keys {V} (temp : dict (dict V)) :
  keys (sort_nested_dict temp) ≡ₚ keys temp.
Proof.
  unfold sort_nested_dict, keys. rewrite sorted_items_perm.
  rewrite <-list_fmap_compose.
  erewrite list_fmap_ext; [done|]. by intros i [k v].
Qed.

(** With distinct keys, ascending order of the keys is strict. *)
Lemma StronglySorted_keys_strict {V} (d : dict V) :
  StronglySorted (λ a b, String.le a.1 b.1) d → NoDup (keys d) →
  StronglySorted (λ a b, String.le a.1 b.1 ∧ a.1 ≠ b.1) d.
Proof.
  induction 1 as [|[k v] d Hd IH Hk]; [constructor|].
  rewrite keys_cons, NoDup_cons. intros [Hnotin Hnodup].
  constructor; [by apply IH|].
  apply Forall_forall. intros [k' v'] Hin. split.
  - by eapply Forall_forall in Hk.
  - simpl. intros ->. apply Hnotin. unfold keys.
    apply list_elem_of_fmap. by exists (k', v').
Qed.

Lemma StronglySorted_fmap_inv {A B} (R : relation B) (f : A → B) (l : list A) :
  StronglySorted R (f <$> l) → StronglySorted (λ x y, R (f x) (f y)) l.
Proof.
  induction l as [|x l IH]; [constructor|].
  rewrite fmap_cons, StronglySorted_cons. intros [Hx Hl].
  constructor; [by apply IH|]. rewrite Forall_fmap in Hx. exact Hx.
Qed.

Lemma bucket_keys_elem (sheet mode : string) (elems : list string)
    (k : string * string * string) :
  k ∈ (λ elem, (sheet, mode, elem)) <$> elems → k.1.1 = sheet ∧ k.1.2 = mode.
Proof. by intros (elem & -> & _)%list_elem_of_fmap. Qed.

Lemma report_keys_unfold (temp : buckets) :
  report_keys temp
  = (sort_nested_dict temp : list _) ≫= λ sheet,
      (sheet.2 : list _) ≫= λ mode,
        (λ elem, (sheet.1, mode.1, elem)) <$> bucket_elems mode.1 mode.2.
Proof.
  unfold report_keys, sorted_buckets.
  induction (sort_nested_dict temp) as [|[sheet sheetdict] l IH]; [done|].
  csimpl. rewrite bind_app, IH. f_equal.
  induction sheetdict as [|[mode modedict] sd IHsd]; [done|].
  csimpl. by rewrite IHsd.
Qed.

(** The keys of the report are in ascending order of the sheets and,
    within a sheet, of the modes. *)
Lemma report_keys_sorted (temp : buckets) :
  NoDup (keys temp) → StronglySorted key_le (report_keys temp).
Proof.
  intros Hnodup. rewrite report_keys_unfold.
  apply (StronglySorted_bind (λ a b, String.le a.1 b.1 ∧ a.1 ≠ b.1)).
  - apply StronglySorted_keys_strict.
    + unfold sort_nested_dict. apply sorted_items_ordered.
    + pose proof (sort_nested_dict_keys temp) as Hperm. by rewrite Hperm.
  - intros [sheet sheetdict] (sd & _ & ->)%sort_nested_dict_elem. simpl.
    apply (StronglySorted_bind (λ a b, String.le a.1 b.1)).
    + apply sorted_items_ordered.
    + intros [mode modedict] _. simpl. apply StronglySorted_all.
      intros k1 k2 [H1 H1']%bucket_keys_elem [H2 H2']%bucket_keys_elem.
      unfold key_le. rewrite H1, H1', H2, H2'. by split.
    + intros [m1 d1] [m2 d2] k1 k2 Hle [H1 H1']%bucket_keys_elem
        [H2 H2']%bucket_keys_elem. simpl in *.
      unfold key_le. rewrite H1, H1', H2, H2'. by split.
  - intros [s1 sd1] [s2 sd2] k1 k2 [Hle Hne].
    intros ([m1 d1] & [H1 _]%bucket_keys_elem & _)%list_elem_of_bind.
    intros ([m2 d2] & [H2 _]%bucket_keys_elem & _)%list_elem_of_bind.
    simpl in *. unfold key_le. rewrite H1, H2. by split.
Qed.

Section report_facts.

Variable now : string.

(** A record of a bucket shows the transformed value of an element of the
    bucket: rounded to one decimal as sheets, times the pps and truncated
    as recommended pieces. *)
Lemma report_bucket_row (memo : dict memo_entry) (sheet mode : string)
    (modedict : dict Qc) (rows : list report_row) (row : report_row) :
  report_bucket now memo sheet mode modedict = Ok rows → row ∈ rows →
  r_sheet row = sheet ∧ r_mode row = mode
  ∧ ∃ f sheets_n m,
      dget mode transformer = Some f
      ∧ (r_elem row, sheets_n) ∈ f modedict
      ∧ dget (r_elem row) memo = Some m
      ∧ r_sheets_n row = round1 sheets_n
      ∧ r_recomm row = trunc (sheets_n * m_pps m).
Proof.
  unfold report_bucket.
  destruct (dget mode transformer) as [f|]; [|done]. simpl.
  intros Hrows Hrow.
  destruct (flat_mapM_elem _ _ _ _ Hrows Hrow)
    as ([elem sheets_n] & zs & Hin & Hzs & Hrow').
  destruct (dget elem memo) as [m|] eqn:Hm; [|done]. simpl in Hzs.
  injection Hzs as <-. apply list_elem_of_singleton in Hrow' as ->. simpl.
  split; [done|]. split; [done|]. by exists f, sheets_n, m.
Qed.

Lemma report_bucket_keys (memo : dict memo_entry) (sheet mode : string)
    (modedict : dict Qc) (rows : list report_row) :
  report_bucket now memo sheet mode modedict = Ok rows →
  row_key <$> rows = (λ elem, (sheet, mode, elem)) <$> bucket_elems mode modedict.
Proof.
  unfold report_bucket, bucket_elems.
  destruct (dget mode transformer) as [f|]; [|done]. simpl.
  generalize (f modedict) as l. intros l. revert rows.
  induction l as [|[elem v] l IH]; intros rows.
  - by intros [= <-].
  - simpl. destruct (dget elem memo); [|done]. simpl.
    destruct (flat_mapM _ l) as [ws|]; [|done]. simpl.
    intros [= <-]. csimpl. f_equal. by apply IH.
Qed.

(** The records of the report are those of the sorted buckets, bucket by
    bucket, in the order of the elements of the transformed bucket. *)
Lemma report_of_keys (temp : buckets) (memo : dict memo_entry)
    (report : list report_row) :
  report_of now temp memo = Ok report → row_key <$> report = report_keys temp.
Proof.
  unfold report_of. intros Hreport. rewrite report_keys_unfold.
  eapply flat_mapM_fmap_bind; [|exact Hreport].
  intros [sheet sheetdict] zs _ Hzs. simpl.
  eapply flat_mapM_fmap_bind; [|exact Hzs].
  intros [mode modedict] ws _ Hws. simpl. by apply report_bucket_keys in Hws.
Qed.

End report_facts.

Section calculate_facts.

Variable t : tables.
Variable grouped : list string.
Variable now : string.

Lemma add_pass_sheets_distinct (temp temp' : buckets)
    (memo memo' : dict memo_entry) (p : pass) :
  add_pass t grouped (temp, memo) p = Ok (temp', memo') →
  NoDup (keys temp) → NoDup (keys temp').
Proof.
  unfold add_pass, add_elem.
  destruct (dget (ps_elem p) (preforms t)) as [pf|]; [|done]. simpl.
  destruct (get_pps _ _ _ _); [|done]. simpl.
  destruct (truediv _ _); [|done]. simpl.
  intros [= <- _]. apply NoDup_keys_dset.
Qed.

Lemma foldM_sheets_distinct (ps : list pass) (st st' : state) :
  foldM (add_pass t grouped) st ps = Ok st' →
  NoDup (keys st.1) → NoDup (keys st'.1).
Proof.
  revert st. induction ps as [|p ps IH]; intros [temp memo].
  - by intros [= <-].
  - cbn [foldM].
    destruct (add_pass t grouped (temp, memo) p) as [[temp1 memo1]|] eqn:Hp;
      [|done]. simpl. intros Hps Hnodup. apply (IH _ Hps). simpl.
    by eapply add_pass_sheets_distinct.
Qed.

Lemma aggregate_sheets_distinct (rows : list demand_row) (st : state)
    (dates : list value) :
  aggregate t grouped now rows = Ok (st, dates) → NoDup (keys st.1).
Proof.
  intros Hrun%aggregate_passes.
  apply (foldM_sheets_distinct _ _ _ Hrun). apply NoDup_nil_2.
Qed.

Lemma calculate_inv (rows : list demand_row) (report : list report_row)
    (dates : list value) :
  calculate_sheets_number t grouped now rows = Ok (report, dates) →
  ∃ st, aggregate t grouped now rows = Ok (st, dates)
        ∧ report_of now st.1 st.2 = Ok report.
Proof.
  unfold calculate_sheets_number.
  destruct (aggregate t grouped now rows) as [[st dates']|] eqn:Hrun; [|done].
  simpl.
  destruct (report_of now st.1 st.2) as [report'|] eqn:Hreport; [|done]. simpl.
  intros [= <- <-]. by exists st.
Qed.

(** C2, amended.  A record of the report shows, for its element, the value
    the bucket holds after the transformation of its mode: that value
    rounded to one decimal as [sheets_n], and that value times the pps of
    the element, truncated to an integer, as the recommended pieces. *)
Theorem report_row_values (rows : list demand_row) (report : list report_row)
    (dates : list value) (row : report_row) :
  calculate_sheets_number t grouped now rows = Ok (report, dates) →
  row ∈ report →
  ∃ temp memo sheetdict modedict f sheets_n m,
    aggregate t grouped now rows = Ok ((temp, memo), dates)
    ∧ (r_sheet row, sheetdict) ∈ temp
    ∧ (r_mode row, modedict) ∈ sheetdict
    ∧ dget (r_mode row) transformer = Some f
    ∧ (r_elem row, sheets_n) ∈ f modedict
    ∧ dget (r_elem row) memo = Some m
    ∧ r_sheets_n row = round1 sheets_n
    ∧ r_recomm row = trunc (sheets_n * m_pps m).
Proof.
  intros ([temp memo] & Hrun & Hreport)%calculate_inv Hrow.
  unfold report_of in Hreport. simpl in Hreport.
  destruct (flat_mapM_elem _ _ _ _ Hreport Hrow)
    as ([sheet sheetdict'] & zs & Hsheet & Hzs & Hrow').
  destruct (flat_mapM_elem _ _ _ _ Hzs Hrow')
    as ([mode modedict] & ws & Hmode & Hws & Hrow'').
  destruct (report_bucket_row _ _ _ _ _ _ _ Hws Hrow'')
    as (-> & -> & f & sheets_n & m & Hf & Helem & Hm & Hsheets & Hrecomm).
  apply sort_nested_dict_elem in Hsheet as (sheetdict & Hsheet & ->).
  rewrite sorted_items_perm in Hmode.
  by exists temp, memo, sheetdict, modedict, f, sheets_n, m.
Qed.

(** C6, amended.  The records of the report come in ascending order of the
    sheets and, within a sheet, of the modes.  Within a bucket they come in
    the order of the transformed bucket: the order in which the elements
    entered the bucket for the mode "single", the ascending order of the
    ceiling deltas for the mode "grouped". *)
Theorem report_order (rows : list demand_row) (report : list report_row)
    (dates : list value) :
  calculate_sheets_number t grouped now rows = Ok (report, dates) →
  StronglySorted row_le report
  ∧ (∃ st, aggregate t grouped now rows = Ok (st, dates)
           ∧ row_key <$> report = report_keys st.1)
  ∧ (∀ modedict, bucket_elems "single" modedict = keys modedict)
  ∧ (∀ modedict, bucket_elems "grouped" modedict
                 = keys (sorted_by_delta modedict)).
Proof.
  intros (st & Hrun & Hreport)%calculate_inv.
  pose proof (report_of_keys _ _ _ _ Hreport) as Hkeys.
  split; [|split; [by exists st|split]].
  - apply (StronglySorted_fmap_inv key_le row_key). rewrite Hkeys.
    apply report_keys_sorted. by eapply aggregate_sheets_distinct.
  - intros modedict. apply ceil_dict_values_keys.
  - intros modedict. apply spread_delta_keys.
Qed.

End calculate_facts.

(** ** The claims on sample data *)

Lemma update_contents_deletion_witness :
  update_contents sample_deletions sample_contents (VStr "now")
  = ([("Gadget"%string, [("x"%string, frac 1 1); ("y"%string, frac 3 1)])],
     [VStr "now"; VStr "KeyError"])
  ∧ bom_ok (update_contents sample_deletions sample_contents (VStr "now")).1.
Proof.
  split; [by_compute|].
  apply (proj2 update_contents_deletion). by_compute.
Defined.

Lemma invalid_entries_isolated_witness :
  fst <$> aggregate sample_tables [] "now"
            sample_demand
  = fst <$> aggregate sample_tables [] "now"
              [entry "Widget" 5].
Proof.
  destruct (invalid_entries_isolated sample_tables [] "now") as (_ & _ & H).
  apply H. by_compute.
Defined.


(** C2, as the specification states it, fails: the sheets a record shows
    are not the fractional count of before the rounding.  A demand of half
    a sheet is shown as 1 sheet, where its bucket held 0.5, which is 0.5
    when rounded to one decimal. *)
Lemma displayed_sheets_not_pre_rounding :
  ∃ temp memo dates row,
    aggregate sample_tables [] "now"
      half_sheet_demand = Ok ((temp, memo), dates)
    ∧ calculate_sheets_number sample_tables
        [] "now" half_sheet_demand = Ok ([row], dates)
    ∧ bucket temp (r_sheet row) (r_mode row) (r_elem row) = Some (frac 1 2)
    ∧ round1 (frac 1 2) = frac 1 2
    ∧ r_sheets_n row = Qc_of_Z 1
    ∧ r_sheets_n row ≠ round1 (frac 1 2).
Proof.
  exists [("S"%string, [("single"%string, [("x"%string, frac 1 2)])])],
    [("x"%string, {| m_pps := frac 400 1; m_demand := frac 200 1;
                     m_items := ["Widget"%string] |})],
    [VStr "now"], half_sheet_row.
  repeat split; by_compute.
Qed.

Lemma report_row_values_witness :
  ∃ temp memo sheetdict modedict f sheets_n m,
    aggregate sample_tables [] "now"
      half_sheet_demand = Ok ((temp, memo), [VStr "now"])
    ∧ (r_sheet half_sheet_row, sheetdict) ∈ temp
    ∧ (r_mode half_sheet_row, modedict) ∈ sheetdict
    ∧ dget (r_mode half_sheet_row) transformer = Some f
    ∧ (r_elem half_sheet_row, sheets_n) ∈ f modedict
    ∧ dget (r_elem half_sheet_row) memo = Some m
    ∧ r_sheets_n half_sheet_row = round1 sheets_n
    ∧ r_recomm half_sheet_row = trunc (sheets_n * m_pps m).
Proof.
  apply (report_row_values sample_tables
           [] "now" half_sheet_demand [half_sheet_row]).
  - by_compute.
  - by_compute.
Defined.

(** C6, as the specification states it, fails: the elements of a bucket
    are not in the order of their names.  "y" of item "A" is demanded
    before "x" of item "B", and is reported before it. *)
Lemma elements_not_in_name_order :
  calculate_sheets_number unordered_tables
    [] "now" unordered_demand = Ok (unordered_report, [VStr "now"; VStr "now"])
  ∧ r_elem <$> unordered_report = ["y"%string; "x"%string]
  ∧ ¬ StronglySorted row_le_elem unordered_report.
Proof. repeat split; by_compute. Qed.

Lemma report_order_witness :
  StronglySorted row_le unordered_report
  ∧ (∃ st,
       aggregate unordered_tables [] "now"
         unordered_demand = Ok (st, [VStr "now"; VStr "now"])
       ∧ row_key <$> unordered_report = report_keys st.1)
  ∧ (∀ modedict, bucket_elems "single" modedict = keys modedict)
  ∧ (∀ modedict, bucket_elems "grouped" modedict
                 = keys (sorted_by_delta modedict)).
Proof.
  apply (report_order unordered_tables
           [] "now" unordered_demand).
  by_compute.
Defined.

(** ** Further properties *)


(** The scenario of the specification: 2000 pieces of "x" at 400 to the
    sheet are 5 sheets exactly, reported in mode "single" as 5 sheets and
    2000 recommended pieces. *)
Example scenario_report :
  aggregate scenario_tables [] "now"
    [entry "A" 1000]
  = Ok (([("S"%string, [("single"%string, [("x"%string, frac 5 1)])])],
         [("x"%string, {| m_pps := frac 400 1; m_demand := frac 2000 1;
                          m_items := ["A"%string] |})]),
        [VStr "now"])
  ∧ calculate_sheets_number scenario_tables
      [] "now" [entry "A" 1000]
    = Ok ([scenario_row], [VStr "now"]).
Proof. split; by_compute. Qed.

(** ** Ceilings and floors *)


Lemma ceil_integer (x : Qc) : get_ceil_delta x = 0 → Qc_of_Z (ceil x) = x.
Proof. unfold get_ceil_delta. intros H. qc_lra. Qed.

(** The ceiling delta of a value is the part of a unit that is missing to
    the next integer: it lies in [0, 1), and is 0 for the integers only. *)
Lemma get_ceil_delta_range (value : Qc) :
  0 ≤ get_ceil_delta value ∧ get_ceil_delta value < 1
  ∧ (get_ceil_delta value = 0 ↔ is_integer value).
Proof.
  split; [apply get_ceil_delta_nonneg|]. split; [apply get_ceil_delta_lt_1|].
  split.
  - intros H. exists (ceil value). by rewrite ceil_integer.
  - intros [n ->]. unfold get_ceil_delta. rewrite ceil_of_Z. ring.
Qed.

(** ** get_pps *)

Lemma pymax_comm (x y : Qc) : pymax x y = pymax y x.
Proof.
  unfold pymax. repeat case_decide; try done.
  - exfalso. qc_lra.
  - apply Qcle_antisym; by apply Qcnot_lt_le.
Qed.

Lemma floordiv_r_zero (x : Qc) : floordiv_r x 0 = Raise ZeroDivisionError.
Proof. unfold floordiv_r. by rewrite decide_True. Qed.

(** X2.  Turning the preform by a quarter changes nothing: [get_pps] gives
    the same number, or raises the same exception, for [a] by [b] and for
    [b] by [a]. *)
Theorem get_pps_symmetric (a b : Qc) (sheet : string)
    (feedstock : dict sheet_spec) :
  get_pps a b sheet feedstock = get_pps b a sheet feedstock.
Proof.
  unfold get_pps. destruct (dget sheet feedstock) as [s|]; [|done]. simpl.
  destruct (decide (a = 0)) as [->|Ha], (decide (b = 0)) as [->|Hb];
    rewrite ?floordiv_r_zero, ?floordiv_r_nonzero by done; simpl;
    rewrite ?floordiv_r_zero, ?floordiv_r_nonzero by done; simpl; try done.
  f_equal. apply pymax_comm.
Qed.

(** X3.  [get_pps] raises in two cases only: KeyError for a sheet that is
    not in the feedstock, ZeroDivisionError for a known sheet and a preform
    with a side of 0. *)
Theorem get_pps_raises (a b : Qc) (sheet : string)
    (feedstock : dict sheet_spec) (e : exn) :
  get_pps a b sheet feedstock = Raise e
  ↔ (dget sheet feedstock = None ∧ e = KeyError)
    ∨ (is_Some (dget sheet feedstock) ∧ (a = 0 ∨ b = 0)
       ∧ e = ZeroDivisionError).
Proof.
  unfold get_pps. destruct (dget sheet feedstock) as [s|]; simpl.
  - destruct (decide (a = 0)) as [->|Ha], (decide (b = 0)) as [->|Hb];
      rewrite ?floordiv_r_zero, ?floordiv_r_nonzero by done; simpl;
      rewrite ?floordiv_r_zero, ?floordiv_r_nonzero by done; simpl.
    1-3: split; [intros [= <-]; right; eauto | by intros [[? _]|(_ & _ & ->)]].
    split; [done|]. intros [[? _]|(_ & [?|?] & _)]; done.
  - split.
    + intros [= <-]. by left.
    + intros [[_ ->]|[[? ?] _]]; done.
Qed.

Lemma Qc_of_Z_nonneg (n : Z) : (0 ≤ n)%Z → 0 ≤ Qc_of_Z n.
Proof. by rewrite <-Z2Qc_inj_0, <-Z2Qc_inj_le. Qed.

Lemma Qcmult_le_compat_nonneg (x x' y y' : Qc) :
  0 ≤ x → x ≤ x' → 0 ≤ y → y ≤ y' → x * y ≤ x' * y'.
Proof.
  intros Hx Hxx Hy Hyy. trans (x' * y).
  - by apply Qcmult_le_compat_r.
  - rewrite !(Qcmult_comm x'). apply Qcmult_le_compat_r; [done|].
    by trans x.
Qed.

Lemma Qcmult_nonneg (x y : Qc) : 0 ≤ x → 0 ≤ y → 0 ≤ x * y.
Proof.
  intros Hx Hy. rewrite <-(Qcmult_0_l 0).
  by apply Qcmult_le_compat_nonneg.
Qed.

(** The whole number of times [y] goes into [x]. *)
Lemma floor_div_spec (x y : Qc) :
  0 < y →
  Qc_of_Z (Qfloor (x / y)) * y ≤ x ∧ x < (Qc_of_Z (Qfloor (x / y)) + 1) * y.
Proof.
  intros Hy.
  assert (0 < y)%Q as Hyq by exact Hy.
  assert (x / y * y == x)%Q as Hx by (field; lra).
  pose proof (Qfloor_le (x / y)) as Hle. pose proof (Qlt_floor (x / y)) as Hlt.
  apply (Qmult_le_compat_r _ _ y) in Hle; [|lra].
  apply (Qmult_lt_compat_r _ _ y) in Hlt; [|lra].
  rewrite Hx in Hle, Hlt. rewrite inject_Z_plus in Hlt.
  split; qc_lra.
Qed.

Lemma floor_div_nonneg (x y : Qc) : 0 < y → 0 ≤ x → (0 ≤ Qfloor (x / y))%Z.
Proof.
  intros Hy Hx. destruct (floor_div_spec x y Hy) as [_ Hlt].
  destruct (decide (0 ≤ Qfloor (x / y))%Z) as [|Hneg]; [done|]. exfalso.
  assert (Qc_of_Z (Qfloor (x / y)) + 1 ≤ 0) as Hle.
  { rewrite <-Z2Qc_inj_1, <-Z2Qc_inj_add, <-Z2Qc_inj_0, <-Z2Qc_inj_le. lia. }
  assert ((Qc_of_Z (Qfloor (x / y)) + 1) * y ≤ 0 * y) as Hmul.
  { apply Qcmult_le_compat_r; [done | by apply Qclt_le_weak]. }
  rewrite Qcmult_0_l in Hmul.
  apply (Qclt_not_le _ _ Hlt). by trans 0.
Qed.

Lemma floor_div_pos (x y : Qc) : 0 < y → (1 ≤ Qfloor (x / y))%Z ↔ y ≤ x.
Proof.
  intros Hy. destruct (floor_div_spec x y Hy) as [Hle Hlt]. split.
  - intros H. trans (Qc_of_Z (Qfloor (x / y)) * y); [|done].
    rewrite <-(Qcmult_1_l y) at 1.
    apply Qcmult_le_compat_r; [|by apply Qclt_le_weak].
    by rewrite <-Z2Qc_inj_1, <-Z2Qc_inj_le.
  - intros Hyx. destruct (decide (1 ≤ Qfloor (x / y))%Z) as [|Hsmall]; [done|].
    exfalso.
    assert (Qc_of_Z (Qfloor (x / y)) + 1 ≤ 1) as Hone.
    { rewrite <-Z2Qc_inj_1, <-Z2Qc_inj_add, <-Z2Qc_inj_le. lia. }
    assert ((Qc_of_Z (Qfloor (x / y)) + 1) * y ≤ 1 * y) as Hmul.
    { apply Qcmult_le_compat_r; [done | by apply Qclt_le_weak]. }
    rewrite Qcmult_1_l in Hmul.
    apply (Qclt_not_le _ _ Hlt). by trans y.
Qed.

(** The pieces of one grid packing do not take more than the sheet. *)
Lemma grid_area (l w a b : Qc) :
  0 < a → 0 < b → 0 ≤ l → 0 ≤ w →
  Qc_of_Z (Qfloor (l / a) * Qfloor (w / b)) * (a * b) ≤ l * w.
Proof.
  intros Ha Hb Hl Hw.
  destruct (floor_div_spec l a Ha) as [Hla _].
  destruct (floor_div_spec w b Hb) as [Hwb _].
  pose proof (floor_div_nonneg l a Ha Hl) as Hna.
  pose proof (floor_div_nonneg w b Hb Hw) as Hnb.
  rewrite Z2Qc_inj_mul.
  replace (Qc_of_Z (Qfloor (l / a)) * Qc_of_Z (Qfloor (w / b)) * (a * b))
    with (Qc_of_Z (Qfloor (l / a)) * a * (Qc_of_Z (Qfloor (w / b)) * b))
    by ring.
  apply Qcmult_le_compat_nonneg; [|done| |done].
  - apply Qcmult_nonneg; [by apply Qc_of_Z_nonneg | by apply Qclt_le_weak].
  - apply Qcmult_nonneg; [by apply Qc_of_Z_nonneg | by apply Qclt_le_weak].
Qed.

(** A preform that goes on the sheet in one orientation at least has a
    pps of 1 or more. *)
Lemma get_pps_fitting (a b : Qc) (sheet : string) (feedstock : dict sheet_spec)
    (s : sheet_spec) :
  0 < a → 0 < b → dget sheet feedstock = Some s → fits a b s →
  ∃ n : Z, get_pps a b sheet feedstock = Ok (Qc_of_Z n) ∧ (1 ≤ n)%Z.
Proof.
  intros Ha Hb Hs Hfits.
  assert (a ≠ 0) by (intros ->; by apply (Qclt_not_eq 0 0)).
  assert (b ≠ 0) by (intros ->; by apply (Qclt_not_eq 0 0)).
  exists (Z.max (Qfloor (fL s / a) * Qfloor (fW s / b))
                (Qfloor (fL s / b) * Qfloor (fW s / a))).
  split.
  - unfold get_pps. rewrite Hs. simpl.
    rewrite !floordiv_r_nonzero by done. simpl.
    by rewrite <-!Z2Qc_inj_mul, pymax_of_Z.
  - destruct Hfits as [[Hl Hw]|[Hl Hw]].
    + apply (floor_div_pos _ _ Ha) in Hl. apply (floor_div_pos _ _ Hb) in Hw.
      nia.
    + apply (floor_div_pos _ _ Hb) in Hl. apply (floor_div_pos _ _ Ha) in Hw.
      nia.
Qed.

(** X4.  For a preform with positive sides and a sheet with sides that are
    not negative, [get_pps] returns a whole number of pieces that is not
    negative; the pieces take no more than the area of the sheet; and the
    number is 0 exactly when the preform goes on the sheet in neither
    orientation. *)
Theorem get_pps_fits (a b : Qc) (sheet : string) (feedstock : dict sheet_spec)
    (s : sheet_spec) :
  0 < a → 0 < b → dget sheet feedstock = Some s → 0 ≤ fL s → 0 ≤ fW s →
  ∃ n : Z,
    get_pps a b sheet feedstock = Ok (Qc_of_Z n)
    ∧ (0 ≤ n)%Z
    ∧ Qc_of_Z n * (a * b) ≤ fL s * fW s
    ∧ (n = 0%Z ↔ ¬ fits a b s).
Proof.
  intros Ha Hb Hs Hl Hw.
  assert (a ≠ 0) by (intros ->; by apply (Qclt_not_eq 0 0)).
  assert (b ≠ 0) by (intros ->; by apply (Qclt_not_eq 0 0)).
  exists (Z.max (Qfloor (fL s / a) * Qfloor (fW s / b))
                (Qfloor (fL s / b) * Qfloor (fW s / a))).
  pose proof (floor_div_nonneg (fL s) a Ha Hl) as Hla.
  pose proof (floor_div_nonneg (fW s) b Hb Hw) as Hwb.
  pose proof (floor_div_nonneg (fL s) b Hb Hl) as Hlb.
  pose proof (floor_div_nonneg (fW s) a Ha Hw) as Hwa.
  split; [|split; [|split]].
  - unfold get_pps. rewrite Hs. simpl.
    rewrite !floordiv_r_nonzero by done. simpl.
    by rewrite <-!Z2Qc_inj_mul, pymax_of_Z.
  - nia.
  - destruct (Z.max_spec (Qfloor (fL s / a) * Qfloor (fW s / b))
                (Qfloor (fL s / b) * Qfloor (fW s / a))) as [[_ ->]|[_ ->]].
    + rewrite (Qcmult_comm a b). by apply grid_area.
    + by apply grid_area.
  - unfold fits.
    rewrite <-(floor_div_pos (fL s) a), <-(floor_div_pos (fW s) b),
      <-(floor_div_pos (fL s) b), <-(floor_div_pos (fW s) a) by done.
    nia.
Qed.


Lemma get_pps_fits_witness :
  ∃ n : Z,
    get_pps (frac 100 1) (frac 50 1) "S" sample_feedstock = Ok (Qc_of_Z n)
    ∧ (0 ≤ n)%Z
    ∧ Qc_of_Z n * (frac 100 1 * frac 50 1) ≤ frac 2000 1 * frac 1000 1
    ∧ (n = 0%Z ↔ ¬ fits (frac 100 1) (frac 50 1)
                     {| fd := 1; fW := frac 1000 1; fL := frac 2000 1;
                        frho := 1 |}).
Proof.
  apply (get_pps_fits (frac 100 1) (frac 50 1) "S" sample_feedstock
           {| fd := 1; fW := frac 1000 1; fL := frac 2000 1; frho := 1 |});
    by_compute.
Defined.

(** ** spread_delta and ceil_dict_values compared *)












(** ** has_marker *)

Lemma contains_empty (s : string) : contains "" s = true.
Proof. by destruct s. Qed.

(** No marker, no match; and a marker that is the empty string is found
    in every name. *)
Lemma has_marker_edges (item : string) (tester : list string) :
  has_marker item [] = false
  ∧ (""%string ∈ tester → has_marker item tester = true).
Proof.
  split; [done|]. intros Hin. unfold has_marker.
  apply existsb_exists. exists ""%string.
  split; [by apply list_elem_of_In|]. apply contains_empty.
Qed.


(** ** sort_nested_dict *)

(** Sorting by key is stable, so it moves no entry across an entry of the
    same key: a lookup finds what it found before. *)
Lemma dget_insert_sorted {V} (k : string) (x : string * V) (d : dict V) :
  dget k (insert_sorted (λ x y, String.leb x.1 y.1) x d) = dget k (x :: d).
Proof.
  induction d as [|y d IH]; [done|]. cbn [insert_sorted].
  destruct (String.leb x.1 y.1) eqn:Hle; [done|].
  destruct x as [kx vx], y as [ky vy]. simpl in *.
  rewrite IH. simpl.
  destruct (decide (ky = k)) as [->|]; [|done].
  rewrite decide_False; [done|]. intros ->.
  destruct (String.leb_total k k); congruence.
Qed.

Lemma dget_sorted_items {V} (k : string) (d : dict V) :
  dget k (sorted_items d) = dget k d.
Proof.
  unfold sorted_items. induction d as [|[k' v] d IH]; [done|].
  cbn [sorted]. rewrite dget_insert_sorted. simpl. by rewrite IH.
Qed.

Lemma dget_fmap {V W} (f : V → W) (k : string) (d : dict V) :
  dget k (prod_map id f <$> d) = f <$> dget k d.
Proof.
  induction d as [|[k' v] d IH]; [done|]. csimpl. by case_decide.
Qed.

Lemma sort_nested_dict_get {V} (d : dict (dict V)) (k : string) :
  dget k (sort_nested_dict d) = sorted_items <$> dget k d.
Proof. unfold sort_nested_dict. by rewrite dget_sorted_items, dget_fmap. Qed.

(** X8.  [sort_nested_dict] returns the outer keys in ascending order, and
    the keys of every inner dictionary in ascending order; it neither adds
    nor drops a key, and every pair of keys leads to the value it led to. *)
Theorem sort_nested_dict_sorted {V} (d : dict (dict V)) :
  StronglySorted (λ a b, String.le a.1 b.1) (sort_nested_dict d)
  ∧ Forall (λ entry, StronglySorted (λ a b, String.le a.1 b.1) entry.2)
      (sort_nested_dict d)
  ∧ keys (sort_nested_dict d) ≡ₚ keys d
  ∧ (∀ k inner, dget k d = Some inner →
       ∃ inner', dget k (sort_nested_dict d) = Some inner'
                 ∧ keys inner' ≡ₚ keys inner)
  ∧ (∀ k1 k2, dget k1 (sort_nested_dict d) ≫= dget k2 = dget k1 d ≫= dget k2).
Proof.
  split; [|split; [|split; [|split]]].
  - unfold sort_nested_dict. apply sorted_items_ordered.
  - apply Forall_forall. intros [k inner] (sd & _ & ->)%sort_nested_dict_elem.
    apply sorted_items_ordered.
  - apply sort_nested_dict_keys.
  - intros k inner Hk. exists (sorted_items inner).
    rewrite sort_nested_dict_get, Hk. split; [done|].
    unfold keys. apply fmap_Permutation, sorted_items_perm.
  - intros k1 k2. rewrite sort_nested_dict_get.
    destruct (dget k1 d) as [inner|]; [|done]. simpl.
    apply dget_sorted_items.
Qed.

Section sorted_again.
Context {A : Type} (le : A → A → bool).

(** Sorting a list that is in order leaves it as it is. *)
Lemma sorted_of_ordered (l : list A) :
  StronglySorted (λ a b, le a b = true) l → sorted le l = l.
Proof.
  induction 1 as [|x l Hl IH Hx]; [done|].
  cbn [sorted]. rewrite IH. destruct l as [|y l]; [done|].
  simpl. apply Forall_cons in Hx as [-> _]. done.
Qed.

End sorted_again.

Lemma sorted_items_twice {V} (d : dict V) :
  sorted_items (sorted_items d) = sorted_items d.
Proof.
  unfold sorted_items. apply sorted_of_ordered, sorted_ordered.
  - intros x y. apply String.leb_total.
  - intros x y z. apply string_leb_trans.
Qed.

Lemma sorted_items_fmap {V W} (f : V → W) (d : dict V) :
  sorted_items (prod_map id f <$> d) = prod_map id f <$> sorted_items d.
Proof.
  unfold sorted_items. induction d as [|[k v] d IH]; [done|].
  csimpl. rewrite IH. generalize (sorted (λ x y, String.leb x.1 y.1) d).
  intros l. induction l as [|[k' v'] l IHl]; [done|].
  csimpl. destruct (String.leb k k'); [done|]. csimpl. by rewrite IHl.
Qed.

(** X9.  Sorting twice is sorting once. *)
Theorem sort_nested_dict_idempotent {V} (d : dict (dict V)) :
  sort_nested_dict (sort_nested_dict d) = sort_nested_dict d.
Proof.
  unfold sort_nested_dict.
  rewrite !sorted_items_fmap, sorted_items_twice, <-list_fmap_compose.
  apply list_fmap_ext. intros i [k v] _. unfold prod_map. simpl.
  by rewrite sorted_items_twice.
Qed.

(** ** More on update_contents *)

Lemma ddel_absent {V} (k : string) (d : dict V) : k ∉ keys d → ddel k d = d.
Proof.
  induction d as [|[k' v'] d IH]; [done|].
  rewrite keys_cons, not_elem_of_cons. intros [Hne Hnotin]. simpl.
  rewrite decide_False by done. by rewrite IH.
Qed.

Lemma dset_absent {V} (k : string) (v : V) (d : dict V) :
  k ∉ keys d → dset k v d = d ++ [(k, v)].
Proof.
  induction d as [|[k' v'] d IH]; [done|].
  rewrite keys_cons, not_elem_of_cons. intros [Hne Hnotin]. simpl.
  rewrite decide_False by done. by rewrite IH.
Qed.

Lemma ddel_app {V} (k : string) (d1 d2 : dict V) :
  ddel k (d1 ++ d2) = ddel k d1 ++ ddel k d2.
Proof.
  induction d1 as [|[k' v'] d1 IH]; [done|]. simpl.
  case_decide; [done|]. simpl. by rewrite IH.
Qed.

Lemma dset_dset {V} (k : string) (v v' : V) (d : dict V) :
  dset k v (dset k v' d) = dset k v d.
Proof.
  induction d as [|[k' w] d IH]; simpl.
  - by rewrite decide_True.
  - case_decide; simpl; [by rewrite decide_True|].
    rewrite decide_False by done. by rewrite IH.
Qed.

Lemma dset_same {V} (k : string) (v : V) (d : dict V) :
  dget k d = Some v → dset k v d = d.
Proof.
  induction d as [|[k' w] d IH]; [done|]. simpl.
  case_decide; [by intros [= ->]; subst|]. intros Hget. by rewrite IH.
Qed.

(** X10.  A row with a positive count sets the count of the element in the
    item and is dated; the other elements of the item and the other items
    are as they were. *)
Theorem update_contents_row_insert (now date : value) (temp : dict (dict Qc))
    (item elem : string) (pcs : Z) :
  truthy date = false → (0 < pcs)%Z →
  ∃ temp',
    update_contents_row now temp
      {| cr_date := date; cr_item := Some item; cr_elem := Some elem;
         cr_pcs := VInt pcs |} = (temp', now)
    ∧ dget item temp' ≫= dget elem = Some (Qc_of_Z pcs)
    ∧ (∀ elem', elem ≠ elem' →
         dget item temp' ≫= dget elem' = dget item temp ≫= dget elem')
    ∧ (∀ item', item ≠ item' → dget item' temp' = dget item' temp).
Proof.
  intros Hdate Hpcs. unfold update_contents_row. simpl. rewrite Hdate.
  rewrite decide_True by done. eexists. split; [done|].
  split; [|split].
  - rewrite dget_dset_eq. simpl. apply dget_dset_eq.
  - intros elem' Hne. rewrite dget_dset_eq. simpl.
    rewrite dget_dset_ne by done. by destruct (dget item temp).
  - intros item' Hne. by apply dget_dset_ne.
Qed.

Lemma update_contents_row_insert_witness :
  ∃ temp',
    update_contents_row (VStr "now") sample_contents
      {| cr_date := VNone; cr_item := Some "Widget"%string;
         cr_elem := Some "z"%string; cr_pcs := VInt 4 |} = (temp', VStr "now")
    ∧ dget "Widget" temp' ≫= dget "z" = Some (Qc_of_Z 4)
    ∧ (∀ elem', "z"%string ≠ elem' →
         dget "Widget" temp' ≫= dget elem'
         = dget "Widget" sample_contents ≫= dget elem')
    ∧ (∀ item', "Widget"%string ≠ item' →
         dget item' temp' = dget item' sample_contents).
Proof.
  apply (update_contents_row_insert (VStr "now") VNone sample_contents
           "Widget" "z" 4); [done | lia].
Defined.

(** X11.  Entering an element that the item does not have and deleting it
    with a count of 0 gives back the bill of materials as it was, in the
    same order; both rows are dated. *)
Theorem update_contents_insert_delete (now : value) (temp : dict (dict Qc))
    (item elem : string) (pcs : Z) :
  (0 < pcs)%Z →
  dget item temp ≫= dget elem = None → dget item temp ≠ Some [] →
  update_contents [contents_entry item elem pcs; contents_entry item elem 0]
    temp now = (temp, [now; now]).
Proof.
  intros Hpcs Habsent Hnonempty.
  unfold update_contents, update_contents_row, contents_entry. simpl.
  rewrite decide_True by done. simpl.
  rewrite dget_dset_eq, dget_dset_eq.
  destruct (dget item temp) as [elems|] eqn:Hitem; simpl in *.
  - apply dget_None_keys in Habsent.
    rewrite (dset_absent elem _ elems Habsent), ddel_app, (ddel_absent _ _ Habsent).
    simpl. rewrite decide_True by done. rewrite app_nil_r.
    destruct elems as [|kept elems]; [done|].
    rewrite dset_dset. f_equal. by apply dset_same.
  - rewrite decide_True by done. apply dget_None_keys in Hitem.
    rewrite (dset_absent item _ temp Hitem), ddel_app, (ddel_absent _ _ Hitem).
    simpl. rewrite decide_True by done. by rewrite app_nil_r.
Qed.

Lemma update_contents_insert_delete_witness :
  update_contents [contents_entry "Widget" "z" 4; contents_entry "Widget" "z" 0]
    sample_contents (VStr "now")
  = (sample_contents, [VStr "now"; VStr "now"]).
Proof.
  apply update_contents_insert_delete; [lia | by_compute | by_compute].
Defined.

(** The bill of materials changes only for a row that is not dated, has
    no empty cell and a whole number that is not negative as its count;
    that row is dated with the time of the run.  A row that is skipped or
    flagged leaves the bill of materials as it is. *)
Lemma update_contents_row_changes (now : value) (temp : dict (dict Qc))
    (r : contents_row) :
  (update_contents_row now temp r).1 ≠ temp →
  (update_contents_row now temp r).2 = now
  ∧ truthy (cr_date r) = false
  ∧ ∃ item elem pcs,
      cr_item r = Some item ∧ cr_elem r = Some elem ∧ cr_pcs r = VInt pcs
      ∧ (0 ≤ pcs)%Z.
Proof.
  unfold update_contents_row.
  destruct (truthy (cr_date r)); [done|].
  destruct (cr_item r) as [item|], (cr_elem r) as [elem|],
    (cr_pcs r) as [| |pcs| |]; try done.
  destruct (decide (0 < pcs)%Z); [|destruct (decide (pcs = 0)%Z)].
  - intros _. split; [done|]. split; [done|].
    exists item, elem, pcs. repeat split; [lia].
  - destruct (dget item temp) as [elems|]; [|done].
    destruct (dget elem elems); [|done].
    intros _. assert ((0 ≤ pcs)%Z) by lia.
    destruct (ddel elem elems); split; try done; split; try done;
      by exists item, elem, pcs.
  - done.
Qed.


(** *** A second run over the same worksheet *)

Lemma update_contents_row_dated (now : value) (temp : dict (dict Qc))
    (r : contents_row) :
  truthy now = true → truthy (update_contents_row now temp r).2 = true.
Proof.
  intros Hnow. unfold update_contents_row.
  destruct (truthy (cr_date r)) eqn:Hdate; [done|].
  destruct (cr_item r) as [item|], (cr_elem r) as [elem|],
    (cr_pcs r) as [| |pcs| |]; try done.
  destruct (decide (0 < pcs)%Z); [done|].
  destruct (decide (pcs = 0)%Z); [|done].
  destruct (dget item temp) as [elems|]; [|done].
  destruct (dget elem elems); [|done].
  by destruct (ddel elem elems).
Qed.

Lemma update_contents_dates (ws : list contents_row) (temp : dict (dict Qc))
    (now : value) :
  truthy now = true →
  length (update_contents ws temp now).2 = length ws
  ∧ Forall (λ date, truthy date = true) (update_contents ws temp now).2.
Proof.
  intros Hnow. revert temp. induction ws as [|r ws IH]; intros temp; [done|].
  simpl. pose proof (update_contents_row_dated now temp r Hnow) as Hr.
  destruct (update_contents_row now temp r) as [temp' date].
  destruct (IH temp') as [Hlen Hall].
  destruct (update_contents ws temp' now) as [temp'' dates]. simpl in *.
  split; [by rewrite Hlen | by constructor].
Qed.

Lemma update_contents_skip (ws : list contents_row) (temp : dict (dict Qc))
    (now : value) :
  Forall (λ r, truthy (cr_date r) = true) ws →
  update_contents ws temp now = (temp, cr_date <$> ws).
Proof.
  induction 1 as [|r ws Hr _ IH]; [done|].
  simpl. unfold update_contents_row. by rewrite Hr, IH.
Qed.

Lemma contents_dated_dates (ws : list contents_row) (dates : list value) :
  length dates = length ws → cr_date <$> contents_dated ws dates = dates.
Proof.
  revert dates. induction ws as [|r ws IH]; intros [|date dates]; try done.
  intros [= Hlen]. unfold contents_dated. csimpl. f_equal. by apply IH.
Qed.

(** X12.  Every row leaves a run of [update_contents] with a date cell that
    is not empty, so a second run over the worksheet skips every row: it
    returns the bill of materials it is given and leaves the dates. *)
Theorem update_contents_rerun (ws : list contents_row)
    (temp temp' : dict (dict Qc)) (now now' : value) :
  truthy now = true →
  length (update_contents ws temp now).2 = length ws
  ∧ update_contents (contents_dated ws (update_contents ws temp now).2) temp' now'
    = (temp', (update_contents ws temp now).2).
Proof.
  intros Hnow. destruct (update_contents_dates ws temp now Hnow) as [Hlen Hall].
  split; [done|]. rewrite update_contents_skip.
  - by rewrite contents_dated_dates.
  - rewrite <-(contents_dated_dates ws _ Hlen) in Hall.
    by apply Forall_fmap in Hall.
Qed.

Lemma update_contents_rerun_witness :
  length (update_contents sample_deletions sample_contents (VStr "now")).2
  = length sample_deletions
  ∧ update_contents
      (contents_dated sample_deletions
         (update_contents sample_deletions sample_contents (VStr "now")).2)
      sample_contents (VStr "later")
    = (sample_contents,
       (update_contents sample_deletions sample_contents (VStr "now")).2).
Proof. by apply update_contents_rerun. Defined.

(** *** The elements that are parts of other items *)

(** The body of the inner loop of the second loop of [update_contents]. *)
Lemma subitems_inner (item e : string) (ks : list string)
    (subitems : dict (list string)) :
  default [] (dget e (fold_left (λ subitems elem,
      if decide (elem ≠ item)
      then dset elem (default [] (dget elem subitems) ++ [item]) subitems
      else subitems) ks subitems))
  = default [] (dget e subitems)
    ++ ((λ _, item) <$> filter (λ k, k = e ∧ k ≠ item) ks).
Proof.
  revert subitems. induction ks as [|k ks IH]; intros subitems.
  - simpl. by rewrite app_nil_r.
  - cbn [fold_left]. rewrite IH, filter_cons.
    destruct (decide (k ≠ item)) as [Hk|Hk].
    + rewrite dget_dset. destruct (decide (k = e)) as [->|Hne].
      * rewrite decide_True by done. simpl. by rewrite <-app_assoc.
      * rewrite decide_False by (by intros [? _]). done.
    + rewrite decide_False by (by intros [_ ?]). done.
Qed.

Lemma subitems_outer (temp : dict (dict Qc)) (e : string)
    (subitems : dict (list string)) :
  default [] (dget e (fold_left (λ subitems '(item, elems),
      fold_left (λ subitems elem,
        if decide (elem ≠ item)
        then dset elem (default [] (dget elem subitems) ++ [item]) subitems
        else subitems) (keys elems) subitems) temp subitems))
  = default [] (dget e subitems)
    ++ (temp ≫= λ entry,
          (λ _, entry.1) <$> filter (λ k, k = e ∧ k ≠ entry.1) (keys entry.2)).
Proof.
  revert subitems. induction temp as [|[item elems] temp IH]; intros subitems.
  - simpl. by rewrite app_nil_r.
  - cbn [fold_left]. rewrite IH, subitems_inner. csimpl.
    by rewrite <-app_assoc.
Qed.

Lemma subitems_inner_nonempty (item : string) (ks : list string)
    (subitems : dict (list string)) :
  Forall (λ entry, entry.2 ≠ []) subitems →
  Forall (λ entry, entry.2 ≠ []) (fold_left (λ subitems elem,
      if decide (elem ≠ item)
      then dset elem (default [] (dget elem subitems) ++ [item]) subitems
      else subitems) ks subitems).
Proof.
  revert subitems. induction ks as [|k ks IH]; intros subitems Hs; [done|].
  cbn [fold_left]. apply IH. case_decide; [|done].
  apply Forall_dset; [done|]. simpl. by intros [_ ?]%app_eq_nil.
Qed.

Lemma subitems_outer_nonempty (temp : dict (dict Qc))
    (subitems : dict (list string)) :
  Forall (λ entry, entry.2 ≠ []) subitems →
  Forall (λ entry, entry.2 ≠ []) (fold_left (λ subitems '(item, elems),
      fold_left (λ subitems elem,
        if decide (elem ≠ item)
        then dset elem (default [] (dget elem subitems) ++ [item]) subitems
        else subitems) (keys elems) subitems) temp subitems).
Proof.
  revert subitems. induction temp as [|[item elems] temp IH]; intros subitems Hs;
    [done|].
  cbn [fold_left]. apply IH. by apply subitems_inner_nonempty.
Qed.

Lemma subitems_of_nonempty (temp : dict (dict Qc)) :
  Forall (λ entry, entry.2 ≠ []) (subitems_of temp).
Proof. apply subitems_outer_nonempty. constructor. Qed.

Lemma subitems_of_items (temp : dict (dict Qc)) (elem item : string) :
  item ∈ default [] (dget elem (subitems_of temp))
  ↔ item ≠ elem ∧ ∃ elems, (item, elems) ∈ temp ∧ elem ∈ keys elems.
Proof.
  unfold subitems_of. rewrite subitems_outer. simpl. split.
  - intros ([item' elems] & Hin & Htemp)%list_elem_of_bind.
    apply list_elem_of_fmap in Hin as (k & -> & Hk). simpl in *.
    apply list_elem_of_filter in Hk as [[-> Hne] Hk].
    split; [done|]. by exists elems.
  - intros (Hne & elems & Htemp & Helem).
    apply list_elem_of_bind. exists (item, elems). split; [|done]. simpl.
    apply list_elem_of_fmap. exists elem. split; [done|].
    apply list_elem_of_filter. split; [|done]. split; [done|]. congruence.
Qed.

(** X13.  What [update_contents] dumps as subitems: an element is given the
    items, other than the element itself, that have it among their elements,
    and no other; no element is given an empty list. *)
Theorem subitems_of_spec (temp : dict (dict Qc)) (elem item : string) :
  (item ∈ default [] (dget elem (subitems_of temp))
   ↔ item ≠ elem ∧ ∃ elems, (item, elems) ∈ temp ∧ elem ∈ keys elems)
  ∧ dget elem (subitems_of temp) ≠ Some [].
Proof.
  split; [apply subitems_of_items|].
  intros Hget. apply dget_Some_elem_of in Hget.
  pose proof (subitems_of_nonempty temp) as Hall.
  by eapply Forall_forall in Hall; [|exact Hget].
Qed.

(** ** update_preforms and update_feedstock *)

Lemma positive_number_not_none (v : value) : positive_number v → is_none v = false.
Proof. intros (q & Hq & _). by destruct v. Qed.

Lemma is_none_false (v : value) : is_none v = false ↔ v ≠ VNone.
Proof. by destruct v. Qed.

(** The loop over the numbers comes to its [else] when every cell holds a
    number above 0. *)
Lemma check_numbers_None (cells : list value) :
  check_numbers cells = None ↔ Forall positive_number cells.
Proof.
  induction cells as [|x cells IH]; [done|]. simpl. rewrite Forall_cons.
  unfold positive_number at 1.
  destruct (number_of x) as [q|]; [|by split; [|intros [(q & ? & _) _]]].
  case_decide as Hq.
  - split; [done|]. intros [(q' & [= <-] & Hpos) _].
    by apply Qclt_not_le in Hpos.
  - rewrite IH. split; [|by intros [_ ?]].
    intros Hcells. split; [|done]. exists q. split; [done|].
    by apply Qcnot_le_lt.
Qed.

(** The flag of the loop over the numbers is that of the first cell that
    does not hold a number above 0. *)
Lemma check_numbers_first (pre post : list value) (x : value) :
  Forall positive_number pre → ¬ positive_number x →
  check_numbers (pre ++ x :: post)
  = Some (match number_of x with
          | Some _ => "ValueError"%string
          | None => "TypeError"%string
          end).
Proof.
  intros Hpre Hx. induction Hpre as [|y pre (q & Hq & Hpos) _ IH]; simpl.
  - destruct (number_of x) as [q|] eqn:Hq; [|done].
    rewrite decide_True; [done|]. apply Qcnot_lt_le. intros Hpos.
    apply Hx. by exists q.
  - rewrite Hq. by rewrite decide_False by by apply Qclt_not_le.
Qed.

Lemma existsb_is_none_false (cells : list value) :
  existsb is_none cells = false ↔ Forall (λ v, v ≠ VNone) cells.
Proof.
  induction cells as [|x cells IH]; [done|]. simpl.
  rewrite orb_false_iff, Forall_cons, IH, is_none_false. done.
Qed.

Lemma existsb_is_none_positive (cells : list value) :
  Forall positive_number cells → existsb is_none cells = false.
Proof.
  intros H. apply existsb_is_none_false. eapply Forall_impl; [exact H|].
  intros v Hv%positive_number_not_none. by apply is_none_false.
Qed.

(** X14.  A row of the preforms tab is stored when it is not dated, has no
    empty cell and only numbers above 0 as its shape: the record of the
    element is then replaced as a whole, the other records are as they were,
    and the row is dated. Any other row leaves the table as it is; when it
    is the shape that is at fault, the row is flagged for the first cell of
    it that is not a number above 0, TypeError for a cell that is not a
    number, ValueError for the others. *)
Theorem update_preforms_row_effect (now : value) (temp : dict (dict value))
    (r : preforms_row) :
  (preforms_row_valid r →
   ∃ elem,
     pr_elem r = Some elem
     ∧ update_preforms_row now temp r
       = (dset elem (zip PREFORMS_HEADERS (pr_shape r ++ [pr_sheet r])) temp, now)
     ∧ dget elem (update_preforms_row now temp r).1
       = Some (zip PREFORMS_HEADERS (pr_shape r ++ [pr_sheet r]))
     ∧ ∀ elem', elem ≠ elem' →
         dget elem' (update_preforms_row now temp r).1 = dget elem' temp)
  ∧ (¬ preforms_row_valid r → (update_preforms_row now temp r).1 = temp)
  ∧ (∀ pre x post,
       truthy (pr_date r) = false → is_Some (pr_elem r) →
       existsb is_none (pr_shape r ++ [pr_sheet r]) = false →
       pr_shape r = pre ++ x :: post →
       Forall positive_number pre → ¬ positive_number x →
       update_preforms_row now temp r
       = (temp, VStr (match number_of x with
                    | Some _ => "ValueError"
                    | None => "TypeError"
                    end))).
Proof.
  split; [|split].
  - intros (Hdate & [elem Helem] & Hsheet & Hshape). exists elem.
    assert (update_preforms_row now temp r
            = (dset elem (zip PREFORMS_HEADERS (pr_shape r ++ [pr_sheet r]))
                 temp, now)) as Heq.
    { unfold update_preforms_row. rewrite Hdate, Helem.
      rewrite (proj2 (existsb_is_none_false _)).
      - by rewrite (proj2 (check_numbers_None _) Hshape).
      - apply Forall_app. split.
        + by apply existsb_is_none_false, existsb_is_none_positive.
        + by repeat constructor. }
    rewrite Heq. simpl. split; [done|]. split; [done|].
    split; [apply dget_dset_eq|]. intros elem' Hne. by apply dget_dset_ne.
  - intros Hinvalid. unfold update_preforms_row.
    destruct (truthy (pr_date r)) eqn:Hdate; [done|].
    destruct (pr_elem r) as [elem|] eqn:Helem; [|done].
    destruct (existsb is_none (pr_shape r ++ [pr_sheet r])) eqn:Hnone; [done|].
    destruct (check_numbers (pr_shape r)) eqn:Hcheck; [done|].
    exfalso. apply Hinvalid. split; [done|]. split; [by exists elem|].
    rewrite existsb_is_none_false, Forall_app, Forall_singleton in Hnone.
    destruct Hnone as [_ Hsheet]. split; [done|].
    by apply check_numbers_None.
  - intros pre x post Hdate [elem Helem] Hnone Hshape Hpre Hx.
    unfold update_preforms_row. rewrite Hdate, Helem, Hnone, Hshape.
    by rewrite (check_numbers_first pre post x Hpre Hx).
Qed.

(** X15.  Rows of two numbers keep a table of preforms in which every record
    gives positive numbers as [a] and [b] and names a sheet; and
    [update_preforms] never takes an element out of the table. *)
Theorem update_preforms_keeps_valid (ws : list preforms_row)
    (temp : dict (dict value)) (now : value) :
  Forall (λ r, length (pr_shape r) = 2%nat) ws →
  preforms_ok temp →
  preforms_ok (update_preforms ws temp now).1
  ∧ keys temp ⊆ keys (update_preforms ws temp now).1.
Proof.
  intros Hws. revert temp. unfold update_preforms.
  induction Hws as [|r ws Hr _ IH]; intros temp Hok; [done|].
  cbn [over_rows].
  assert (preforms_ok (update_preforms_row now temp r).1
          ∧ keys temp ⊆ keys (update_preforms_row now temp r).1) as [Hok' Hkeys].
  { unfold update_preforms_row.
    destruct (truthy (pr_date r)); [done|].
    destruct (pr_elem r) as [elem|]; [|done].
    destruct (existsb is_none (pr_shape r ++ [pr_sheet r])) eqn:Hnone; [done|].
    destruct (check_numbers (pr_shape r)) eqn:Hcheck; [done|]. simpl.
    apply check_numbers_None in Hcheck.
    rewrite existsb_is_none_false, Forall_app, Forall_singleton in Hnone.
    destruct Hnone as [_ Hsheet].
    split.
    - apply Forall_dset; [done|]. simpl.
      destruct (pr_shape r) as [|a [|b [|c shape]]]; try done.
      apply Forall_cons in Hcheck as [Ha Hcheck].
      apply Forall_cons in Hcheck as [Hb _].
      by exists a, b, (pr_sheet r).
    - rewrite keys_dset. case_decide; [done|].
      intros k Hk. apply elem_of_app. by left. }
  destruct (update_preforms_row now temp r) as [temp' date].
  destruct (IH temp' Hok') as [Hok'' Hkeys'].
  destruct (over_rows (update_preforms_row now) ws temp') as [temp'' dates].
  simpl in *. split; [done|]. by trans (keys temp').
Qed.

Lemma update_preforms_keeps_valid_witness :
  preforms_ok (update_preforms sample_preforms_rows [] (VStr "now")).1
  ∧ keys ([] : dict (dict value))
    ⊆ keys (update_preforms sample_preforms_rows [] (VStr "now")).1.
Proof.
  apply update_preforms_keeps_valid.
  - by repeat constructor.
  - constructor.
Defined.

(** X16.  A row of the feedstock tab is stored when it is not dated, has no
    empty cell and only numbers above 0 as its parameters: the record of the
    sheet is then replaced as a whole, the other records are as they were,
    and the row is dated. Any other row leaves the table as it is; when the
    parameters are at fault, the row is flagged for the first of them that
    is not a number above 0, TypeError for a cell that is not a number,
    ValueError for the others. *)
Theorem update_feedstock_row_effect (now : value) (temp : dict (dict value))
    (r : feedstock_row) :
  (feedstock_row_valid r →
   ∃ sheet,
     fr_sheet r = Some sheet
     ∧ update_feedstock_row now temp r
       = (dset sheet (zip FEEDSTOCK_HEADERS (fr_params r)) temp, now)
     ∧ dget sheet (update_feedstock_row now temp r).1
       = Some (zip FEEDSTOCK_HEADERS (fr_params r))
     ∧ ∀ sheet', sheet ≠ sheet' →
         dget sheet' (update_feedstock_row now temp r).1 = dget sheet' temp)
  ∧ (¬ feedstock_row_valid r → (update_feedstock_row now temp r).1 = temp)
  ∧ (∀ pre x post,
       truthy (fr_date r) = false → is_Some (fr_sheet r) →
       existsb is_none (fr_params r) = false →
       fr_params r = pre ++ x :: post →
       Forall positive_number pre → ¬ positive_number x →
       update_feedstock_row now temp r
       = (temp, VStr (match number_of x with
                    | Some _ => "ValueError"
                    | None => "TypeError"
                    end))).
Proof.
  split; [|split].
  - intros (Hdate & [sheet Hsheet] & Hparams). exists sheet.
    assert (update_feedstock_row now temp r
            = (dset sheet (zip FEEDSTOCK_HEADERS (fr_params r)) temp, now))
      as Heq.
    { unfold update_feedstock_row. rewrite Hdate, Hsheet.
      rewrite (existsb_is_none_positive _ Hparams).
      by rewrite (proj2 (check_numbers_None _) Hparams). }
    rewrite Heq. simpl. split; [done|]. split; [done|].
    split; [apply dget_dset_eq|]. intros sheet' Hne. by apply dget_dset_ne.
  - intros Hinvalid. unfold update_feedstock_row.
    destruct (truthy (fr_date r)) eqn:Hdate; [done|].
    destruct (fr_sheet r) as [sheet|] eqn:Hsheet; [|done].
    destruct (existsb is_none (fr_params r)) eqn:Hnone; [done|].
    destruct (check_numbers (fr_params r)) eqn:Hcheck; [done|].
    exfalso. apply Hinvalid. split; [done|]. split; [by exists sheet|].
    by apply check_numbers_None.
  - intros pre x post Hdate [sheet Hsheet] Hnone Hparams Hpre Hx.
    unfold update_feedstock_row. rewrite Hdate, Hsheet, Hnone, Hparams.
    by rewrite (check_numbers_first pre post x Hpre Hx).
Qed.

Lemma Forall_zip_snd {A B} (P : B → Prop) (l : list A) (k : list B) :
  Forall P k → Forall (λ entry, P entry.2) (zip l k).
Proof.
  intros Hk. revert l. induction Hk as [|y k Hy _ IH]; intros [|x l];
    try constructor; [done|]. apply IH.
Qed.

(** X17.  A table of feedstock that holds numbers above 0 only keeps doing
    so, whatever the worksheet; and [update_feedstock] never takes a sheet
    out of the table. *)
Theorem update_feedstock_keeps_valid (ws : list feedstock_row)
    (temp : dict (dict value)) (now : value) :
  feedstock_ok temp →
  feedstock_ok (update_feedstock ws temp now).1
  ∧ keys temp ⊆ keys (update_feedstock ws temp now).1.
Proof.
  revert temp. unfold update_feedstock.
  induction ws as [|r ws IH]; intros temp Hok; [done|].
  cbn [over_rows].
  assert (feedstock_ok (update_feedstock_row now temp r).1
          ∧ keys temp ⊆ keys (update_feedstock_row now temp r).1)
    as [Hok' Hkeys].
  { unfold update_feedstock_row.
    destruct (truthy (fr_date r)); [done|].
    destruct (fr_sheet r) as [sheet|]; [|done].
    destruct (existsb is_none (fr_params r)); [done|].
    destruct (check_numbers (fr_params r)) eqn:Hcheck; [done|]. cbn [fst snd].
    apply check_numbers_None in Hcheck. split.
    - apply Forall_dset; [done|]. cbn [snd]. by apply Forall_zip_snd.
    - rewrite keys_dset. case_decide; [done|].
      intros k Hk. apply elem_of_app. by left. }
  destruct (update_feedstock_row now temp r) as [temp' date].
  destruct (IH temp' Hok') as [Hok'' Hkeys'].
  destruct (over_rows (update_feedstock_row now) ws temp') as [temp'' dates].
  simpl in *. split; [done|]. by trans (keys temp').
Qed.

Lemma update_feedstock_keeps_valid_witness :
  feedstock_ok (update_feedstock sample_feedstock_rows [] (VStr "now")).1
  ∧ keys ([] : dict (dict value))
    ⊆ keys (update_feedstock sample_feedstock_rows [] (VStr "now")).1.
Proof. apply update_feedstock_keeps_valid. constructor. Defined.

(** ** More on calculate_sheets_number *)

Lemma flat_mapM_runs {A B} (f : A → result (list B)) (l : list A) :
  Forall (λ x, ∃ ys, f x = Ok ys) l → ∃ ys, flat_mapM f l = Ok ys.
Proof.
  induction 1 as [|x l [ys Hx] _ [zs IH]]; [by eexists|].
  simpl. rewrite Hx, IH. by eexists.
Qed.

Lemma counter_update_single (c : dict Qc) (elem : string) (v : Qc) :
  ∃ w, counter_update c [(elem, v)] = dset elem w c.
Proof. destruct c; by eexists. Qed.

Lemma elem_of_keys_dget {V} (k : string) (d : dict V) :
  k ∈ keys d ↔ is_Some (dget k d).
Proof.
  rewrite <-not_eq_None_Some, dget_None_keys.
  split; [by intros ? ?|]. intros H. by destruct (decide (k ∈ keys d)).
Qed.

Lemma sort_nested_dict_elem_of {V} (temp : dict (dict V)) (sheet : string)
    (sd : dict V) :
  (sheet, sd) ∈ temp → (sheet, sorted_items sd) ∈ sort_nested_dict temp.
Proof.
  intros Hin. unfold sort_nested_dict.
  rewrite (sorted_items_perm (prod_map id sorted_items <$> temp)).
  apply list_elem_of_fmap. by exists (sheet, sd).
Qed.

Lemma bucket_elems_keys (mode : string) (modedict : dict Qc) :
  mode = "grouped"%string ∨ mode = "single"%string →
  bucket_elems mode modedict ≡ₚ keys modedict.
Proof.
  intros [->| ->]; unfold bucket_elems; simpl.
  - rewrite spread_delta_keys. unfold keys.
    apply fmap_Permutation, sorted_by_delta_perm.
  - by rewrite ceil_dict_values_keys.
Qed.

Section calculate_more.

Variable t : tables.
Variable grouped : list string.
Variable now : string.

(** *** What the first loop keeps true *)

Lemma add_pass_buckets_ok (temp temp' : buckets) (memo memo' : dict memo_entry)
    (p : pass) :
  add_pass t grouped (temp, memo) p = Ok (temp', memo') →
  buckets_ok temp memo → buckets_ok temp' memo'.
Proof.
  unfold add_pass, add_elem.
  destruct (dget (ps_elem p) (preforms t)) as [pf|]; [|done]. simpl.
  destruct (get_pps _ _ _ _) as [pps|]; [|done]. simpl.
  destruct (truediv _ _) as [v|]; [|done]. simpl.
  set (mode := if has_marker (ps_item p) grouped then _ else _).
  set (entry := {| m_pps := _ |}).
  intros [= <- <-] [Hsheets Hall].
  assert (∀ e, is_Some (dget e memo) → is_Some (dget e (dset (ps_elem p) entry memo)))
    as Hmemo.
  { intros e He. rewrite dget_dset. by case_decide. }
  assert (Forall (λ sheet : string * dict (dict Qc),
      NoDup (keys sheet.2)
      ∧ Forall (λ mode : string * dict Qc,
          (mode.1 = "grouped"%string ∨ mode.1 = "single"%string)
          ∧ NoDup (keys mode.2)
          ∧ Forall (λ elem, is_Some (dget elem (dset (ps_elem p) entry memo)))
              (keys mode.2)) sheet.2) temp) as Hall'.
  { eapply Forall_impl; [exact Hall|]. intros sheet [Hmodes Hsheet].
    split; [done|]. eapply Forall_impl; [exact Hsheet|].
    intros md (Hmode & Helems & Hmd). split; [done|]. split; [done|].
    eapply Forall_impl; [exact Hmd|]. apply Hmemo. }
  split; [by apply NoDup_keys_dset|].
  apply Forall_dset; [done|]. cbn [snd].
  assert (NoDup (keys (default [] (dget (psheet pf) temp)))
          ∧ Forall (λ mode : string * dict Qc,
              (mode.1 = "grouped"%string ∨ mode.1 = "single"%string)
              ∧ NoDup (keys mode.2)
              ∧ Forall (λ elem, is_Some (dget elem (dset (ps_elem p) entry memo)))
                  (keys mode.2))
              (default [] (dget (psheet pf) temp))) as [Hmodes Hsheet].
  { destruct (dget (psheet pf) temp) as [sd|] eqn:Hsd; simpl.
    - apply (Forall_dget _ _ _ _ Hall' Hsd).
    - split; [apply NoDup_nil_2 | constructor]. }
  split; [by apply NoDup_keys_dset|].
  apply Forall_dset; [done|]. cbn [fst snd].
  split; [subst mode; destruct (has_marker _ _); auto|].
  assert (NoDup (keys (default [] (dget mode
            (default [] (dget (psheet pf) temp)))))
          ∧ Forall (λ elem, is_Some (dget elem (dset (ps_elem p) entry memo)))
              (keys (default [] (dget mode
                 (default [] (dget (psheet pf) temp)))))) as [Helems Hmd].
  { destruct (dget mode (default [] (dget (psheet pf) temp))) as [md|] eqn:Hmd;
      simpl.
    - by destruct (Forall_dget _ _ _ _ Hsheet Hmd) as (_ & ? & ?).
    - split; [apply NoDup_nil_2 | constructor]. }
  destruct (counter_update_single
              (default [] (dget mode (default [] (dget (psheet pf) temp))))
              (ps_elem p) v) as [w ->].
  split; [by apply NoDup_keys_dset|].
  rewrite keys_dset. case_decide; [done|].
  apply Forall_app. split; [done|]. repeat constructor.
  by rewrite dget_dset_eq.
Qed.

Lemma foldM_buckets_ok (ps : list pass) (st st' : state) :
  foldM (add_pass t grouped) st ps = Ok st' →
  buckets_ok st.1 st.2 → buckets_ok st'.1 st'.2.
Proof.
  revert st. induction ps as [|p ps IH]; intros [temp memo].
  - by intros [= <-].
  - cbn [foldM].
    destruct (add_pass t grouped (temp, memo) p) as [[temp1 memo1]|] eqn:Hp;
      [|done]. simpl. intros Hps Hok. apply (IH _ Hps). simpl.
    by eapply add_pass_buckets_ok.
Qed.

Lemma buckets_ok_nil : buckets_ok [] [].
Proof. split; [apply NoDup_nil_2 | constructor]. Qed.

Lemma aggregate_buckets_ok (rows : list demand_row) (st : state)
    (dates : list value) :
  aggregate t grouped now rows = Ok (st, dates) → buckets_ok st.1 st.2.
Proof.
  intros Hrun%aggregate_passes.
  apply (foldM_buckets_ok _ _ _ Hrun). apply buckets_ok_nil.
Qed.

(** The second loop finds the function of every mode and the memo entry
    of every element: it does not raise. *)
Lemma report_of_runs (temp : buckets) (memo : dict memo_entry) :
  buckets_ok temp memo → ∃ report, report_of now temp memo = Ok report.
Proof.
  intros [_ Hall]. unfold report_of. apply flat_mapM_runs, Forall_forall.
  intros [sheet sheetdict] (sd & Hsd & ->)%sort_nested_dict_elem.
  eapply Forall_forall in Hall as [_ Hsheet]; [|exact Hsd]. simpl in Hsheet.
  apply flat_mapM_runs, Forall_forall.
  intros [mode modedict] Hmd. rewrite sorted_items_perm in Hmd.
  eapply Forall_forall in Hsheet as (Hmode & _ & Helems); [|exact Hmd].
  simpl in Hmode, Helems. unfold report_bucket.
  pose proof (bucket_elems_keys mode modedict Hmode) as Hkeys.
  unfold bucket_elems in Hkeys.
  destruct (dget mode transformer) as [f|] eqn:Hf;
    [|destruct Hmode as [->| ->]; discriminate Hf].
  simpl. apply flat_mapM_runs, Forall_forall.
  intros [elem sheets_n] Hin.
  assert (elem ∈ keys modedict) as Helem.
  { rewrite <-Hkeys. unfold keys. apply list_elem_of_fmap.
    by exists (elem, sheets_n). }
  eapply Forall_forall in Helems as [m Hm]; [|exact Helem].
  rewrite Hm. simpl. by eexists.
Qed.


(** *** When the run raises *)

(** A pass of the inner loop succeeds or raises as [pass_sheets] does: the
    pps the memo holds is the one [get_pps] computes. *)
Lemma add_pass_outcome (temp : buckets) (memo : dict memo_entry) (p : pass) :
  memo_ok t memo →
  match add_pass t grouped (temp, memo) p, pass_sheets t grouped p with
  | Ok _, Ok _ => True
  | Raise e, Raise e' => e = e'
  | _, _ => False
  end.
Proof.
  intros Hmemo. unfold add_pass, add_elem, pass_sheets.
  destruct (dget (ps_elem p) (preforms t)) as [pf|] eqn:Hpf; [|done]. simpl.
  destruct (get_pps (pa pf) (pb pf) (psheet pf) (feedstock t)) as [pps|]
    eqn:Hpps; [|done]. simpl.
  assert (from_option m_pps pps (dget (ps_elem p) memo) = pps) as ->.
  { destruct (dget (ps_elem p) memo) as [m|] eqn:Hm; [|done]. simpl.
    destruct (Hmemo _ _ Hm) as (pf' & Hpf' & Hpps'). congruence. }
  by destruct (truediv (Qc_of_Z (ps_qty p) * ps_pcs p) pps).
Qed.

Lemma foldM_add_pass_raises (ps : list pass) (st : state) (e : exn) :
  memo_ok t st.2 →
  foldM (add_pass t grouped) st ps = Raise e
  ↔ ∃ ps1 p ps2,
      ps = ps1 ++ p :: ps2
      ∧ Forall (λ q, ∃ x, pass_sheets t grouped q = Ok x) ps1
      ∧ pass_sheets t grouped p = Raise e.
Proof.
  revert st. induction ps as [|p ps IH]; intros [temp memo] Hmemo.
  - split; [done|]. by intros ([|??] & ? & ? & ? & _).
  - cbn [foldM]. pose proof (add_pass_outcome temp memo p Hmemo) as Hout.
    destruct (add_pass t grouped (temp, memo) p) as [[temp1 memo1]|e1] eqn:Hp;
      simpl.
    + destruct (add_pass_ok _ _ _ _ _ _ _ Hmemo Hp) as (Hmemo1 & Hx & _).
      rewrite (IH (temp1, memo1) Hmemo1). split.
      * intros (ps1 & q & ps2 & -> & Hps1 & Hq).
        exists (p :: ps1), q, ps2. split; [done|]. split; [by constructor|done].
      * intros ([|p' ps1] & q & ps2 & Heq & Hps1 & Hq); simplify_eq/=.
        -- destruct Hx as [x Hx]. congruence.
        -- apply Forall_cons in Hps1 as [_ Hps1]. by exists ps1, q, ps2.
    + destruct (pass_sheets t grouped p) as [x|e'] eqn:Hsheets; [done|].
      subst e'. split.
      * intros [= <-]. exists [], p, ps. by repeat split.
      * intros ([|p' ps1] & q & ps2 & Heq & Hps1 & Hq); simplify_eq/=.
        -- congruence.
        -- apply Forall_cons in Hps1 as [[x Hx] _]. congruence.
Qed.

Lemma calculate_raises_aggregate (rows : list demand_row) (e : exn) :
  calculate_sheets_number t grouped now rows = Raise e
  ↔ aggregate t grouped now rows = Raise e.
Proof.
  unfold calculate_sheets_number.
  destruct (aggregate t grouped now rows) as [[st dates]|e'] eqn:Hrun;
    [|simpl; split; by intros [= ->]].
  simpl. destruct (report_of_runs st.1 st.2) as [report ->];
    [by eapply aggregate_buckets_ok | done].
Qed.

Lemma pass_sheets_raises (p : pass) (e : exn) :
  pass_sheets t grouped p = Raise e
  ↔ (dget (ps_elem p) (preforms t) = None ∧ e = KeyError)
    ∨ ∃ pf,
        dget (ps_elem p) (preforms t) = Some pf
        ∧ (get_pps (pa pf) (pb pf) (psheet pf) (feedstock t) = Raise e
           ∨ (get_pps (pa pf) (pb pf) (psheet pf) (feedstock t) = Ok 0
              ∧ e = ZeroDivisionError)).
Proof.
  unfold pass_sheets.
  destruct (dget (ps_elem p) (preforms t)) as [pf|]; simpl.
  - destruct (get_pps (pa pf) (pb pf) (psheet pf) (feedstock t)) as [pps|e']
      eqn:Hpps; simpl.
    + unfold truediv. case_decide as Hzero; simpl.
      * subst pps. split.
        -- intros [= <-]. right. exists pf. split; [done|]. by right.
        -- intros [[? _]|(pf' & [= <-] & [?|[_ ->]])]; [done|congruence|done].
      * split; [done|].
        intros [[? _]|(pf' & [= <-] & [?|[? _]])]; congruence.
    + split.
      * intros [= <-]. right. exists pf. split; [done|]. by left.
      * intros [[? _]|(pf' & [= <-] & [?|[? _]])]; congruence.
  - split.
    + intros [= <-]. by left.
    + intros [[_ ->]|(pf' & ? & _)]; done.
Qed.

(** X18.  [calculate_sheets_number] raises when a pass of the inner loop of
    its first loop raises, with the exception of the first pass that does,
    and in no other case: the second loop raises nothing. A pass raises
    KeyError when its element has no preform, what [get_pps] raises when
    that raises, and ZeroDivisionError when the pps is 0. *)
Theorem calculate_raises (rows : list demand_row) (e : exn) :
  (calculate_sheets_number t grouped now rows = Raise e
   ↔ ∃ ps1 p ps2,
       passes t rows = ps1 ++ p :: ps2
       ∧ Forall (λ q, ∃ x, pass_sheets t grouped q = Ok x) ps1
       ∧ pass_sheets t grouped p = Raise e)
  ∧ ∀ p,
      pass_sheets t grouped p = Raise e
      ↔ (dget (ps_elem p) (preforms t) = None ∧ e = KeyError)
        ∨ ∃ pf,
            dget (ps_elem p) (preforms t) = Some pf
            ∧ (get_pps (pa pf) (pb pf) (psheet pf) (feedstock t) = Raise e
               ∨ (get_pps (pa pf) (pb pf) (psheet pf) (feedstock t) = Ok 0
                  ∧ e = ZeroDivisionError)).
Proof.
  split; [|intros p; apply pass_sheets_raises].
  rewrite calculate_raises_aggregate, <-(foldM_add_pass_raises _ ([], []))
    by apply memo_ok_nil.
  unfold aggregate. rewrite <-(aggregate_from_passes t grouped now).
  destruct (aggregate_from t grouped now ([], []) rows) as [[st dates]|];
    simpl; split; by intros [= ->].
Qed.

(** *** Tables that fit together *)

Lemma passes_elem (rows : list demand_row) (p : pass) :
  p ∈ passes t rows →
  ∃ elems, dget (ps_item p) (contents t) = Some elems
           ∧ (ps_elem p, ps_pcs p) ∈ elems ∧ (0 < ps_qty p)%Z.
Proof.
  unfold passes. intros (r & Hp & _)%list_elem_of_bind.
  unfold demand_entry, known_item in Hp.
  destruct (truthy (dr_date r)); [by apply elem_of_nil in Hp|].
  destruct (dr_item r) as [item|]; [|by apply elem_of_nil in Hp]. simpl in Hp.
  destruct (dget item (contents t)) as [elems|] eqn:Hitem;
    [|by apply elem_of_nil in Hp]. simpl in Hp.
  destruct (dr_qty r) as [| |qty| |]; try by apply elem_of_nil in Hp.
  case_decide; [by apply elem_of_nil in Hp|].
  apply list_elem_of_fmap in Hp as ([elem pcs] & -> & Hin). simpl.
  exists elems. split; [done|]. split; [done|lia].
Qed.

Lemma elem_ok_pps (elem : string) :
  elem_ok t elem →
  ∃ pf n, dget elem (preforms t) = Some pf
          ∧ get_pps (pa pf) (pb pf) (psheet pf) (feedstock t) = Ok (Qc_of_Z n)
          ∧ (1 ≤ n)%Z.
Proof.
  intros (pf & s & Hpf & Hs & Ha & Hb & _ & _ & Hfits).
  destruct (get_pps_fitting (pa pf) (pb pf) (psheet pf) (feedstock t) s)
    as (n & Hpps & Hn); try done.
  by exists pf, n.
Qed.

Lemma Qc_of_Z_pos (n : Z) : (1 ≤ n)%Z → 0 < Qc_of_Z n.
Proof. intros H. rewrite <-Z2Qc_inj_0, <-Z2Qc_inj_lt. lia. Qed.

Lemma elem_ok_pass_sheets (p : pass) :
  elem_ok t (ps_elem p) → ∃ x, pass_sheets t grouped p = Ok x.
Proof.
  intros (pf & n & Hpf & Hpps & Hn)%elem_ok_pps.
  unfold pass_sheets. rewrite Hpf. simpl. rewrite Hpps. simpl.
  unfold truediv. rewrite decide_False; [by eexists|].
  intros H0. pose proof (Qc_of_Z_pos n Hn) as Hpos. rewrite H0 in Hpos.
  by apply (Qclt_not_eq 0 0).
Qed.

Lemma tables_ok_passes (rows : list demand_row) :
  tables_ok t →
  Forall (λ p, elem_ok t (ps_elem p)) (passes t rows).
Proof.
  intros Hok. apply Forall_forall. intros p (elems & Hitem & Hin & _)%passes_elem.
  pose proof (Forall_dget _ _ _ _ Hok Hitem) as Helems. simpl in Helems.
  by eapply Forall_forall in Helems; [|exact Hin].
Qed.

Lemma aggregate_from_length (st st' : state) (rows : list demand_row)
    (dates : list value) :
  aggregate_from t grouped now st rows = Ok (st', dates) →
  length dates = length rows.
Proof.
  revert st dates. induction rows as [|r rows IH]; intros st dates.
  - by intros [= _ <-].
  - simpl. destruct (demand_step t grouped now st r) as [[st1 date]|]; [|done].
    simpl.
    destruct (aggregate_from t grouped now st1 rows) as [[st2 dates']|] eqn:Hrows;
      [|done]. simpl. intros [= <- <-]. simpl. f_equal. by eapply IH.
Qed.

(** X19.  With tables that fit together [calculate_sheets_number] raises
    nothing, whatever the demand: it returns a report, and a date cell for
    every row of the demand. *)
Theorem calculate_total (rows : list demand_row) :
  tables_ok t →
  ∃ report dates,
    calculate_sheets_number t grouped now rows = Ok (report, dates)
    ∧ length dates = length rows.
Proof.
  intros Hok.
  destruct (foldM_add_pass_runs t grouped (passes t rows) ([], []))
    as [st Hfold].
  { apply memo_ok_nil. }
  { eapply Forall_impl; [by apply tables_ok_passes|].
    intros p. apply elem_ok_pass_sheets. }
  rewrite <-(aggregate_from_passes t grouped now) in Hfold.
  fold (aggregate t grouped now rows) in Hfold.
  destruct (aggregate t grouped now rows) as [[st' dates]|] eqn:Hrun; [|done].
  injection Hfold as ->.
  destruct (report_of_runs st.1 st.2) as [report Hreport].
  { by eapply aggregate_buckets_ok. }
  exists report, dates. split.
  - unfold calculate_sheets_number. rewrite Hrun. simpl. by rewrite Hreport.
  - by eapply aggregate_from_length.
Qed.

(** *** A second run over the same demand *)

Lemma demand_step_dated (st st' : state) (r : demand_row) (date : value) :
  now ≠ ""%string →
  demand_step t grouped now st r = Ok (st', date) → truthy date = true.
Proof.
  intros Hnow. unfold demand_step.
  destruct (truthy (dr_date r)) eqn:Hdate; [by intros [= _ <-]|].
  destruct (known_item t r) as [[item elems]|]; [|by intros [= _ <-]].
  assert (truthy (VStr now) = true) as Htruthy.
  { simpl. by rewrite bool_decide_eq_false_2. }
  destruct (dr_qty r) as [| |qty| |]; try by intros [= _ <-].
  case_decide; [by intros [= _ <-]|].
  destruct (foldM _ _ _); [|done]. by intros [= _ <-].
Qed.

Lemma aggregate_from_dated (st st' : state) (rows : list demand_row)
    (dates : list value) :
  now ≠ ""%string →
  aggregate_from t grouped now st rows = Ok (st', dates) →
  Forall (λ date, truthy date = true) dates.
Proof.
  intros Hnow. revert st dates. induction rows as [|r rows IH]; intros st dates.
  - by intros [= _ <-].
  - simpl.
    destruct (demand_step t grouped now st r) as [[st1 date]|] eqn:Hr; [|done].
    simpl.
    destruct (aggregate_from t grouped now st1 rows) as [[st2 dates']|] eqn:Hrows;
      [|done]. simpl. intros [= <- <-]. constructor.
    + by eapply demand_step_dated.
    + by eapply IH.
Qed.

End calculate_more.

Lemma aggregate_from_skip_dated (t : tables) (grouped : list string)
    (now : string) (st : state) (rows : list demand_row) :
  Forall (λ r, truthy (dr_date r) = true) rows →
  aggregate_from t grouped now st rows = Ok (st, dr_date <$> rows).
Proof.
  induction 1 as [|r rows Hr _ IH]; [done|].
  simpl. unfold demand_step. rewrite Hr. simpl. by rewrite IH.
Qed.

Lemma demand_dated_dates (rows : list demand_row) (dates : list value) :
  length dates = length rows → dr_date <$> demand_dated rows dates = dates.
Proof.
  revert dates. induction rows as [|r rows IH]; intros [|date dates]; try done.
  intros [= Hlen]. unfold demand_dated. csimpl. f_equal. by apply IH.
Qed.

(** X20.  Every row leaves a run of [calculate_sheets_number] with a date
    cell that is not empty, be it the time of the run or a flag; so a second
    run over the demand tab, whatever its tables and markers, skips every
    row, reports nothing and leaves the dates. *)
Theorem calculate_rerun (t t' : tables) (grouped grouped' : list string)
    (now now' : string) (rows : list demand_row) (report : list report_row)
    (dates : list value) :
  now ≠ ""%string →
  calculate_sheets_number t grouped now rows = Ok (report, dates) →
  calculate_sheets_number t' grouped' now' (demand_dated rows dates)
  = Ok ([], dates).
Proof.
  intros Hnow (st & Hrun & _)%calculate_inv.
  pose proof (aggregate_from_length _ _ _ _ _ _ _ Hrun) as Hlen.
  pose proof (aggregate_from_dated _ _ _ _ _ _ _ Hnow Hrun) as Hdated.
  unfold calculate_sheets_number, aggregate.
  rewrite aggregate_from_skip_dated.
  - simpl. by rewrite demand_dated_dates.
  - rewrite <-(demand_dated_dates rows dates Hlen) in Hdated.
    by apply Forall_fmap in Hdated.
Qed.

(** *** What the memo gives the records *)

Section report_more.

Variable t : tables.
Variable grouped : list string.
Variable now : string.

Lemma add_pass_demand (temp temp' : buckets) (memo memo' : dict memo_entry)
    (p : pass) (e : string) :
  add_pass t grouped (temp, memo) p = Ok (temp', memo') →
  memo_demand memo' e
  = if decide (ps_elem p = e) then memo_demand memo e + pass_demand p
    else memo_demand memo e.
Proof.
  unfold add_pass, add_elem.
  destruct (dget (ps_elem p) (preforms t)) as [pf|]; [|done]. simpl.
  destruct (get_pps _ _ _ _) as [pps|]; [|done]. simpl.
  destruct (truediv _ _) as [v|]; [|done]. simpl.
  intros [= _ <-]. unfold memo_demand. rewrite dget_dset.
  case_decide; [by subst|done].
Qed.

Lemma foldM_add_pass_demand (ps : list pass) (st st' : state) (e : string) :
  foldM (add_pass t grouped) st ps = Ok st' →
  memo_demand st'.2 e
  = memo_demand st.2 e
    + pysum (pass_demand <$> filter (λ p, ps_elem p = e) ps).
Proof.
  revert st. induction ps as [|p ps IH]; intros [temp memo].
  - intros [= <-]. simpl. rewrite pysum_nil. ring.
  - cbn [foldM].
    destruct (add_pass t grouped (temp, memo) p) as [[temp1 memo1]|] eqn:Hp;
      [|done]. simpl. intros Hps.
    rewrite (IH _ Hps). simpl. rewrite (add_pass_demand _ _ _ _ _ e Hp).
    rewrite filter_cons. case_decide; [|done].
    rewrite fmap_cons, pysum_cons. ring.
Qed.

(** A record of a bucket shows the items and the demand the memo holds
    for its element. *)
Lemma report_bucket_memo (memo : dict memo_entry) (sheet mode : string)
    (modedict : dict Qc) (report : list report_row) (row : report_row) :
  report_bucket now memo sheet mode modedict = Ok report → row ∈ report →
  r_date row = now
  ∧ r_items row = join " " (memo_items memo (r_elem row))
  ∧ r_demand row = memo_demand memo (r_elem row).
Proof.
  unfold report_bucket.
  destruct (dget mode transformer) as [f|]; [|done]. simpl.
  intros Hrows Hrow.
  destruct (flat_mapM_elem _ _ _ _ Hrows Hrow)
    as ([elem sheets_n] & zs & Hin & Hzs & Hrow').
  destruct (dget elem memo) as [m|] eqn:Hm; [|done]. simpl in Hzs.
  injection Hzs as <-. apply list_elem_of_singleton in Hrow' as ->. simpl.
  unfold memo_items, memo_demand. by rewrite Hm.
Qed.

(** X21.  The items and the demand of a record are those of its element over
    the whole run, whatever the sheet and the mode of the record: the items
    of all the passes of the inner loop that met the element, in the order
    of the passes, joined by blanks, and the pieces all these passes asked
    for. Every record bears the time stamp of the run. *)
Theorem report_row_memo (rows : list demand_row) (report : list report_row)
    (dates : list value) (row : report_row) :
  calculate_sheets_number t grouped now rows = Ok (report, dates) →
  row ∈ report →
  r_date row = now
  ∧ r_items row
    = join " " (ps_item <$> filter (λ p, ps_elem p = r_elem row) (passes t rows))
  ∧ r_demand row
    = pysum (pass_demand
               <$> filter (λ p, ps_elem p = r_elem row) (passes t rows)).
Proof.
  intros ([temp memo] & Hrun & Hreport)%calculate_inv Hrow.
  apply aggregate_passes in Hrun.
  destruct (foldM_add_pass _ _ _ _ _ _ _ (memo_ok_nil t) Hrun)
    as (_ & _ & _ & Hitems).
  pose proof (foldM_add_pass_demand _ _ _ (r_elem row) Hrun) as Hdemand.
  unfold report_of in Hreport. simpl in Hreport.
  destruct (flat_mapM_elem _ _ _ _ Hreport Hrow)
    as ([sheet sheetdict] & zs & _ & Hzs & Hrow').
  destruct (flat_mapM_elem _ _ _ _ Hzs Hrow')
    as ([mode modedict] & ws & _ & Hws & Hrow'').
  destruct (report_bucket_memo _ _ _ _ _ _ Hws Hrow'') as (-> & -> & ->).
  simpl in Hdemand.
  split; [done|]. rewrite Hitems, Hdemand. simpl. split; [done|].
  unfold memo_demand. simpl. ring.
Qed.

(** *** Which records there are *)

Lemma add_all_is_Some (counts : list Qc) :
  is_Some (add_all None counts) ↔ counts ≠ [].
Proof.
  rewrite add_all_sum. destruct counts; [|by split].
  split; [by intros [??]|done].
Qed.

Lemma omap_nonempty {A B} (f : A → option B) (l : list A) :
  omap f l ≠ [] ↔ ∃ x, x ∈ l ∧ is_Some (f x).
Proof.
  induction l as [|x l IH]; csimpl.
  - split; [done|]. by intros (x & ?%elem_of_nil & _).
  - destruct (f x) as [y|] eqn:Hx.
    + split; [|done]. intros _. exists x. split; [by left|]. by rewrite Hx.
    + rewrite IH. split.
      * intros (x' & Hin & Hx'). exists x'. split; [by right|done].
      * intros (x' & [->|Hin]%elem_of_cons & Hx'); [|by exists x'].
        rewrite Hx in Hx'. by destruct Hx'.
Qed.

Lemma dict_elem_of_unique {V} (d : dict V) (k : string) (v1 v2 : V) :
  NoDup (keys d) → (k, v1) ∈ d → (k, v2) ∈ d → v1 = v2.
Proof.
  intros Hnodup H1%(dget_elem_of _ _ _ Hnodup) H2%(dget_elem_of _ _ _ Hnodup).
  congruence.
Qed.

(** The keys of the report are the keys of the bucket entries. *)
Lemma report_keys_bucket (temp : buckets) (memo : dict memo_entry)
    (s m e : string) :
  buckets_ok temp memo →
  (s, m, e) ∈ report_keys temp ↔ is_Some (bucket temp s m e).
Proof.
  intros [Hsheets Hall]. rewrite report_keys_unfold. split.
  - intros ([s' sd'] & Hin & (sd & Hsd & ->)%sort_nested_dict_elem)%list_elem_of_bind.
    apply list_elem_of_bind in Hin as ([m' md] & Hin & Hmd). simpl in *.
    rewrite sorted_items_perm in Hmd.
    apply list_elem_of_fmap in Hin as (e' & [= -> -> ->] & He).
    eapply Forall_forall in Hall as [Hmodes Hsheet]; [|exact Hsd].
    simpl in *.
    eapply Forall_forall in Hsheet as (Hmode & _ & _); [|exact Hmd].
    simpl in *. rewrite (bucket_elems_keys _ _ Hmode) in He.
    unfold bucket. rewrite (dget_elem_of _ _ _ Hsheets Hsd). simpl.
    rewrite (dget_elem_of _ _ _ Hmodes Hmd). simpl.
    by apply elem_of_keys_dget.
  - unfold bucket.
    destruct (dget s temp) as [sd|] eqn:Hsd; [|by intros [??]]. simpl.
    destruct (dget m sd) as [md|] eqn:Hmd; [|by intros [??]]. simpl.
    intros He%elem_of_keys_dget.
    apply dget_Some_elem_of in Hsd, Hmd.
    eapply Forall_forall in Hall as [Hmodes Hsheet]; [|exact Hsd].
    simpl in *.
    eapply Forall_forall in Hsheet as (Hmode & _ & _); [|exact Hmd].
    simpl in *.
    apply list_elem_of_bind. exists (s, sorted_items sd).
    split; [|by apply sort_nested_dict_elem_of]. simpl.
    apply list_elem_of_bind. exists (m, md).
    split; [|by rewrite sorted_items_perm]. simpl.
    apply list_elem_of_fmap. exists e. split; [done|].
    by rewrite (bucket_elems_keys _ _ Hmode).
Qed.

Lemma report_keys_NoDup (temp : buckets) (memo : dict memo_entry) :
  buckets_ok temp memo → NoDup (report_keys temp).
Proof.
  intros [Hsheets Hall]. rewrite report_keys_unfold.
  assert (NoDup (keys (sort_nested_dict temp))) as Hsorted.
  { pose proof (sort_nested_dict_keys temp) as Hperm. by rewrite Hperm. }
  apply NoDup_bind.
  - intros [s1 sd1] [s2 sd2] k Hin1 Hin2.
    intros ([m1 md1] & (e1 & -> & _)%list_elem_of_fmap & _)%list_elem_of_bind.
    intros ([m2 md2] & (e2 & [= -> _ _] & _)%list_elem_of_fmap & _)%list_elem_of_bind.
    simpl in *. f_equal. by eapply dict_elem_of_unique.
  - intros [s sd'] (sd & Hsd & ->)%sort_nested_dict_elem. simpl.
    eapply Forall_forall in Hall as [Hmodes Hsheet]; [|exact Hsd].
    simpl in *.
    assert (NoDup (keys (sorted_items sd))) as Hmodes'.
    { unfold keys. by rewrite sorted_items_perm. }
    apply NoDup_bind.
    + intros [m1 md1] [m2 md2] k Hin1 Hin2.
      intros (e1 & -> & _)%list_elem_of_fmap (e2 & [= -> _] & _)%list_elem_of_fmap.
      f_equal. by eapply dict_elem_of_unique.
    + intros [m md] Hmd. rewrite sorted_items_perm in Hmd.
      eapply Forall_forall in Hsheet as (Hmode & Helems & _); [|exact Hmd].
      simpl in *. apply NoDup_fmap_2; [by intros ?? [= ->]|].
      by rewrite (bucket_elems_keys _ _ Hmode).
    + eapply NoDup_fmap_1. exact Hmodes'.
  - eapply NoDup_fmap_1. exact Hsorted.
Qed.

Lemma report_keys_passes (rows : list demand_row) (temp : buckets)
    (memo : dict memo_entry) (sheet mode elem : string) :
  foldM (add_pass t grouped) ([], []) (passes t rows) = Ok (temp, memo) →
  (sheet, mode, elem) ∈ report_keys temp
  ↔ ∃ p, p ∈ passes t rows ∧ is_Some (pass_adds t grouped sheet mode elem p).
Proof.
  intros Hrun.
  pose proof (foldM_buckets_ok t grouped _ _ _ Hrun buckets_ok_nil) as Hok.
  destruct (foldM_add_pass _ _ _ _ _ _ _ (memo_ok_nil t) Hrun)
    as (_ & _ & Hbucket & _).
  simpl in *. rewrite (report_keys_bucket _ _ _ _ _ Hok), Hbucket.
  by rewrite add_all_is_Some, omap_nonempty.
Qed.

(** X22.  The report has one record for every bucket entry, and a bucket
    entry for every sheet, mode and element that a pass of the inner loop
    adds sheets to: no sheet, mode and element comes twice, and the three
    come in a record exactly when some pass of the demand falls to them. *)
Theorem report_rows_passes (rows : list demand_row) (report : list report_row)
    (dates : list value) :
  calculate_sheets_number t grouped now rows = Ok (report, dates) →
  NoDup (row_key <$> report)
  ∧ ∀ sheet mode elem,
      (sheet, mode, elem) ∈ row_key <$> report
      ↔ ∃ p, p ∈ passes t rows
             ∧ is_Some (pass_adds t grouped sheet mode elem p).
Proof.
  intros ([temp memo] & Hrun & Hreport)%calculate_inv.
  pose proof (aggregate_buckets_ok _ _ _ _ _ _ Hrun) as Hok.
  apply aggregate_passes in Hrun.
  rewrite (report_of_keys _ _ _ _ Hreport). simpl in *.
  split; [by eapply report_keys_NoDup|].
  intros sheet mode elem. by apply report_keys_passes with memo.
Qed.

Lemma pass_adds_own (p : pass) (x : string * string * Qc) :
  pass_sheets t grouped p = Ok x →
  pass_adds t grouped x.1.1 x.1.2 (ps_elem p) p = Some x.2.
Proof.
  intros Hx. unfold pass_adds. rewrite Hx. destruct x as [[s m] v]. simpl.
  by rewrite decide_True.
Qed.

(** X23.  The report is empty, and the run prints that there is no demand to
    process, exactly when no pass of the inner loop is made: when every row
    of the demand is dated, is flagged, or asks for an item that has no
    element. *)
Theorem report_empty (rows : list demand_row) (report : list report_row)
    (dates : list value) :
  calculate_sheets_number t grouped now rows = Ok (report, dates) →
  report = [] ↔ passes t rows = [].
Proof.
  intros ([temp memo] & Hrun & Hreport)%calculate_inv.
  pose proof (aggregate_buckets_ok _ _ _ _ _ _ Hrun) as Hok.
  apply aggregate_passes in Hrun.
  destruct (foldM_add_pass _ _ _ _ _ _ _ (memo_ok_nil t) Hrun)
    as (_ & Hall & Hbucket & _).
  pose proof (report_of_keys _ _ _ _ Hreport) as Hkeys. simpl in *.
  split.
  - intros ->. destruct (passes t rows) as [|p ps] eqn:Hps; [done|]. exfalso.
    apply Forall_cons in Hall as [[[[s m] v] Hx] _].
    assert ((s, m, ps_elem p) ∈ report_keys temp) as Hin.
    { rewrite (report_keys_bucket _ _ _ _ _ Hok), Hbucket.
      apply add_all_is_Some, omap_nonempty. exists p. split; [by left|].
      pose proof (pass_adds_own p _ Hx) as Hown. simpl in Hown.
      by rewrite Hown. }
    rewrite <-Hkeys in Hin. by apply elem_of_nil in Hin.
  - intros Hps. rewrite Hps in Hrun. injection Hrun as <- <-.
    by injection Hreport as <-.
Qed.


(** *** The sheet and the mode of a record *)

Lemma pass_adds_Some (sheet mode elem : string) (p : pass) (x : Qc) :
  pass_adds t grouped sheet mode elem p = Some x →
  ps_elem p = elem
  ∧ mode = (if has_marker (ps_item p) grouped then "grouped"%string
            else "single"%string)
  ∧ ∃ pf pps,
      dget elem (preforms t) = Some pf ∧ psheet pf = sheet
      ∧ get_pps (pa pf) (pb pf) (psheet pf) (feedstock t) = Ok pps
      ∧ pps ≠ 0 ∧ x * pps = pass_demand p.
Proof.
  unfold pass_adds, pass_sheets.
  destruct (dget (ps_elem p) (preforms t)) as [pf|] eqn:Hpf; [|done]. simpl.
  destruct (get_pps (pa pf) (pb pf) (psheet pf) (feedstock t)) as [pps|]
    eqn:Hpps; [|done]. simpl.
  unfold truediv. case_decide as Hzero; [done|]. simpl.
  case_decide as Hkey; [|done]. destruct Hkey as (<- & <- & <-).
  intros [= <-]. split; [done|]. split; [done|].
  exists pf, pps. repeat split; try done.
  unfold pass_demand. by field.
Qed.

(** X24.  A record stands under the sheet of the preform of its element, and
    under the mode of an item the demand asks for that has the element:
    "grouped" when a marker is found in the item, "single" when none is.
    With no markers every record is in the mode "single". *)
Theorem report_row_bucket (rows : list demand_row) (report : list report_row)
    (dates : list value) (row : report_row) :
  calculate_sheets_number t grouped now rows = Ok (report, dates) →
  row ∈ report →
  (∃ pf, dget (r_elem row) (preforms t) = Some pf ∧ r_sheet row = psheet pf)
  ∧ (∃ p, p ∈ passes t rows ∧ ps_elem p = r_elem row
          ∧ r_mode row = if has_marker (ps_item p) grouped
                         then "grouped"%string else "single"%string)
  ∧ (grouped = [] → r_mode row = "single"%string).
Proof.
  intros ([temp memo] & Hrun & Hreport)%calculate_inv Hrow.
  apply aggregate_passes in Hrun.
  assert ((r_sheet row, r_mode row, r_elem row) ∈ report_keys temp) as Hkey.
  { pose proof (report_of_keys _ _ _ _ Hreport) as Hkeys. simpl in Hkeys.
    rewrite <-Hkeys. apply list_elem_of_fmap. by exists row. }
  apply (report_keys_passes rows temp memo) in Hkey as (p & Hp & [x Hx]);
    [|done].
  apply pass_adds_Some in Hx as (Helem & Hmode & pf & pps & Hpf & Hsheet & _).
  split; [by exists pf|]. split; [by exists p|].
  intros ->. by rewrite Hmode.
Qed.

(** *** The pieces a record recommends *)








(** *** The records of the mode "single" *)






End report_more.

(** *** The properties on sample data *)

Lemma sample_tables_ok : tables_ok sample_tables.
Proof.
  unfold tables_ok. simpl. repeat constructor; simpl.
  all: eexists _, _; split; [reflexivity|]; split; [reflexivity|].
  all: repeat split; try by_compute.
  all: left; split; by_compute.
Qed.

Lemma grouped_report_run :
  calculate_sheets_number sample_tables gadget_markers "now" two_item_demand
  = Ok (grouped_report, [VStr "now"; VStr "now"]).
Proof. by_compute. Qed.

Lemma grouped_x_row_in : grouped_x_row ∈ grouped_report.
Proof. by_compute. Qed.

Lemma calculate_total_witness :
  ∃ report dates,
    calculate_sheets_number sample_tables gadget_markers "now" two_item_demand
    = Ok (report, dates)
    ∧ length dates = length two_item_demand.
Proof. apply calculate_total, sample_tables_ok. Defined.

Lemma calculate_rerun_witness :
  calculate_sheets_number sample_tables gadget_markers "later"
    (demand_dated sample_demand [VStr "now"; VStr "KeyError"])
  = Ok ([], [VStr "now"; VStr "KeyError"]).
Proof.
  apply (calculate_rerun sample_tables sample_tables [] gadget_markers
           "now" "later" sample_demand sample_report); by_compute.
Defined.

Lemma report_row_memo_witness :
  r_date grouped_x_row = "now"%string
  ∧ r_items grouped_x_row
    = join " " (ps_item <$> filter (λ p, ps_elem p = r_elem grouped_x_row)
                              (passes sample_tables two_item_demand))
  ∧ r_demand grouped_x_row
    = pysum (pass_demand
               <$> filter (λ p, ps_elem p = r_elem grouped_x_row)
                     (passes sample_tables two_item_demand)).
Proof.
  apply (report_row_memo sample_tables gadget_markers "now" two_item_demand
           grouped_report [VStr "now"; VStr "now"]).
  - apply grouped_report_run.
  - apply grouped_x_row_in.
Defined.

Lemma report_rows_passes_witness :
  NoDup (row_key <$> grouped_report)
  ∧ ∀ sheet mode elem,
      (sheet, mode, elem) ∈ row_key <$> grouped_report
      ↔ ∃ p, p ∈ passes sample_tables two_item_demand
             ∧ is_Some (pass_adds sample_tables gadget_markers sheet mode elem p).
Proof.
  apply (report_rows_passes sample_tables gadget_markers "now" two_item_demand
           grouped_report [VStr "now"; VStr "now"]).
  apply grouped_report_run.
Defined.

Lemma report_empty_witness :
  ([] : list report_row) = [] ↔ passes sample_tables [entry "Unknown" 3] = [].
Proof.
  apply (report_empty sample_tables [] "now" [entry "Unknown" 3] []
           [VStr "KeyError"]).
  by_compute.
Defined.

Lemma report_row_bucket_witness :
  (∃ pf, dget (r_elem grouped_x_row) (preforms sample_tables) = Some pf
         ∧ r_sheet grouped_x_row = psheet pf)
  ∧ (∃ p, p ∈ passes sample_tables two_item_demand
          ∧ ps_elem p = r_elem grouped_x_row
          ∧ r_mode grouped_x_row
            = if has_marker (ps_item p) gadget_markers
              then "grouped"%string else "single"%string)
  ∧ (gadget_markers = [] → r_mode grouped_x_row = "single"%string).
Proof.
  apply (report_row_bucket sample_tables gadget_markers "now" two_item_demand
           grouped_report [VStr "now"; VStr "now"]).
  - apply grouped_report_run.
  - apply grouped_x_row_in.
Defined.



(** ** call_item *)

Section call_facts.

Variable t : tables.
Variable subitems : dict (list string).

Lemma call_item_unfold (tester : list string) :
  call_item t subitems tester
  = match called t tester with
    | [] => Ok None
    | _ => Some <$> call_items t subitems 1 [] (called t tester)
    end.
Proof. done. Qed.

Lemma called_nil (tester : list string) :
  called t tester = []
  ↔ Forall (λ item, has_marker item tester = false) (keys (contents t)).
Proof.
  unfold called. induction (keys (contents t)) as [|item items IH].
  - split; [constructor|done].
  - rewrite filter_cons, Forall_cons.
    destruct (has_marker item tester) eqn:Hitem.
    + rewrite decide_True by done. by split; [|intros [? _]].
    + rewrite decide_False by done. rewrite IH. by split; [|intros [_ ?]].
Qed.

Lemma call_item_None (tester : list string) :
  call_item t subitems tester = Ok None ↔ called t tester = [].
Proof.
  rewrite call_item_unfold. destruct (called t tester) as [|item items]; [done|].
  split; [|done]. by destruct (call_items _ _ _ _ _).
Qed.

(** X27.  A call that no item of the bill of materials matches finds
    nothing, and raises nothing; any other call returns its two tables or
    raises. A call with no marker finds nothing. *)
Theorem call_item_no_match (tester : list string) :
  (call_item t subitems tester = Ok None
   ↔ Forall (λ item, has_marker item tester = false) (keys (contents t)))
  ∧ call_item t subitems [] = Ok None.
Proof.
  split; [by rewrite call_item_None, called_nil|].
  apply call_item_None, called_nil, Forall_forall. by intros item _.
Qed.

(** *** The table of parameters *)

Lemma call_params_fold (N : nat) (item : string) (elems : dict Qc)
    (report0 report : list params_row) (memo memo' : dict Qc) :
  call_memo_ok t memo →
  foldM (call_params t N item) (report0, memo) elems = Ok (report, memo') →
  call_memo_ok t memo'
  ∧ ∃ new, report = report0 ++ new
           ∧ params_key <$> new = (λ entry, (N, item, entry.1, entry.2)) <$> elems
           ∧ Forall (params_row_ok t) new.
Proof.
  revert report0 memo. induction elems as [|[elem pcs] elems IH];
    intros report0 memo Hmemo.
  - intros [= <- <-]. split; [done|]. exists []. by rewrite app_nil_r.
  - cbn [foldM]. unfold call_params at 2.
    destruct (dget elem (preforms t)) as [pf|] eqn:Hpf; [|done]. simpl.
    destruct (get_pps (pa pf) (pb pf) (psheet pf) (feedstock t)) as [computed|]
      eqn:Hpps; [|done]. simpl.
    set (row pps := {| cp_N := N; cp_item := item; cp_elem := elem;
                       cp_pcs := pcs; cp_a := pa pf; cp_b := pb pf;
                       cp_sheet := psheet pf; cp_pps := pps |}).
    assert (∃ pps memo1,
      match dget elem memo with
      | Some pps => (pps, memo)
      | None => (computed, dset elem computed memo)
      end = (pps, memo1)
      ∧ call_memo_ok t memo1 ∧ params_row_ok t (row pps))
      as (pps & memo1 & -> & Hmemo1 & Hrow).
    { destruct (dget elem memo) as [pps|] eqn:Hget.
      - exists pps, memo. split; [done|]. split; [done|].
        destruct (Hmemo _ _ Hget) as (pf' & Hpf' & Hpps').
        exists pf. simpl. repeat split; try done. congruence.
      - exists computed, (dset elem computed memo). split; [done|]. split.
        + intros e q. rewrite dget_dset. case_decide; [|apply Hmemo].
          intros [= <-]. subst e. by exists pf.
        + exists pf. by simpl. }
    intros Hrest. destruct (IH _ _ Hmemo1 Hrest) as (Hmemo' & new & -> & Hkeys & Hok).
    split; [done|]. exists (row pps :: new).
    split; [by rewrite <-app_assoc|]. split; [|by constructor].
    csimpl. by rewrite Hkeys.
Qed.

Lemma call_items_params (N : nat) (memo : dict Qc) (items : list string)
    (params : list params_row) (subs : list subitems_row) :
  call_memo_ok t memo →
  call_items t subitems N memo items = Ok (params, subs) →
  params_key <$> params
  = mjoin (imap (λ i item,
             (λ entry, ((N + i)%nat, item, entry.1, entry.2))
               <$> default [] (dget item (contents t))) items)
  ∧ Forall (params_row_ok t) params.
Proof.
  revert N memo params subs. induction items as [|item items IH];
    intros N memo params subs Hmemo.
  - by intros [= <- <-].
  - cbn [call_items].
    destruct (dget item (contents t)) as [elems|] eqn:Hitem; [|done]. simpl.
    destruct (foldM (call_params t N item) ([], memo) elems)
      as [[new memo1]|] eqn:Hfold; [|done]. simpl.
    destruct (call_params_fold _ _ _ _ _ _ _ Hmemo Hfold)
      as (Hmemo1 & new' & -> & Hkeys & Hok). simpl.
    destruct (match dget item subitems with
              | Some items_ => call_subitems t N 1 item items_
              | None => Ok []
              end) as [subs1|]; [|done]. simpl.
    destruct (call_items t subitems (S N) memo1 items) as [[params' subs']|]
      eqn:Hrest; [|done]. simpl. intros [= <- <-].
    destruct (IH _ _ _ _ Hmemo1 Hrest) as [Hkeys' Hok'].
    split; [|by apply Forall_app].
    rewrite fmap_app, Hkeys, Hkeys'.
    rewrite Hitem, Nat.add_0_r. simpl. f_equal. f_equal.
    apply imap_ext. intros i item' _. simpl.
    by replace (S (N + i)) with (N + S i)%nat by lia.
Qed.

Lemma call_memo_ok_nil : call_memo_ok t [].
Proof. by intros elem pps. Qed.

(** X28.  The table of parameters of a call lists the items of the call in
    their order, numbered from 1, each with its elements and their counts in
    the order of the item; every record gives the preform of its element and
    the pps that [get_pps] computes for it, also where the pps comes from
    the memo. *)
Theorem call_item_params (tester : list string) (params : list params_row)
    (subs : list subitems_row) :
  call_item t subitems tester = Ok (Some (params, subs)) →
  params_key <$> params
  = mjoin (imap (λ i item,
             (λ entry, (S i, item, entry.1, entry.2))
               <$> default [] (dget item (contents t))) (called t tester))
  ∧ Forall (params_row_ok t) params.
Proof.
  rewrite call_item_unfold. intros Hcall.
  assert (call_items t subitems 1 [] (called t tester) = Ok (params, subs))
    as Hitems.
  { destruct (called t tester); [done|].
    destruct (call_items _ _ _ _ _) as [[??]|]; [|done].
    simpl in Hcall. congruence. }
  apply (call_items_params _ _ _ _ _ call_memo_ok_nil Hitems).
Qed.


(** *** The table of the items an item is a part of *)

Lemma call_subitems_rows (N n : nat) (item : string) (items_ : list string)
    (subs : list subitems_row) (r : subitems_row) :
  call_subitems t N n item items_ = Ok subs → r ∈ subs →
  ∃ j elems,
    items_ !! j = Some (cs_item r)
    ∧ dget (cs_item r) (contents t) = Some elems
    ∧ (cs_elem r, cs_pcs r) ∈ elems
    ∧ cs_label r
      = (if decide (cs_elem r = item) then ">" else " ")
        +:+ pretty N +:+ "." +:+ pretty (n + j)%nat.
Proof.
  revert n subs. induction items_ as [|item_ items_ IH]; intros n subs.
  - intros [= <-] Hr. by apply elem_of_nil in Hr.
  - cbn [call_subitems].
    destruct (dget item_ (contents t)) as [elems|] eqn:Hitem; [|done]. simpl.
    destruct (call_subitems t N (S n) item items_) as [more|] eqn:Hmore; [|done].
    simpl. intros [= <-] [Hr|Hr]%elem_of_app.
    + apply list_elem_of_fmap in Hr as ([elem_ pcs_] & -> & Hin). simpl.
      exists 0%nat, elems. by rewrite Nat.add_0_r.
    + destruct (IH _ _ Hmore Hr) as (j & elems' & Hj & Helems & Hin & Hlabel).
      exists (S j), elems'. repeat split; try done.
      rewrite Hlabel. by replace (S n + j)%nat with (n + S j)%nat by lia.
Qed.

Lemma call_items_subs (N : nat) (memo : dict Qc) (items : list string)
    (params : list params_row) (subs : list subitems_row) (r : subitems_row) :
  call_items t subitems N memo items = Ok (params, subs) → r ∈ subs →
  ∃ i item items_ j elems,
    items !! i = Some item
    ∧ dget item subitems = Some items_
    ∧ items_ !! j = Some (cs_item r)
    ∧ dget (cs_item r) (contents t) = Some elems
    ∧ (cs_elem r, cs_pcs r) ∈ elems
    ∧ cs_label r
      = (if decide (cs_elem r = item) then ">" else " ")
        +:+ pretty (N + i)%nat +:+ "." +:+ pretty (S j).
Proof.
  revert N memo params subs. induction items as [|item items IH];
    intros N memo params subs.
  - intros [= <- <-] Hr. by apply elem_of_nil in Hr.
  - cbn [call_items].
    destruct (dget item (contents t)) as [elems|]; [|done]. simpl.
    destruct (foldM (call_params t N item) ([], memo) elems)
      as [[new memo1]|]; [|done]. simpl.
    destruct (dget item subitems) as [items_|] eqn:Hsub.
    + destruct (call_subitems t N 1 item items_) as [subs1|] eqn:Hsubs1;
        [|done]. simpl.
      destruct (call_items t subitems (S N) memo1 items) as [[params' subs']|]
        eqn:Hrest; [|done]. simpl. intros [= <- <-] [Hr|Hr]%elem_of_app.
      * destruct (call_subitems_rows _ _ _ _ _ _ Hsubs1 Hr)
          as (j & elems' & Hj & Helems & Hin & Hlabel).
        exists 0%nat, item, items_, j, elems'.
        rewrite Nat.add_0_r. by repeat split.
      * destruct (IH _ _ _ _ Hrest Hr)
          as (i & item' & items_' & j & elems' & Hi & Hsub' & Hj & Helems
              & Hin & Hlabel).
        exists (S i), item', items_', j, elems'. repeat split; try done.
        rewrite Hlabel. by replace (S N + i)%nat with (N + S i)%nat by lia.
    + simpl.
      destruct (call_items t subitems (S N) memo1 items) as [[params' subs']|]
        eqn:Hrest; [|done]. simpl. intros [= <- <-] Hr. simpl in Hr.
      destruct (IH _ _ _ _ Hrest Hr)
        as (i & item' & items_' & j & elems' & Hi & Hsub' & Hj & Helems
            & Hin & Hlabel).
      exists (S i), item', items_', j, elems'. repeat split; try done.
      rewrite Hlabel. by replace (S N + i)%nat with (N + S i)%nat by lia.
Qed.

(** X29.  A record of the second table of a call belongs to an item of the
    call and to one of the items that the table of subitems gives for it,
    and shows an element of that one with its count. Its label is the number
    the item has in the table of parameters, a dot, and the number of the
    other item among those of the item, both counted from 1; the label
    begins with ">" when the element is the item of the call itself, and
    with a blank when it is not. *)
Theorem call_item_subitems (tester : list string) (params : list params_row)
    (subs : list subitems_row) (r : subitems_row) :
  call_item t subitems tester = Ok (Some (params, subs)) → r ∈ subs →
  ∃ i item items_ j elems,
    called t tester !! i = Some item
    ∧ dget item subitems = Some items_
    ∧ items_ !! j = Some (cs_item r)
    ∧ dget (cs_item r) (contents t) = Some elems
    ∧ (cs_elem r, cs_pcs r) ∈ elems
    ∧ cs_label r
      = (if decide (cs_elem r = item) then ">" else " ")
        +:+ pretty (S i) +:+ "." +:+ pretty (S j).
Proof.
  rewrite call_item_unfold. intros Hcall Hr.
  assert (call_items t subitems 1 [] (called t tester) = Ok (params, subs))
    as Hitems.
  { destruct (called t tester); [done|].
    destruct (call_items _ _ _ _ _) as [[??]|]; [|done].
    simpl in Hcall. congruence. }
  apply (call_items_subs _ _ _ _ _ _ Hitems Hr).
Qed.

(** *** Calls that raise nothing *)






End call_facts.





(** *** The properties on sample data *)


Lemma call_tables_run :
  call_item call_tables (subitems_of call_contents) ["i"%string]
  = Ok (Some (call_params_table, call_subitems_table)).
Proof. by_compute. Qed.

Lemma call_item_params_witness :
  params_key <$> call_params_table
  = mjoin (imap (λ i item,
             (λ entry, (S i, item, entry.1, entry.2))
               <$> default [] (dget item (contents call_tables)))
             (called call_tables ["i"%string]))
  ∧ Forall (params_row_ok call_tables) call_params_table.
Proof.
  apply (call_item_params call_tables (subitems_of call_contents)
           ["i"%string] call_params_table call_subitems_table).
  apply call_tables_run.
Defined.

Lemma call_item_subitems_witness :
  ∃ i item items_ j elems,
    called call_tables ["i"%string] !! i = Some item
    ∧ dget item (subitems_of call_contents) = Some items_
    ∧ items_ !! j = Some (cs_item call_pointed_row)
    ∧ dget (cs_item call_pointed_row) (contents call_tables) = Some elems
    ∧ (cs_elem call_pointed_row, cs_pcs call_pointed_row) ∈ elems
    ∧ cs_label call_pointed_row
      = (if decide (cs_elem call_pointed_row = item) then ">" else " ")
        +:+ pretty (S i) +:+ "." +:+ pretty (S j).
Proof.
  apply (call_item_subitems call_tables (subitems_of call_contents)
           ["i"%string] call_params_table call_subitems_table).
  - apply call_tables_run.
  - by_compute.
Defined.

